(** * Auction platform: event subscriber and room broadcaster

    A shallow embedding of [consumer.py] (class [EventSubscriber]), of
    [services/loggers/audit_logger.py] (the method table of [AuditLogger]),
    of [managers/auctions.py] (class [ConnectionManager]) and of
    [managers/redis_pubsub.py] (class [RedisPubSubManager]), together with
    the properties of the specification that concern them.

    Conventions.  A coroutine is a computation in the monad [M]: it appends
    the effects it performs to a trace and either returns or raises.  The
    services behind the code (the broker, [json.loads], the schema
    validator, the application callback, the websocket transport) are
    Section variables: every theorem holds for all of them. *)

From Stdlib Require Import ZArith QArith.
From stdpp Require Import gmap strings list fin_maps.

Local Open Scope Z_scope.
Local Open Scope string_scope.
Local Open Scope list_scope.

(** ** Exceptions and results *)

(** The exception classes the modelled code can meet.  [AMQPConnectionError]
    is a subclass of [AMQPError]; [JSONDecodeError] and [UnicodeDecodeError]
    are subclasses of [ValueError]; all of them are subclasses of
    [Exception]. *)
Inductive exn : Type :=
| ValueError | JSONDecodeError | UnicodeDecodeError
| TypeError | AttributeError | KeyError | RecursionError | RuntimeError
| OverflowError
| AMQPError | AMQPConnectionError.

Definition is_ValueError (e : exn) : bool :=
  match e with
  | ValueError | JSONDecodeError | UnicodeDecodeError => true
  | _ => false
  end.

Definition is_AMQPError (e : exn) : bool :=
  match e with
  | AMQPError | AMQPConnectionError => true
  | _ => false
  end.

Definition is_AMQPConnectionError (e : exn) : bool :=
  match e with
  | AMQPConnectionError => true
  | _ => false
  end.

Inductive result (A : Type) : Type :=
| Ok (a : A)
| Raise (e : exn).
Arguments Ok {A} a.
Arguments Raise {A} e.

Definition is_ok {A} (r : result A) : bool :=
  match r with Ok _ => true | Raise _ => false end.

(** * The event subscriber ([consumer.py]) *)

Module Consumer.

(** ** Messages *)

(** A header value: Python [None], an [int] or a [str], the three kinds of
    value the subscriber reads or writes. *)
Inductive hval : Type :=
| HNone
| HInt (n : Z)
| HStr (s : string).

#[global] Instance hval_eq_dec : EqDecision hval.
Proof. solve_decision. Defined.

(** [aio_pika] message: the body bytes and the headers mapping, which the
    code treats as possibly absent ([message.headers or {}]). *)
Record Message : Type := mkMessage {
  body : list Byte.byte;
  headers : option (gmap string hval)
}.

(** Python truthiness of [message.headers]: absent and empty are falsy. *)
Definition headers_truthy (h : option (gmap string hval)) : bool :=
  match h with
  | Some m => negb (bool_decide (m = ∅))
  | None => false
  end.

(** [message.headers or {}] *)
Definition headers_or_empty (h : option (gmap string hval)) : gmap string hval :=
  if headers_truthy h then default ∅ h else ∅.

(** ** Effects *)

(** Arguments of a queue declaration. *)
Record queue_decl : Type := mkQueueDecl {
  q_name : string;
  q_durable : bool;
  q_auto_delete : bool;
  q_arguments : gmap string hval
}.

(** What is handed to [queue.consume] as the consumer of a queue: the
    function [on_message], which only a completed call of
    [_consume_message] gives, or the coroutine object that the call of the
    [async def _consume_message] is as long as it is not awaited, whose body
    has not run. *)
Inductive consumer : Type :=
| OnMessage
| CoroutineObject.

(** Calls on the broker channel.  [channel.exchange(name).publish(message,
    routing_key=...)] is taken as the publication of [message] to the
    exchange [name]; the dead-letter branch passes no routing key. *)
Inductive broker_op : Type :=
| OpenChannel                              (* connect_robust, then channel() *)
| DeclareExchange (name : string) (type : string)
| DeclareQueue (d : queue_decl)
| Bind (queue : string) (exchange : string)
| Consume (queue : string) (callback : consumer) (no_ack : bool)
| Publish (exchange : string) (routing_key : option string) (m : Message).

(** A decoded JSON document, as [json.loads] returns it (a [float] is carried
    as the rational it denotes). *)
#[warnings="-register-all"] Inductive json : Type :=
| JNull
| JBool (b : bool)
| JInt (n : Z)
| JFloat (q : Q)
| JStr (s : string)
| JArr (items : list json)
| JObj (fields : list (string * json)).

Definition payload : Type := json.

Inductive event : Type :=
| EvUuid                                   (* uuid.uuid4() *)
| EvLog (method : string)                  (* a logger method that ran *)
| EvSleep (seconds : Q)                    (* asyncio.sleep *)
| EvCallback (data : payload) (request_id : hval)
| EvBroker (op : broker_op).

(** Trace and outcome of a coroutine. *)
Definition M (A : Type) : Type := (list event * result A)%type.

Definition ret {A} (a : A) : M A := ([], Ok a).
Definition raise {A} (e : exn) : M A := ([], Raise e).
Definition emit (ev : event) : M unit := ([ev], Ok tt).

Definition bind {A B} (m : M A) (k : A -> M B) : M B :=
  match m with
  | (t, Ok a) => let '(t', r) := k a in (t ++ t', r)
  | (t, Raise e) => (t, Raise e)
  end.

(** [try: m except Exception as e: h e] *)
Definition try_except {A} (m : M A) (h : exn -> M A) : M A :=
  match m with
  | (t, Ok a) => (t, Ok a)
  | (t, Raise e) => let '(t', r) := h e in (t ++ t', r)
  end.

Definition trace_of {A} (m : M A) : list event := fst m.
Definition outcome_of {A} (m : M A) : result A := snd m.

#[global] Instance M_ret : MRet M := fun A a => ret a.
#[global] Instance M_bind : MBind M := fun A B k m => bind m k.

(** ** Loggers *)

(** A logger object is known by the methods its class defines; calling a
    method the class does not define raises [AttributeError] at the
    attribute lookup.  The defined methods never raise: [BaseLogger._log_text]
    wraps the sink in [try/except Exception]. *)
Definition logger_object : Type := list string.

(** [services/loggers/audit_logger.py]: the five methods of [AuditLogger]. *)
Definition AuditLogger : logger_object :=
  ["log"; "warn"; "error"; "debug"; "critical"].

Definition logger_call (lg : logger_object) (method : string) : M unit :=
  if bool_decide (method ∈ lg) then emit (EvLog method) else raise AttributeError.

(** ** EventSubscriber *)

Record EventSubscriber : Type := mkEventSubscriber {
  exchange_name : string;
  dead_letter_exchange : string;
  retry_exchange : string;
  max_retries : Z;
  message_ttl : Z;
  max_message_count : Z;
  logger : logger_object
}.

(** [EventSubscriber.__init__] *)
Definition init (exchange_name dead_letter_exchange : string)
    (audit_logger : logger_object) : EventSubscriber :=
  {| exchange_name := exchange_name;
     dead_letter_exchange := dead_letter_exchange;
     retry_exchange := "retry_exchange";
     max_retries := 5;
     message_ttl := 300000;
     max_message_count := 1000;
     logger := audit_logger |}.

(** What [async with message.process()] does with the delivery when its body
    ends: acknowledge on a normal exit, reject when an exception escapes. *)
Inductive disposition : Type := Acked | Rejected.

Section Subscriber.

(** The broker: [None] when the channel call succeeds, the exception it
    raises otherwise.  The call is recorded in the trace either way. *)
Variable broker : broker_op -> option exn.

(** [json.loads] on the body bytes. *)
Variable json_loads : list Byte.byte -> result payload.

(** [app.utils.validate_message_schema]: [None] when the document passes,
    the exception it raises otherwise. *)
Variable validate_message_schema : payload -> option exn.

(** The application callback: [None] when it returns, the exception it
    raises otherwise. *)
Variable callback : payload -> hval -> option exn.

(** The text of [str(uuid.uuid4())] drawn for this delivery. *)
Variable uuid4 : string.

(** The names the [aio_pika] package has as attributes: [aio_pika name]
    tells whether [aio_pika.name] is found. *)
Variable aio_pika : string -> bool.

Definition chan (op : broker_op) : M unit :=
  ([EvBroker op], match broker op with None => Ok tt | Some e => Raise e end).

(** [except aio_pika.name as e: handler], reached by the exception [e]: the
    class is looked up in the package at that moment, and a name the package
    does not have raises [AttributeError] in place of [e]; a class that does
    not match lets [e] through. *)
Definition except_aio_pika {A} (name : string) (matches : exn -> bool)
    (handler : exn -> M A) (e : exn) : M A :=
  if aio_pika name
  then if matches e then handler e else raise e
  else raise AttributeError.

(** [EventSubscriber.__declare_dead_letter_queue] and
    [EventSubscriber.connect]. *)
Definition declare_dead_letter_queue (self : EventSubscriber) : M unit :=
  chan (DeclareQueue
          {| q_name := "dead_letter_queue"; q_durable := true;
             q_auto_delete := false;
             q_arguments := {[ "x-message-ttl" := HInt (message_ttl self) ]} |}) ;;
  chan (Bind "dead_letter_queue" (dead_letter_exchange self)).

Definition connect (self : EventSubscriber) : M unit :=
  try_except
    (chan OpenChannel ;;
     chan (DeclareExchange (exchange_name self) "fanout") ;;
     chan (DeclareExchange (dead_letter_exchange self) "fanout") ;;
     chan (DeclareExchange (retry_exchange self) "direct") ;;
     declare_dead_letter_queue self)
    (except_aio_pika "AMQPConnectionError" is_AMQPConnectionError
       (fun e => logger_call (logger self) "error" ;; raise e)).

(** [EventSubscriber.subscribe_events].  The consumer it hands to
    [queue.consume] is [self._consume_message(callback)], a call of an
    [async def] that is not awaited: a coroutine object, not [on_message]. *)
Definition subscribe_events (self : EventSubscriber) (queue_name : string)
  : M unit :=
  try_except
    (chan (DeclareQueue
             {| q_name := queue_name; q_durable := true; q_auto_delete := false;
                q_arguments :=
                  <[ "x-message-ttl" := HInt (message_ttl self) ]>
                  (<[ "x-dead-letter-exchange" := HStr (dead_letter_exchange self) ]>
                  {[ "x-max-length" := HInt (max_message_count self) ]}) |}) ;;
     chan (Bind queue_name (exchange_name self)) ;;
     chan (Consume queue_name CoroutineObject false))
    (except_aio_pika "AMQPError" is_AMQPError
       (fun e => logger_call (logger self) "error" ;; raise e)).

(** [EventSubscriber._deserialize_and_validate_message] *)
Definition _deserialize_and_validate_message (message : Message) : M payload :=
  try_except
    (match json_loads (body message) with
     | Raise e => raise e
     | Ok message_data =>
         match validate_message_schema message_data with
         | Some e => raise e
         | None => ret message_data
         end
     end)
    (fun e => if is_ValueError e then raise ValueError else raise e).

(** [2 ** n] as Python computes it.  For [n >= 0] it is the integer power.
    For [n < 0] both numbers are converted to [float] and the result is a
    float: the conversion of [n] raises [OverflowError] when [n] rounds to
    an infinity, which happens from [2 ** 1024 - 2 ** 970] on in absolute
    value; the power is exact down to [2 ** -1074], the least positive
    float, and is [0.0] below. *)
Definition float_limit : Z := 2 ^ 1024 - 2 ^ 970.

Definition pow2 (n : Z) : result Q :=
  if (0 <=? n)%Z then Ok (Qpower (2 # 1) n)
  else if (n <=? - float_limit)%Z then Raise OverflowError
  else if (n <? -1074)%Z then Ok (0 # 1)
  else Ok (Qpower (2 # 1) n).

(** [EventSubscriber._handle_failed_message].  [retries < self.max_retries]
    raises [TypeError] when the header is not a number. *)
Definition _handle_failed_message (self : EventSubscriber) (message : Message)
    (request_id : hval) : M unit :=
  match default (HInt 0) (headers_or_empty (headers message) !! "x-retries") with
  | HInt retries =>
      if (retries <? max_retries self)%Z then
        let retries := (retries + 1)%Z in
        seconds ← ([], pow2 retries) ;
        emit (EvSleep seconds) ;;
        logger_call (logger self) "warning" ;;
        chan (Publish (retry_exchange self) (Some "retry_queue")
                {| body := body message;
                   headers := Some (<[ "x-retries" := HInt retries ]>
                                    {[ "request_id" := request_id ]}) |})
      else
        logger_call (logger self) "warn" ;;
        chan (Publish (dead_letter_exchange self) None
                {| body := body message;
                   headers := Some {[ "request_id" := request_id ]} |})
  | _ => raise TypeError
  end.

(** The first statement of [on_message]: the request id.  Evaluating it
    cannot raise, so it is bound before the handlers that read it. *)
Definition get_request_id (message : Message) : M hval :=
  if headers_truthy (headers message)
  then ret (default HNone (default ∅ (headers message) !! "request_id"))
  else emit EvUuid ;; ret (HStr uuid4).

Definition call_callback (message_data : payload) (request_id : hval)
  : M unit :=
  emit (EvCallback message_data request_id) ;;
  match callback message_data request_id with
  | None => ret tt
  | Some e => raise e
  end.

(** The body of [on_message] inside [message.process()].  The two handlers
    ([except ValueError] and [except Exception]) run the same statements. *)
Definition on_message (self : EventSubscriber) (message : Message) : M unit :=
  request_id ← get_request_id message;
  try_except
    (logger_call (logger self) "log" ;;
     message_data ← _deserialize_and_validate_message message;
     call_callback message_data request_id)
    (fun e =>
       if is_ValueError e
       then logger_call (logger self) "error" ;;
            _handle_failed_message self message request_id
       else logger_call (logger self) "error" ;;
            _handle_failed_message self message request_id).

(** [async with message.process(): ...] *)
Definition process (m : M unit) : list event * disposition :=
  (trace_of m, if is_ok (outcome_of m) then Acked else Rejected).

(** A delivery handled by [on_message], the consumer that an awaited
    [_consume_message] gives. *)
Definition deliver (self : EventSubscriber) (message : Message)
  : list event * disposition :=
  process (on_message self message).

(** What a delivery to a registered consumer runs, and what the subscriber
    makes of the delivery.  The function [on_message] is called and runs,
    inside [message.process()].  A coroutine object cannot be called (the
    attempt is a [TypeError] in the library): no statement of the subscriber
    runs, [message.process()] is not entered, and the subscriber neither
    acknowledges nor rejects the delivery. *)
Definition consume (c : consumer) (self : EventSubscriber) (message : Message)
  : list event * option disposition :=
  match c with
  | OnMessage => let d := deliver self message in (d.1, Some d.2)
  | CoroutineObject => ([], None)
  end.

End Subscriber.

(** ** Observations on traces *)

Definition is_callback (ev : event) : bool :=
  match ev with EvCallback _ _ => true | _ => false end.

(** How many times the application callback was invoked. *)
Definition callback_count (t : list event) : nat :=
  length (filter (fun ev => is_callback ev = true) t).

(** The durations slept, in order. *)
Fixpoint sleeps (t : list event) : list Q :=
  match t with
  | [] => []
  | EvSleep d :: t => d :: sleeps t
  | _ :: t => sleeps t
  end.

(** The envelopes published, with their exchange and routing key, in order. *)
Fixpoint published (t : list event)
  : list (string * option string * Message) :=
  match t with
  | [] => []
  | EvBroker (Publish ex rk m) :: t => (ex, rk, m) :: published t
  | _ :: t => published t
  end.

(** The envelopes published to one exchange. *)
Definition published_to (exchange : string) (t : list event) : list Message :=
  map snd (filter (fun p => p.1.1 = exchange) (published t)).

(** The consumers handed to [queue.consume], in order. *)
Fixpoint registered (t : list event) : list consumer :=
  match t with
  | [] => []
  | EvBroker (Consume _ c _) :: t => c :: registered t
  | _ :: t => registered t
  end.

(** The retry count the failure handler reads from a delivery. *)
Definition read_retries (message : Message) : hval :=
  default (HInt 0) (headers_or_empty (headers message) !! "x-retries").

(** A body is valid when it parses and the parsed document passes the
    schema validation. *)
Definition valid_body (json_loads : list Byte.byte -> result payload)
    (validate_message_schema : payload -> option exn) (message : Message) : Prop :=
  exists d, json_loads (body message) = Ok d /\ validate_message_schema d = None.

(** The envelope the retry branch of the failure handler builds for a
    delivery, with retry count [retries]. *)
Definition retry_envelope (message : Message) (request_id : hval) (retries : Z)
  : Message :=
  {| body := body message;
     headers := Some (<[ "x-retries" := HInt retries ]>
                      {[ "request_id" := request_id ]}) |}.

(** The delays of one message that fails at every delivery, over at most
    [fuel] deliveries: the failure handler runs on the delivery, and when it
    returns, the first envelope it published to the retry exchange, if any,
    is the next delivery, with the request id read back from it; when it
    raises, or publishes nothing there, no delivery follows. *)
Fixpoint retry_delays (fuel : nat) (broker : broker_op -> option exn)
    (self : EventSubscriber) (message : Message) (request_id : hval) : list Q :=
  match fuel with
  | O => []
  | S fuel =>
      let m := _handle_failed_message broker self message request_id in
      sleeps (trace_of m)
      ++ match outcome_of m, published_to (retry_exchange self) (trace_of m) with
         | Ok _, next :: _ =>
             retry_delays fuel broker self next
               (default HNone (default ∅ (headers next) !! "request_id"))
         | _, _ => []
         end
  end.

(** The envelope the dead-letter branch builds. *)
Definition dead_letter_envelope (message : Message) (request_id : hval) : Message :=
  {| body := body message; headers := Some {[ "request_id" := request_id ]} |}.

(** A published envelope keeps the delivered one but for the request id:
    same body, and the same value, or absence, under every other header. *)
Definition keeps_headers (delivered sent : Message) : Prop :=
  body sent = body delivered
  /\ forall k, k <> "request_id" ->
       default ∅ (headers sent) !! k = default ∅ (headers delivered) !! k.

(** Every envelope the failure handler publishes to the dead-letter exchange
    keeps the headers of the delivery. *)
Definition dead_letter_keeps_headers (broker : broker_op -> option exn)
    (self : EventSubscriber) : Prop :=
  forall message request_id sent,
    sent ∈ published_to (dead_letter_exchange self)
             (trace_of (_handle_failed_message broker self message request_id)) ->
    keeps_headers message sent.

(** An event agrees with the request id [rid]: no id is generated, the
    callback receives [rid], and a published envelope carries [rid] under
    ["request_id"]. *)
Definition carries_request_id (rid : hval) (ev : event) : Prop :=
  match ev with
  | EvUuid => False
  | EvCallback _ r => r = rid
  | EvBroker (Publish _ _ m) =>
      exists h, headers m = Some h /\ h !! "request_id" = Some rid
  | _ => True
  end.

(** ** Concrete services and deliveries, for examples *)

(** A parser that rejects every body, one that reads every body as [null],
    and services that accept everything. *)
Definition no_json (_ : list Byte.byte) : result payload := Raise JSONDecodeError.
Definition null_json (_ : list Byte.byte) : result payload := Ok JNull.
Definition any_schema (_ : payload) : option exn := None.
Definition quiet_callback (_ : payload) (_ : hval) : option exn := None.
Definition accepting_broker (_ : broker_op) : option exn := None.

(** The names the released [aio_pika] package has at its top level (its
    [__all__]); the exception classes [AMQPError] and [AMQPConnectionError]
    are in [aio_pika.exceptions] only. *)
Definition aio_pika_exports (name : string) : bool :=
  bool_decide (name ∈ ["AMQPException"; "Channel"; "Connection"; "DeliveryMode";
                       "Exchange"; "ExchangeType"; "IncomingMessage"; "Message";
                       "MessageProcessError"; "Queue"; "RobustChannel";
                       "RobustConnection"; "RobustExchange"; "RobustQueue";
                       "connect"; "connect_robust"; "logger"; "patterns";
                       "pool"]).

(** A first delivery, without headers. *)
Definition first_delivery : Message := {| body := []; headers := None |}.

(** A delivery that exhausted its retries. *)
Definition exhausted_delivery : Message :=
  {| body := [];
     headers := Some (<[ "x-retries" := HInt 5 ]> {[ "request_id" := HStr "r-1" ]}) |}.

(** A delivery with headers but no request id. *)
Definition anonymous_delivery : Message :=
  {| body := []; headers := Some {[ "x-retries" := HInt 5 ]} |}.

End Consumer.

(** * The room broadcaster ([managers/auctions.py], [managers/redis_pubsub.py]) *)

Module Auctions.

(** What the services outside the two classes do during one call of
    [connect] or [disconnect]: for each of the awaits on them, [None] when
    it returns and the exception it raises otherwise.  [accept] is the
    handshake [websocket.accept()] on a websocket that was not accepted
    before; [from_url] is [aioredis.Redis.from_url], which builds the client
    in [RedisPubSubManager.connect]; [subscribe] and [unsubscribe] are the
    two commands on the [PubSub] object, the first of them being the first
    exchange with the Redis server. *)
Record outcomes : Type := mkOutcomes {
  accept : option exn;
  from_url : option exn;
  subscribe : option exn;
  unsubscribe : option exn
}.

(** Every service returns. *)
Definition all_return : outcomes :=
  {| accept := None; from_url := None; subscribe := None; unsubscribe := None |}.

(** A listener task started with [asyncio.create_task]: the [PubSub] object
    it polls, and its state: [None] while it is in its loop, the exception
    that ended it otherwise. *)
Record task : Type := mkTask {
  polled : nat;
  ended : option exn
}.

(** A websocket is known by its identity (Starlette connections compare by
    identity); a room by its auction id, which is also the channel name.

    [active_connections] is the registry of the manager.  [accepted] are the
    websockets whose handshake was accepted: [accept()] on one of them
    raises [RuntimeError].  [pubsub_objects] is the store of every [PubSub]
    object created so far, each with the set of channels it is subscribed
    to; an object is named by its index.  [pubsub] is
    [RedisPubSubManager.pubsub]: absent before the first [connect()], then
    the index of the current object.  [tasks] are the listener tasks, in the
    order of their creation.  No statement of the class cancels or removes a
    task. *)
Record manager : Type := mkManager {
  active_connections : gmap string (list nat);
  accepted : gset nat;
  pubsub_objects : list (gset string);
  pubsub : option nat;
  tasks : list task
}.

(** [ConnectionManager.__init__] with a fresh [RedisPubSubManager]. *)
Definition init : manager :=
  {| active_connections := ∅; accepted := ∅; pubsub_objects := [];
     pubsub := None; tasks := [] |}.

Definition set_connections (c : gmap string (list nat)) (st : manager) : manager :=
  {| active_connections := c; accepted := accepted st;
     pubsub_objects := pubsub_objects st;
     pubsub := pubsub st; tasks := tasks st |}.

Definition set_tasks (t : list task) (st : manager) : manager :=
  {| active_connections := active_connections st; accepted := accepted st;
     pubsub_objects := pubsub_objects st;
     pubsub := pubsub st; tasks := t |}.

(** [websocket.accept()]: a websocket that was accepted before raises
    [RuntimeError]; otherwise the handshake is tried. *)
Definition websocket_accept (env : outcomes) (websocket : nat) (st : manager)
  : result unit * manager :=
  if bool_decide (websocket ∈ accepted st) then (Raise RuntimeError, st)
  else
    match accept env with
    | Some e => (Raise e, st)
    | None =>
        (Ok tt,
         {| active_connections := active_connections st;
            accepted := {[websocket]} ∪ accepted st;
            pubsub_objects := pubsub_objects st;
            pubsub := pubsub st; tasks := tasks st |})
    end.

(** [RedisPubSubManager.connect]: a new Redis client and a new [PubSub]
    object replace the current ones; nothing is assigned when the client
    cannot be built. *)
Definition pubsub_connect (env : outcomes) (st : manager) : result unit * manager :=
  match from_url env with
  | Some e => (Raise e, st)
  | None =>
      (Ok tt,
       {| active_connections := active_connections st; accepted := accepted st;
          pubsub_objects := pubsub_objects st ++ [∅];
          pubsub := Some (length (pubsub_objects st));
          tasks := tasks st |})
  end.

(** [RedisPubSubManager.subscribe]: subscribes the current object and
    returns it.  [self.pubsub] being [None] raises [AttributeError]; a
    command that raises leaves the object as it was. *)
Definition pubsub_subscribe (env : outcomes) (room_id : string) (st : manager)
  : result nat * manager :=
  match pubsub st with
  | None => (Raise AttributeError, st)
  | Some p =>
      match subscribe env with
      | Some e => (Raise e, st)
      | None =>
          (Ok p,
           {| active_connections := active_connections st;
              accepted := accepted st;
              pubsub_objects :=
                alter (fun chs => chs ∪ {[room_id]}) p (pubsub_objects st);
              pubsub := pubsub st; tasks := tasks st |})
      end
  end.

(** [RedisPubSubManager.unsubscribe], on the current object. *)
Definition pubsub_unsubscribe (env : outcomes) (room_id : string) (st : manager)
  : result unit * manager :=
  match pubsub st with
  | None => (Raise AttributeError, st)
  | Some p =>
      match unsubscribe env with
      | Some e => (Raise e, st)
      | None =>
          (Ok tt,
           {| active_connections := active_connections st;
              accepted := accepted st;
              pubsub_objects :=
                alter (fun chs => chs ∖ {[room_id]}) p (pubsub_objects st);
              pubsub := pubsub st; tasks := tasks st |})
      end
  end.

(** [asyncio.create_task(self._pubsub_data_reader(pubsub_subscriber))] *)
Definition create_task (pubsub_subscriber : nat) (st : manager) : manager :=
  set_tasks (tasks st ++ [{| polled := pubsub_subscriber; ended := None |}]) st.

(** Python truthiness of [connections.get(auction_id)]: a missing key and an
    empty list are falsy. *)
Definition truthy (o : option (list nat)) : bool :=
  match o with
  | Some (_ :: _) => true
  | _ => false
  end.

(** [ConnectionManager.connect].  The record of a new room is written before
    the two calls on Redis, and an exception of theirs leaves it written. *)
Definition connect (env : outcomes) (websocket : nat) (auction_id : string)
    (st : manager) : result unit * manager :=
  match websocket_accept env websocket st with
  | (Raise e, st) => (Raise e, st)
  | (Ok _, st) =>
      let connections := active_connections st in
      if truthy (connections !! auction_id) then
        (Ok tt,
         set_connections
           (alter (fun l => l ++ [websocket]) auction_id connections) st)
      else
        let st := set_connections (<[auction_id := [websocket]]> connections) st in
        match pubsub_connect env st with
        | (Raise e, st) => (Raise e, st)
        | (Ok _, st) =>
            match pubsub_subscribe env auction_id st with
            | (Ok pubsub_subscriber, st) => (Ok tt, create_task pubsub_subscriber st)
            | (Raise e, st) => (Raise e, st)
            end
        end
  end.

(** [list.remove(x)]: the list without the first occurrence of [x], or
    [None] when [x] does not occur ([ValueError]). *)
Fixpoint list_remove (x : nat) (l : list nat) : option (list nat) :=
  match l with
  | [] => None
  | y :: l => if bool_decide (x = y) then Some l else cons y <$> list_remove x l
  end.

(** [ConnectionManager.disconnect].  Indexing a missing room raises
    [KeyError]; [list.remove] of an absent element raises [ValueError];
    otherwise the first occurrence is removed.  The record of a room left
    empty is deleted before the call on Redis, and an exception of that call
    leaves it deleted. *)
Definition disconnect (env : outcomes) (websocket : nat) (auction_id : string)
    (st : manager) : result unit * manager :=
  match active_connections st !! auction_id with
  | None => (Raise KeyError, st)
  | Some l =>
      match list_remove websocket l with
      | None => (Raise ValueError, st)
      | Some l' =>
          if bool_decide (length l' = 0%nat) then
            pubsub_unsubscribe env auction_id
              (set_connections (delete auction_id (active_connections st)) st)
          else
            (Ok tt, set_connections (<[auction_id := l']> (active_connections st)) st)
      end
  end.

(** [ConnectionManager.has_active_connection] *)
Definition has_active_connection (auction_id : string) (st : manager) : bool :=
  bool_decide (auction_id ∈ dom (active_connections st))
  && truthy (active_connections st !! auction_id).

(** *** The listener *)

Section Listener.

(** [socket.send_text(data)]: [None] when the frame is sent, the exception
    raised otherwise. *)
Variable send_text : nat -> string -> option exn.

(** The [for socket in all_sockets] loop: the frames sent, in order, and how
    the loop ended. *)
Fixpoint fan_out (all_sockets : list nat) (data : string)
  : list (nat * string) * result unit :=
  match all_sockets with
  | [] => ([], Ok tt)
  | socket :: rest =>
      match send_text socket data with
      | Some e => ([], Raise e)
      | None => let '(sent, r) := fan_out rest data in ((socket, data) :: sent, r)
      end
  end.

(** [ConnectionManager._pubsub_data_reader] over the successive results of
    [get_message]: [None] when nothing is pending, or a message with its
    channel and data.  The result is the frames sent and the state of the
    task: [None] while it is still in its loop, the exception that ended it
    otherwise. *)
Fixpoint _pubsub_data_reader (connections : gmap string (list nat))
    (polls : list (option (string * string)))
  : list (nat * string) * option exn :=
  match polls with
  | [] => ([], None)
  | None :: polls => _pubsub_data_reader connections polls
  | Some (auction_id, data) :: polls =>
      match connections !! auction_id with
      | None => ([], Some KeyError)
      | Some all_sockets =>
          match fan_out all_sockets data with
          | (sent, Raise e) => (sent, Some e)
          | (sent, Ok _) =>
              let '(sent', r) := _pubsub_data_reader connections polls in
              (sent ++ sent', r)
          end
      end
  end.

End Listener.

(** *** Runs of the manager *)

(** The channels a [PubSub] object is subscribed to. *)
Definition channels_of (st : manager) (p : nat) : gset string :=
  default ∅ (pubsub_objects st !! p).

(** [pubsub_subscriber.get_message(...)] on the object [p], when [pending]
    is what was published last, if anything: Redis hands an object the
    messages of the channels it is subscribed to, and no others. *)
Definition get_message (st : manager) (p : nat) (pending : option (string * string))
  : option (string * string) :=
  match pending with
  | Some (channel, data) =>
      if bool_decide (channel ∈ channels_of st p) then Some (channel, data)
      else None
  | None => None
  end.

(** One turn of the loop of the listener task number [i]: the frames it
    sends, the exception that ends it in this turn, if any, and the state
    after.  A task that has ended does nothing. *)
Definition poll (send_text : nat -> string -> option exn) (i : nat)
    (pending : option (string * string)) (st : manager)
  : list (nat * string) * option exn * manager :=
  match tasks st !! i with
  | Some {| polled := p; ended := None |} =>
      let '(sent, r) :=
        _pubsub_data_reader send_text (active_connections st)
          [get_message st p pending] in
      (sent, r,
       match r with
       | None => st
       | Some e => set_tasks (<[i := {| polled := p; ended := Some e |}]> (tasks st)) st
       end)
  | _ => ([], None, st)
  end.

(** What happens to a manager: calls of [connect] and [disconnect], each
    with what the services do during it, and turns of the listener tasks. *)
Inductive call : Type :=
| Connect (env : outcomes) (websocket : nat) (auction_id : string)
| Disconnect (env : outcomes) (websocket : nat) (auction_id : string)
| Poll (send_text : nat -> string -> option exn) (i : nat)
       (pending : option (string * string)).

Definition step (c : call) (st : manager) : manager :=
  match c with
  | Connect env w a => (connect env w a st).2
  | Disconnect env w a => (disconnect env w a st).2
  | Poll send_text i pending => (poll send_text i pending st).2
  end.

(** The state after a sequence of calls; a call that raises leaves the state
    it reached and the next call proceeds. *)
Fixpoint run (calls : list call) (st : manager) : manager :=
  match calls with
  | [] => st
  | c :: calls => run calls (step c st)
  end.

Definition is_none {A} (o : option A) : bool :=
  match o with None => true | Some _ => false end.

(** No call on Redis raises. *)
Definition redis_returns (env : outcomes) : bool :=
  is_none (from_url env) && is_none (subscribe env) && is_none (unsubscribe env).

(** A call is smooth when no call it makes on Redis raises and the listener
    task it wakes stays in its loop; a run is smooth when each of its calls
    is, in the state it is made in. *)
Definition smooth (c : call) (st : manager) : bool :=
  match c with
  | Connect env _ _ => redis_returns env
  | Disconnect env _ _ => redis_returns env
  | Poll send_text i pending => is_none (poll send_text i pending st).1.2
  end.

Fixpoint smooth_run (calls : list call) (st : manager) : bool :=
  match calls with
  | [] => true
  | c :: calls => smooth c st && smooth_run calls (step c st)
  end.

(** Some [PubSub] object is subscribed to the room's channel. *)
Definition subscribed (auction_id : string) (st : manager) : bool :=
  bool_decide (Exists (fun chs => auction_id ∈ chs) (pubsub_objects st)).

(** A task is running while no exception has ended it. *)
Definition running (t : task) : bool := is_none (ended t).

(** The listener tasks of a room: the running tasks that poll an object
    subscribed to the room's channel. *)
Definition listeners (auction_id : string) (st : manager) : list task :=
  filter (fun t => running t = true /\ auction_id ∈ channels_of st (polled t))
    (tasks st).

(** *** The properties of rooms, as predicates on the model *)

(** Send failures are isolated: the listener survives a message, and every
    registered connection whose own send succeeds receives it. *)
Definition isolates_send_failures (send_text : nat -> string -> option exn)
    (connections : gmap string (list nat)) : Prop :=
  forall auction_id data all_sockets,
    connections !! auction_id = Some all_sockets ->
    let r := _pubsub_data_reader send_text connections [Some (auction_id, data)] in
    r.2 = None
    /\ forall socket, socket ∈ all_sockets -> send_text socket data = None ->
         (socket, data) ∈ r.1.

(** A room is served when some object is subscribed to its channel and it
    has exactly one listener task. *)
Definition served (auction_id : string) (st : manager) : Prop :=
  subscribed auction_id st = true /\ length (listeners auction_id st) = 1%nat.

(** The life cycle of rooms: in every state reached by [connect] and
    [disconnect] calls a room is served exactly when it has a connection,
    and disconnecting the last connection of a room removes its record, its
    subscription and its listener tasks: none of them is among the tasks
    any more. *)
Definition room_lifecycle : Prop :=
  forall calls,
    let st := run calls init in
    (forall auction_id,
       served auction_id st <-> has_active_connection auction_id st = true)
    /\ (forall env websocket auction_id,
          active_connections st !! auction_id = Some [websocket] ->
          let st' := (disconnect env websocket auction_id st).2 in
          active_connections st' !! auction_id = None
          /\ subscribed auction_id st' = false
          /\ forall t, t ∈ listeners auction_id st -> t ∉ tasks st').

(** What holds of the registry in every state the calls reach: no room
    record is empty. *)
Definition registry_ok (st : manager) : Prop :=
  forall auction_id l, active_connections st !! auction_id = Some l -> l <> [].

(** The current object, when there is one, is the last one created. *)
Definition current_is_last (st : manager) : Prop :=
  forall q, pubsub st = Some q -> S q = length (pubsub_objects st).


(** What holds besides in the states smooth runs reach: every room with a
    record has a running listener task that polls an object subscribed to
    its channel; a current object exists once a room does; and every object
    has its task, all of them running. *)
Definition rooms_ok (st : manager) : Prop :=
  (forall auction_id,
     is_Some (active_connections st !! auction_id) ->
     exists t, t ∈ listeners auction_id st)
  /\ (pubsub st = None -> active_connections st = ∅)
  /\ polled <$> tasks st = seq 0 (length (pubsub_objects st))
  /\ Forall (fun t => running t = true) (tasks st).

(** A transport on which only connection 2 fails. *)
Definition second_fails (socket : nat) (_ : string) : option exn :=
  if bool_decide (socket = 2%nat) then Some RuntimeError else None.

(** A transport on which connection 1 fails. *)
Definition first_fails (socket : nat) (_ : string) : option exn :=
  if bool_decide (socket = 1%nat) then Some RuntimeError else None.

(** Redis refuses the subscription. *)
Definition subscribe_fails : outcomes :=
  {| accept := None; from_url := None; subscribe := Some RuntimeError;
     unsubscribe := None |}.

End Auctions.

(** * The calls of [connect] and [subscribe_events], in order *)

Module ConsumerCalls.
Import Consumer.

(** The channel calls [EventSubscriber.connect] makes when none fails. *)
Definition connect_calls (self : EventSubscriber) : list broker_op :=
  [OpenChannel;
   DeclareExchange (exchange_name self) "fanout";
   DeclareExchange (dead_letter_exchange self) "fanout";
   DeclareExchange (retry_exchange self) "direct";
   DeclareQueue {| q_name := "dead_letter_queue"; q_durable := true;
                   q_auto_delete := false;
                   q_arguments := {[ "x-message-ttl" := HInt (message_ttl self) ]} |};
   Bind "dead_letter_queue" (dead_letter_exchange self)].

(** The channel calls [EventSubscriber.subscribe_events] makes when none
    fails. *)
Definition subscribe_calls (self : EventSubscriber) (queue_name : string)
  : list broker_op :=
  [DeclareQueue
     {| q_name := queue_name; q_durable := true; q_auto_delete := false;
        q_arguments :=
          <[ "x-message-ttl" := HInt (message_ttl self) ]>
          (<[ "x-dead-letter-exchange" := HStr (dead_letter_exchange self) ]>
           {[ "x-max-length" := HInt (max_message_count self) ]}) |};
   Bind queue_name (exchange_name self);
   Consume queue_name CoroutineObject false].

(** Channel calls made one after the other, up to the first that raises. *)
Fixpoint chan_all (broker : broker_op -> option exn) (ops : list broker_op) : M unit :=
  match ops with
  | [] => ret tt
  | op :: ops => chan broker op ;; chan_all broker ops
  end.

(** A broker that refuses every binding. *)
Definition refusing_bind (op : broker_op) : option exn :=
  match op with
  | Bind _ _ => Some AMQPError
  | _ => None
  end.

(** A broker that cannot be reached. *)
Definition unreachable_broker (op : broker_op) : option exn :=
  match op with
  | OpenChannel => Some AMQPConnectionError
  | _ => None
  end.

(** A logger object that has a [warning] method beside those of
    [AuditLogger]. *)
Definition warning_logger : logger_object := "warning" :: AuditLogger.

(** A delivery whose retry count is not a number. *)
Definition malformed_delivery : Message :=
  {| body := []; headers := Some {[ "x-retries" := HStr "3" ]} |}.

End ConsumerCalls.

(** * Closing the subscriber ([consumer.py], [EventSubscriber.close]) *)

Module ConsumerClose.
Import Consumer.

(** The two calls [close] makes, and the logger calls around them. *)
Inductive close_event : Type :=
| CloseChannel                             (* self.channel.close() *)
| CloseConnection                          (* self.connection.close() *)
| CloseLog (method : string).              (* a logger method that ran *)

Definition C (A : Type) : Type := (list close_event * result A)%type.

Definition close_bind {A B} (m : C A) (k : A -> C B) : C B :=
  match m with
  | (t, Ok a) => let '(t', r) := k a in (t ++ t', r)
  | (t, Raise e) => (t, Raise e)
  end.

#[global] Instance C_bind : MBind C := fun A B k m => close_bind m k.

Definition close_logger_call (lg : logger_object) (method : string) : C unit :=
  if bool_decide (method ∈ lg) then ([CloseLog method], Ok tt)
  else ([], Raise AttributeError).

Section Close.

(** [self.channel] and [self.connection] are [None] until [connect] has
    set them. *)
Variable connected : bool.

(** The outcome of [channel.close()] and of [connection.close()]: [None]
    when the call returns, the exception it raises otherwise. *)
Variable channel_close : option exn.
Variable connection_close : option exn.

Definition call_close (ev : close_event) (outcome : option exn) : C unit :=
  ([ev], match outcome with None => Ok tt | Some e => Raise e end).

(** [EventSubscriber.close].  On a subscriber that never connected
    [self.channel.close] raises [AttributeError] at the attribute lookup. *)
Definition close (self : EventSubscriber) : C unit :=
  let body : C unit :=
    (if connected then call_close CloseChannel channel_close
     else ([], Raise AttributeError)) ;;
    call_close CloseConnection connection_close ;;
    close_logger_call (logger self) "log" in
  match body with
  | (t, Ok a) => (t, Ok a)
  | (t, Raise e) =>
      let '(t', r) := close_logger_call (logger self) "error" ;;
                      (([], Raise e) : C unit) in
      (t ++ t', r)
  end.

End Close.

End ConsumerClose.

(** * Publishing to a room ([managers/auctions.py], [ConnectionManager.broadcast]) *)

Module Broadcast.
Import Auctions.

(** [RedisPubSubManager._publish]: [self.redis_connection.publish(room_id,
    message)].  [redis_connection] is assigned in [connect()] together with
    [pubsub], so it is [None] exactly when [pubsub] is; publishing on [None]
    raises [AttributeError].  The result is the channel and text handed to
    Redis. *)
Definition _publish (room_id message : string) (st : manager)
  : result (string * string) :=
  match pubsub st with
  | None => Raise AttributeError
  | Some _ => Ok (room_id, message)
  end.

(** [ConnectionManager.broadcast] *)
Definition broadcast (room_id message : string) (st : manager)
  : result (string * string) :=
  _publish room_id message st.

(** One after the other, each of the websockets joins the room and leaves
    it, every service returning. *)
Definition join_leave (websockets : list nat) (auction_id : string) : list call :=
  flat_map (fun websocket => [Connect all_return websocket auction_id;
                              Disconnect all_return websocket auction_id])
    websockets.

(** A transport on which every send succeeds. *)
Definition reliable (_ : nat) (_ : string) : option exn := None.

(** The frames one result of [get_message] calls for: the data of the
    message, once for each connection of its room, in the order of the
    list. *)
Definition frames_of (connections : gmap string (list nat))
    (poll : option (string * string)) : list (nat * string) :=
  match poll with
  | Some (auction_id, data) =>
      (fun socket => (socket, data)) <$> default [] (connections !! auction_id)
  | None => []
  end.

Definition is_connect (c : call) : bool :=
  match c with
  | Connect _ _ _ => true
  | _ => false
  end.

(** A call builds the Redis client: a [connect] whose handshake is accepted,
    to a room without connections, while [from_url] returns. *)
Definition opens_redis (c : call) (st : manager) : bool :=
  match c with
  | Connect env websocket auction_id =>
      bool_decide (websocket ∉ accepted st) && is_none (accept env)
      && negb (truthy (active_connections st !! auction_id))
      && is_none (from_url env)
  | _ => false
  end.

(** Some call of the run built the Redis client. *)
Fixpoint redis_opened (calls : list call) (st : manager) : bool :=
  match calls with
  | [] => false
  | c :: calls => opens_redis c st || redis_opened calls (step c st)
  end.

(** An object is stale when it is not the current one any more. *)
Definition stale (p : nat) (st : manager) : Prop :=
  exists q, pubsub st = Some q /\ (p < q)%nat.

End Broadcast.

(** * The loggers ([services/loggers]) *)

Module Loggers.

(** What the loggers do to the outside: a call of a function of the
    standard [logging] module with its text, the standard error report of a
    failed sink, a [print], and a [log_text] on the cloud logger. *)
Inductive log_event : Type :=
| Logging (level : string) (text : string)
| LoggingFailure (prefix : string) (e : exn)
| Print (text : string)
| CloudLogText (text : string) (severity : string).

Definition L (A : Type) : Type := (list log_event * result A)%type.

(** Python truthiness of an optional string: [None] and [""] are falsy. *)
Definition str_truthy (o : option string) : bool :=
  match o with
  | Some s => negb (bool_decide (s = ""))
  | None => false
  end.

(** A value of [log_data]. *)
Inductive log_value : Type :=
| LStr (s : string)
| LDict (fields : list (string * string)).

(** Python truthiness of the optional metadata dictionary. *)
Definition dict_truthy (o : option (list (string * string))) : bool :=
  match o with
  | Some (_ :: _) => true
  | _ => false
  end.

(** [ConsoleLogger._send_log]: the function of [logging] chosen by the
    severity, then [print]. *)
Definition console_level (severity : string) : string :=
  if bool_decide (severity = "ERROR") then "error"
  else if bool_decide (severity = "WARNING") then "warning"
  else if bool_decide (severity = "DEBUG") then "debug"
  else if bool_decide (severity = "CRITICAL") then "critical"
  else "info".

Definition console_send_log (message severity : string) : L unit :=
  ([Logging (console_level severity) message; Print message], Ok tt).

(** [CloudLogger._send_log]; [log_text] is the cloud client's call: [None]
    when it returns, the exception it raises otherwise. *)
Definition cloud_send_log (log_text : string -> string -> option exn)
    (message severity : string) : L unit :=
  match log_text message severity with
  | None => ([CloudLogText message severity], Ok tt)
  | Some e =>
      ([CloudLogText message severity;
        LoggingFailure "Failed to send log to Cloud Logging: " e], Ok tt)
  end.

Section BaseLogger.

(** [self.logger_name] and the abstract [_send_log] of the subclass. *)
Variable logger_name : string.
Variable _send_log : string -> string -> L unit.

(** The text of [str(log_data)], Python's [repr] of the dictionary. *)
Variable repr : list (string * log_value) -> string.

(** [BaseLogger._log_text] *)
Definition _log_text (message severity : string) (trace_id : option string) : L unit :=
  let formatted_message :=
    (severity ++ ": [" ++ logger_name ++ "] " ++ message)%string in
  let formatted_message :=
    if str_truthy trace_id
    then (formatted_message ++ " | trace_id=" ++ default "" trace_id)%string
    else formatted_message in
  match _send_log formatted_message severity with
  | (t, Ok _) => (t, Ok tt)
  | (t, Raise e) => (t ++ [LoggingFailure "Failed to send log: " e], Ok tt)
  end.

(** [BaseLogger.log] *)
Definition log (action : string) (user_id : option string)
    (metadata : option (list (string * string))) (severity : string)
    (trace_id : option string) : L unit :=
  let log_data := [("action", LStr action)] in
  let log_data :=
    if str_truthy user_id
    then log_data ++ [("user_id", LStr (default "" user_id))] else log_data in
  let log_data :=
    if dict_truthy metadata
    then log_data ++ [("metadata", LDict (default [] metadata))] else log_data in
  _log_text (repr log_data) severity trace_id.

(** [BaseLogger.warn], [error], [debug] and [critical] *)
Definition warn (message : string) (trace_id : option string) : L unit :=
  _log_text ("WARNING: " ++ message)%string "WARNING" trace_id.

Definition error (message : string) (trace_id : option string) : L unit :=
  _log_text ("ERROR: " ++ message)%string "ERROR" trace_id.

Definition debug (message : string) (trace_id : option string) : L unit :=
  _log_text ("DEBUG: " ++ message)%string "DEBUG" trace_id.

Definition critical (message : string) (trace_id : option string) : L unit :=
  _log_text ("CRITICAL: " ++ message)%string "CRITICAL" trace_id.

End BaseLogger.

(** ** AuditLogger *)

Section AuditLogger.

(** [AuditLogger] holds a [BaseLogger], here by its name, its sink and the
    [repr] of dictionaries, and passes every call on with the same
    arguments. *)
Variable logger_name : string.
Variable _send_log : string -> string -> L unit.
Variable repr : list (string * log_value) -> string.

Definition AuditLogger_log (action : string) (user_id : option string)
    (metadata : option (list (string * string))) (severity : string)
    (trace_id : option string) : L unit :=
  log logger_name _send_log repr action user_id metadata severity trace_id.

Definition AuditLogger_warn (message : string) (trace_id : option string) : L unit :=
  warn logger_name _send_log message trace_id.

Definition AuditLogger_error (message : string) (trace_id : option string) : L unit :=
  error logger_name _send_log message trace_id.

Definition AuditLogger_debug (message : string) (trace_id : option string) : L unit :=
  debug logger_name _send_log message trace_id.

Definition AuditLogger_critical (message : string) (trace_id : option string) : L unit :=
  critical logger_name _send_log message trace_id.

End AuditLogger.

(** [ConsoleLogger.__init__] names the logger ["auction-logs"]. *)
Definition console_name : string := "auction-logs".

(** The fields of [log_data] for a call of [log]. *)
Definition log_fields (action : string) (user_id : option string)
    (metadata : option (list (string * string))) : list (string * log_value) :=
  [("action", LStr action)]
  ++ (if str_truthy user_id then [("user_id", LStr (default "" user_id))] else [])
  ++ (if dict_truthy metadata then [("metadata", LDict (default [] metadata))] else []).

(** The text a level method hands to the sink. *)
Definition level_text (logger_name severity message : string)
    (trace_id : option string) : string :=
  (severity ++ ": [" ++ logger_name ++ "] " ++ severity ++ ": " ++ message
   ++ (if str_truthy trace_id then " | trace_id=" ++ default "" trace_id else ""))%string.

End Loggers.

(** * Request authentication ([auth.py]) *)

Module Auth.
Import Consumer.

(** The exceptions of the authentication code: the two it raises itself,
    the two of [jwt] it catches by name, and any other exception, by the
    name of its class. *)
Inductive auth_exn : Type :=
| HTTPException (status_code : nat) (detail : string)
| WebSocketException (code : nat) (reason : string)
| ExpiredSignatureError
| DecodeError
| OtherException (class : string).

Inductive outcome (A : Type) : Type :=
| Return (a : A)
| Throw (e : auth_exn).
Arguments Return {A} a.
Arguments Throw {A} e.

(** [status.HTTP_401_UNAUTHORIZED], [status.HTTP_403_FORBIDDEN] and
    [status.WS_1008_POLICY_VIOLATION]. *)
Definition HTTP_401_UNAUTHORIZED : nat := 401.
Definition HTTP_403_FORBIDDEN : nat := 403.
Definition WS_1008_POLICY_VIOLATION : nat := 1008.

(** The claims of a token, as [jwt.decode] returns them. *)
Definition claims : Type := gmap string json.

(** [d.get("user_type") == role] for a string [role]. *)
Definition user_type_is (role : string) (d : claims) : bool :=
  match d !! "user_type" with
  | Some (JStr s) => bool_decide (s = role)
  | _ => false
  end.

(** [AdminJWTBearer.__call__] *)
Definition AdminJWTBearer (user_dict : claims) : outcome claims :=
  if negb (user_type_is "Admin" user_dict)
  then Throw (HTTPException HTTP_403_FORBIDDEN
                "Only Admin users are allowed to access.")
  else Return user_dict.

(** [BuyerRoleDependency.__call__] *)
Definition BuyerRoleDependency (user_info : claims) : outcome claims :=
  if user_type_is "Buyer" user_info then Return user_info
  else Throw (HTTPException HTTP_403_FORBIDDEN
                "Only buyers are allowed to access this resource.").

(** [SellerRoleDependency.__call__] *)
Definition SellerRoleDependency (user_info : claims) : outcome claims :=
  if user_type_is "Seller" user_info then Return user_info
  else Throw (HTTPException HTTP_403_FORBIDDEN
                "Only sellers are allowed to access this resource.").

(** [str.partition(" ")]: the text before the first space, the separator
    and the text after it; the whole text and two empty strings when there
    is no space. *)
Fixpoint partition_space (s : string) : string * string * string :=
  match s with
  | EmptyString => ("", "", "")
  | String c rest =>
      if bool_decide (c = Ascii.Space) then ("", " ", rest)
      else let '(before, sep, after) := partition_space rest in
           (String c before, sep, after)
  end.

(** Whether a text contains a space. *)
Fixpoint has_space (s : string) : bool :=
  match s with
  | EmptyString => false
  | String c rest => bool_decide (c = Ascii.Space) || has_space rest
  end.

(** [str.lower] on the letters A to Z; every other character is kept.
    (Python also lowers letters outside ASCII, none of them to a letter of
    ["bearer"].) *)
Definition lower_char (c : Ascii.ascii) : Ascii.ascii :=
  let n := Ascii.nat_of_ascii c in
  if ((65 <=? n) && (n <=? 90))%nat then Ascii.ascii_of_nat (n + 32) else c.

Fixpoint lower (s : string) : string :=
  match s with
  | EmptyString => EmptyString
  | String c rest => String (lower_char c) (lower rest)
  end.

Section Services.

(** [app.utils.auth.get_user]: [None] when it returns, the exception it
    raises otherwise. *)
Variable get_user : string -> option auth_exn.

(** [jwt.decode(token, options={"verify_signature": False})] *)
Variable jwt_decode : string -> outcome claims.

(** [JWTBearer.__call__].  [credentials] is what [HTTPBearer.__call__]
    gave: an exception, [None], or the scheme and the token. *)
Definition JWTBearer (credentials : outcome (option (string * string)))
  : outcome claims :=
  match credentials with
  | Throw e => Throw e
  | Return None =>
      Throw (HTTPException HTTP_403_FORBIDDEN "Invalid authorization code.")
  | Return (Some (scheme, token)) =>
      if negb (bool_decide (scheme = "Bearer"))
      then Throw (HTTPException HTTP_403_FORBIDDEN "Invalid authentication scheme.")
      else
        match get_user token with
        | Some e => Throw e
        | None =>
            match jwt_decode token with
            | Return payload => Return payload
            | Throw ExpiredSignatureError =>
                Throw (HTTPException HTTP_401_UNAUTHORIZED "Token has expired.")
            | Throw DecodeError =>
                Throw (HTTPException HTTP_401_UNAUTHORIZED "Invalid token.")
            | Throw e => Throw e
            end
        end
  end.

(** [WebSocketJWTBearer.__call__].  [auth_header] is
    [websocket.query_params.get("Authorization")]. *)
Definition WebSocketJWTBearer (auth_header : option string) : outcome claims :=
  match auth_header with
  | None =>
      Throw (WebSocketException WS_1008_POLICY_VIOLATION "Auth header is empty")
  | Some auth_header =>
      let '(scheme, _, token) := partition_space auth_header in
      if negb (bool_decide (lower scheme = "bearer")) || bool_decide (token = "")
      then Throw (WebSocketException WS_1008_POLICY_VIOLATION "Incorrect auth type")
      else
        match get_user token with
        | Some _ =>
            Throw (WebSocketException WS_1008_POLICY_VIOLATION
                     "Could not retrieve user information")
        | None =>
            match jwt_decode token with
            | Return payload => Return payload
            | Throw _ =>
                Throw (WebSocketException WS_1008_POLICY_VIOLATION
                         "Could not retrieve user information")
            end
        end
  end.

End Services.

Definition is_return {A} (o : outcome A) : bool :=
  match o with
  | Return _ => true
  | Throw _ => false
  end.

(** Services that know one user and one token. *)
Definition any_user (_ : string) : option auth_exn := None.
Definition buyer_claims : claims := {[ "user_type" := JStr "Buyer" ]}.
Definition decode_buyer (_ : string) : outcome claims := Return buyer_claims.

End Auth.

(** * Properties of the event subscriber *)

Module ConsumerProperties.
Import Consumer.

Section Proofs.

Variable broker : broker_op -> option exn.
Variable json_loads : list Byte.byte -> result payload.
Variable validate_message_schema : payload -> option exn.
Variable callback : payload -> hval -> option exn.
Variable uuid4 : string.
Variable aio_pika : string -> bool.

(** The three logger methods the subscriber calls that [AuditLogger]
    defines, and the one it does not. *)
Lemma audit_log : logger_call AuditLogger "log" = emit (EvLog "log").
Proof. reflexivity. Qed.

Lemma audit_error : logger_call AuditLogger "error" = emit (EvLog "error").
Proof. reflexivity. Qed.

Lemma audit_warn : logger_call AuditLogger "warn" = emit (EvLog "warn").
Proof. reflexivity. Qed.

Lemma audit_warning : logger_call AuditLogger "warning" = raise AttributeError.
Proof. reflexivity. Qed.

Lemma logger_call_cases (lg : logger_object) (method : string) :
  logger_call lg method = emit (EvLog method)
  \/ logger_call lg method = raise AttributeError.
Proof. unfold logger_call. destruct (bool_decide _); auto. Qed.

Lemma chan_trace (op : broker_op) : trace_of (chan broker op) = [EvBroker op].
Proof. reflexivity. Qed.

Lemma bind_ok {A B} (t : list event) (a : A) (k : A -> M B) :
  (t, Ok a) ≫= k = (t ++ trace_of (k a), outcome_of (k a)).
Proof. unfold mbind, M_bind, bind. by destruct (k a). Qed.

Lemma bind_raise {A B} (t : list event) (e : exn) (k : A -> M B) :
  (t, Raise e) ≫= k = (t, Raise e).
Proof. reflexivity. Qed.

Lemma try_ok {A} (t : list event) (a : A) (h : exn -> M A) :
  try_except (t, Ok a) h = (t, Ok a).
Proof. reflexivity. Qed.

Lemma try_raise {A} (t : list event) (e : exn) (h : exn -> M A) :
  try_except (t, Raise e) h = (t ++ trace_of (h e), outcome_of (h e)).
Proof. unfold try_except. by destruct (h e). Qed.

Ltac run_monad :=
  unfold mbind, M_bind, mret, M_ret, bind, try_except, emit, ret, raise,
    trace_of, outcome_of, chan in *; simpl in *.

(** The failure handler never invokes the application callback. *)
Lemma handle_failed_no_callback (self : EventSubscriber) (message : Message) (rid : hval) :
  callback_count (trace_of (_handle_failed_message broker self message rid)) = 0%nat.
Proof.
  unfold _handle_failed_message.
  destruct (default _ _) as [| r |]; try reflexivity.
  destruct (r <? max_retries self)%Z.
  - destruct (pow2 (r + 1)) as [seconds | e]; [| reflexivity].
    destruct (logger_call_cases (logger self) "warning") as [-> | ->];
      run_monad; reflexivity.
  - destruct (logger_call_cases (logger self) "warn") as [-> | ->];
      run_monad; reflexivity.
Qed.

Lemma callback_count_app (t1 t2 : list event) :
  callback_count (t1 ++ t2) = (callback_count t1 + callback_count t2)%nat.
Proof. unfold callback_count. by rewrite filter_app, length_app. Qed.

Lemma callback_count_nil_app (t1 t2 : list event) :
  callback_count t1 = 0%nat -> callback_count t2 = 0%nat ->
  callback_count (t1 ++ t2) = 0%nat.
Proof. intros H1 H2. by rewrite callback_count_app, H1, H2. Qed.

(** The request id is computed without raising. *)
Lemma get_request_id_ok (message : Message) :
  exists pre rid,
    get_request_id uuid4 message = (pre, Ok rid) /\ callback_count pre = 0%nat.
Proof.
  unfold get_request_id. destruct (headers_truthy _).
  - by eexists [], _.
  - by eexists [EvUuid], _.
Qed.

Lemma deserialize_valid (message : Message) (d : payload) :
  json_loads (body message) = Ok d -> validate_message_schema d = None ->
  _deserialize_and_validate_message json_loads validate_message_schema message
  = ([], Ok d).
Proof.
  intros Hj Hv. unfold _deserialize_and_validate_message. by rewrite Hj, Hv.
Qed.

Lemma deserialize_invalid (message : Message) :
  ~ valid_body json_loads validate_message_schema message ->
  exists e,
    _deserialize_and_validate_message json_loads validate_message_schema message
    = ([], Raise e).
Proof.
  intros Hn. unfold _deserialize_and_validate_message.
  destruct (json_loads (body message)) as [d | e] eqn:Hj.
  - destruct (validate_message_schema d) as [e |] eqn:Hv.
    + run_monad. destruct (is_ValueError e); by eexists.
    + destruct Hn. by exists d.
  - run_monad. destruct (is_ValueError e); by eexists.
Qed.

(** Validity of a body is decided by running the parser and the validator. *)
Lemma classic_valid (message : Message) :
  valid_body json_loads validate_message_schema message
  \/ ~ valid_body json_loads validate_message_schema message.
Proof.
  unfold valid_body. destruct (json_loads (body message)) as [d | e] eqn:Hj.
  - destruct (validate_message_schema d) as [e |] eqn:Hv.
    + right. intros (d' & Hd & Hv'). congruence.
    + left. by exists d.
  - right. intros (d' & Hd & _). congruence.
Qed.

(** What [on_message] does once the request id is known, in the three cases
    of a delivery. *)
Lemma on_message_valid_ok (exchange dlx : string) (message : Message) (d : payload)
    (pre : list event) (rid : hval) :
  get_request_id uuid4 message = (pre, Ok rid) ->
  json_loads (body message) = Ok d -> validate_message_schema d = None ->
  callback d rid = None ->
  on_message broker json_loads validate_message_schema callback uuid4
    (init exchange dlx AuditLogger) message
  = (pre ++ [EvLog "log"; EvCallback d rid], Ok tt).
Proof.
  intros Hrid Hj Hv Hc. unfold on_message, call_callback.
  rewrite Hrid, bind_ok. cbn [logger init]. rewrite audit_log. unfold emit, ret.
  rewrite !bind_ok, (deserialize_valid _ _ Hj Hv), !bind_ok, Hc.
  reflexivity.
Qed.

Lemma on_message_valid_raise (exchange dlx : string) (message : Message) (d : payload)
    (pre : list event) (rid : hval) (e : exn) :
  get_request_id uuid4 message = (pre, Ok rid) ->
  json_loads (body message) = Ok d -> validate_message_schema d = None ->
  callback d rid = Some e ->
  let self := init exchange dlx AuditLogger in
  let H := _handle_failed_message broker self message rid in
  on_message broker json_loads validate_message_schema callback uuid4 self message
  = (pre ++ [EvLog "log"; EvCallback d rid; EvLog "error"] ++ trace_of H,
     outcome_of H).
Proof.
  intros Hrid Hj Hv Hc self H. unfold on_message, call_callback.
  rewrite Hrid, bind_ok. cbn [logger init self]. rewrite audit_log, audit_error.
  unfold emit, ret, raise.
  rewrite !bind_ok, (deserialize_valid _ _ Hj Hv), !bind_ok, Hc.
  cbn [trace_of outcome_of fst snd app]. rewrite try_raise. cbn beta.
  fold self. fold H.
  destruct (is_ValueError e); rewrite ?bind_ok; reflexivity.
Qed.

Lemma on_message_invalid (exchange dlx : string) (message : Message)
    (pre : list event) (rid : hval) :
  get_request_id uuid4 message = (pre, Ok rid) ->
  ~ valid_body json_loads validate_message_schema message ->
  let self := init exchange dlx AuditLogger in
  let H := _handle_failed_message broker self message rid in
  on_message broker json_loads validate_message_schema callback uuid4 self message
  = (pre ++ [EvLog "log"; EvLog "error"] ++ trace_of H, outcome_of H).
Proof.
  intros Hrid Hn self H. unfold on_message.
  destruct (deserialize_invalid _ Hn) as [e He].
  rewrite Hrid, bind_ok. cbn [logger init self]. rewrite audit_log, audit_error.
  unfold emit. rewrite bind_ok, He, bind_raise.
  cbn [trace_of outcome_of fst snd app]. rewrite try_raise. cbn beta.
  fold self. fold H.
  destruct (is_ValueError e); rewrite ?bind_ok; reflexivity.
Qed.

(** [on_message], the function the body of [_consume_message] defines, run
    on a delivery with the repository's logger: the application callback is
    invoked exactly once when the body parses and passes the schema
    validation, and then with the parsed document; it is not invoked when
    the body fails either, and the delivery then continues with the failure
    handler (the retry / dead-letter path), whose trace and outcome end the
    delivery. *)
Lemma on_message_callback_iff_valid (exchange dlx : string) (message : Message) :
  let self := init exchange dlx AuditLogger in
  let r := on_message broker json_loads validate_message_schema callback uuid4
             self message in
  (callback_count (trace_of r) = 1%nat
   <-> valid_body json_loads validate_message_schema message)
  /\ (forall d, json_loads (body message) = Ok d ->
                validate_message_schema d = None ->
                exists rid,
                  filter (fun ev => is_callback ev = true) (trace_of r)
                  = [EvCallback d rid])
  /\ (~ valid_body json_loads validate_message_schema message ->
      callback_count (trace_of r) = 0%nat
      /\ exists pre rid,
           callback_count pre = 0%nat
           /\ r = (pre ++ trace_of (_handle_failed_message broker self message rid),
                   outcome_of (_handle_failed_message broker self message rid))).
Proof.
  intros self r.
  destruct (get_request_id_ok message) as (pre & rid & Hrid & Hpre).
  assert (Hinv : ~ valid_body json_loads validate_message_schema message ->
                 callback_count (trace_of r) = 0%nat
                 /\ exists pre rid,
                      callback_count pre = 0%nat
                      /\ r = (pre ++ trace_of (_handle_failed_message broker self message rid),
                              outcome_of (_handle_failed_message broker self message rid))).
  { intros Hn. pose proof (on_message_invalid exchange dlx message pre rid Hrid Hn) as E.
    cbn zeta in E. fold self in E. fold r in E. split.
    - rewrite E. cbn [trace_of fst]. rewrite !callback_count_app, Hpre.
      by rewrite handle_failed_no_callback.
    - exists (pre ++ [EvLog "log"; EvLog "error"]), rid. split.
      + by rewrite callback_count_app, Hpre.
      + rewrite E. by rewrite <- app_assoc. }
  assert (Hval : forall d, json_loads (body message) = Ok d ->
                validate_message_schema d = None ->
                filter (fun ev => is_callback ev = true) (trace_of r)
                = [EvCallback d rid]).
  { intros d Hj Hv. unfold callback_count in Hpre.
    apply length_zero_iff_nil in Hpre.
    destruct (callback d rid) as [e |] eqn:Hc.
    - pose proof (on_message_valid_raise exchange dlx message d pre rid e
                    Hrid Hj Hv Hc) as E.
      cbn zeta in E. fold self in E. fold r in E. rewrite E. cbn [trace_of fst].
      pose proof (handle_failed_no_callback self message rid) as H0.
      unfold callback_count in H0. apply length_zero_iff_nil in H0.
      rewrite !filter_app, Hpre, H0. reflexivity.
    - pose proof (on_message_valid_ok exchange dlx message d pre rid
                    Hrid Hj Hv Hc) as E.
      fold self in E. fold r in E. rewrite E. cbn [trace_of fst].
      rewrite filter_app, Hpre. reflexivity. }
  split; [| split]; [| by eauto | done].
  split.
  - intros H1. destruct (classic_valid message) as [Hy | Hn]; [done |].
    destruct (Hinv Hn) as [H0 _]. congruence.
  - intros (d & Hj & Hv). unfold callback_count. by rewrite (Hval d Hj Hv).
Qed.

(** ** The failure handler, branch by branch *)

(** Retry branch with a logger that has no [warning] method, as
    [AuditLogger]: the handler sleeps and then raises at the attribute
    lookup, before the envelope is built. *)
Lemma handle_failed_retry_no_warning (self : EventSubscriber) (message : Message)
    (rid : hval) (r : Z) :
  "warning" ∉ logger self ->
  read_retries message = HInt r -> r < max_retries self ->
  _handle_failed_message broker self message rid
  = match pow2 (r + 1) with
    | Ok seconds => ([EvSleep seconds], Raise AttributeError)
    | Raise e => ([], Raise e)
    end.
Proof.
  intros Hlg Hr Hlt. unfold _handle_failed_message. unfold read_retries in Hr.
  rewrite Hr. apply Z.ltb_lt in Hlt. rewrite Hlt.
  destruct (pow2 (r + 1)) as [seconds | e]; [| reflexivity].
  rewrite bind_ok. cbn [trace_of outcome_of fst snd app].
  unfold logger_call. rewrite bool_decide_eq_false_2 by done. reflexivity.
Qed.

(** Retry branch with a logger that has a [warning] method. *)
Lemma handle_failed_retry_warning (self : EventSubscriber) (message : Message)
    (rid : hval) (r : Z) (seconds : Q) :
  "warning" ∈ logger self ->
  read_retries message = HInt r -> r < max_retries self ->
  pow2 (r + 1) = Ok seconds ->
  trace_of (_handle_failed_message broker self message rid)
  = [EvSleep seconds; EvLog "warning";
     EvBroker (Publish (retry_exchange self) (Some "retry_queue")
                 (retry_envelope message rid (r + 1)))].
Proof.
  intros Hlg Hr Hlt Hpow. unfold _handle_failed_message.
  unfold read_retries in Hr.
  rewrite Hr. apply Z.ltb_lt in Hlt. rewrite Hlt, Hpow.
  unfold logger_call. rewrite bool_decide_eq_true_2 by done.
  unfold emit. rewrite !bind_ok. reflexivity.
Qed.

(** Retry branch when the power itself raises: nothing is slept on, logged
    or published. *)
Lemma handle_failed_retry_overflow (self : EventSubscriber) (message : Message)
    (rid : hval) (r : Z) (e : exn) :
  read_retries message = HInt r -> r < max_retries self ->
  pow2 (r + 1) = Raise e ->
  _handle_failed_message broker self message rid = ([], Raise e).
Proof.
  intros Hr Hlt Hpow. unfold _handle_failed_message.
  unfold read_retries in Hr.
  rewrite Hr. apply Z.ltb_lt in Hlt. by rewrite Hlt, Hpow.
Qed.

(** ** The power [2 ** n] *)

Lemma float_limit_large : 1074 < float_limit.
Proof. by vm_compute. Qed.

(** From [-1074] on the float power is the exact power. *)
Lemma pow2_exact (n : Z) : -1074 <= n -> pow2 n = Ok (Qpower (2 # 1) n).
Proof.
  intros Hn. unfold pow2. pose proof float_limit_large as Hl.
  destruct (0 <=? n)%Z eqn:H0; [reflexivity |].
  destruct (n <=? - float_limit)%Z eqn:H1; [apply Z.leb_le in H1; lia |].
  destruct (n <? -1074)%Z eqn:H2; [apply Z.ltb_lt in H2; lia | reflexivity].
Qed.

(** Below, it underflows to [0.0], and raises once the exponent itself has
    no float. *)
Lemma pow2_underflow (n : Z) :
  - float_limit < n < -1074 -> pow2 n = Ok (0 # 1).
Proof.
  intros Hn. unfold pow2.
  destruct (0 <=? n)%Z eqn:H0; [apply Z.leb_le in H0; lia |].
  destruct (n <=? - float_limit)%Z eqn:H1; [apply Z.leb_le in H1; lia |].
  destruct (n <? -1074)%Z eqn:H2; [reflexivity | apply Z.ltb_ge in H2; lia].
Qed.

Lemma pow2_overflow (n : Z) :
  n <= - float_limit -> pow2 n = Raise OverflowError.
Proof.
  intros Hn. unfold pow2. pose proof float_limit_large as Hl.
  destruct (0 <=? n)%Z eqn:H0; [apply Z.leb_le in H0; lia |].
  destruct (n <=? - float_limit)%Z eqn:H1; [reflexivity | apply Z.leb_gt in H1; lia].
Qed.

(** Dead-letter branch with a logger that has a [warn] method. *)
Lemma handle_failed_dead_letter (self : EventSubscriber) (message : Message)
    (rid : hval) (r : Z) :
  "warn" ∈ logger self ->
  read_retries message = HInt r -> max_retries self <= r ->
  trace_of (_handle_failed_message broker self message rid)
  = [EvLog "warn";
     EvBroker (Publish (dead_letter_exchange self) None
                 (dead_letter_envelope message rid))].
Proof.
  intros Hlg Hr Hge. unfold _handle_failed_message. unfold read_retries in Hr.
  rewrite Hr. apply Z.ltb_ge in Hge. rewrite Hge.
  unfold logger_call. rewrite bool_decide_eq_true_2 by done.
  unfold emit. rewrite !bind_ok. reflexivity.
Qed.

(** A retry count that is not a number raises [TypeError] at the
    comparison. *)
Lemma handle_failed_not_int (self : EventSubscriber) (message : Message) (rid : hval) :
  (forall r, read_retries message <> HInt r) ->
  _handle_failed_message broker self message rid = ([], Raise TypeError).
Proof.
  intros Hr. unfold _handle_failed_message. unfold read_retries in Hr.
  destruct (default _ _) as [| r |]; try reflexivity. by destruct (Hr r).
Qed.

Lemma audit_no_warning : "warning" ∉ AuditLogger.
Proof. by apply (bool_decide_unpack (_ ∉ _)). Qed.

Lemma audit_has_warn : "warn" ∈ AuditLogger.
Proof. by apply (bool_decide_unpack (_ ∈ _)). Qed.

(** C1.  The code at a failed delivery still below the retry limit, with the
    repository's logger: no envelope is published, to the retry exchange or
    elsewhere, and the delivery is rejected.  The delivery sleeps the
    backoff delay [2 ** (r + 1)], then [self.logger.warning] raises
    [AttributeError] ([AuditLogger] defines [warn], not [warning]); the
    delay is the exact power for every count from [-1075] on, and for the
    counts below it is what the float power gives ([0.0], or no sleep at all
    when the power raises, and then that exception escapes). *)
Theorem C1_failed_delivery_not_republished (exchange dlx : string)
    (message : Message) (r : Z) :
  ~ valid_body json_loads validate_message_schema message ->
  read_retries message = HInt r -> r < 5 ->
  let self := init exchange dlx AuditLogger in
  let d := deliver broker json_loads validate_message_schema callback uuid4
             self message in
  let outcome := outcome_of (on_message broker json_loads
                               validate_message_schema callback uuid4 self
                               message) in
  published d.1 = []
  /\ d.2 = Rejected
  /\ (-1075 <= r ->
      sleeps d.1 = [Qpower (2 # 1) (r + 1)] /\ outcome = Raise AttributeError)
  /\ match pow2 (r + 1) with
     | Ok seconds => sleeps d.1 = [seconds] /\ outcome = Raise AttributeError
     | Raise e => sleeps d.1 = [] /\ outcome = Raise e
     end.
Proof.
  intros Hn Hr Hlt self d outcome.
  destruct (get_request_id_ok message) as (pre & rid & Hrid & _).
  pose proof (on_message_invalid exchange dlx message pre rid Hrid Hn) as E.
  cbn zeta in E. fold self in E.
  rewrite (handle_failed_retry_no_warning self message rid r
             audit_no_warning Hr Hlt) in E.
  assert (sleeps pre = [] /\ published pre = []) as [Hs Hp].
  { unfold get_request_id in Hrid.
    destruct (headers_truthy (headers message)); inversion Hrid; subst; done. }
  assert (forall t, sleeps (pre ++ [EvLog "log"; EvLog "error"] ++ t)
                    = sleeps t
                    /\ published (pre ++ [EvLog "log"; EvLog "error"] ++ t)
                       = published t) as Hpre.
  { intros t. unfold get_request_id in Hrid.
    destruct (headers_truthy (headers message)); inversion Hrid; subst; done. }
  unfold outcome, d, deliver, process. rewrite E. clear E.
  split; [| split; [| split]].
  - destruct (pow2 (r + 1)); cbn [trace_of outcome_of fst snd];
      by rewrite (proj2 (Hpre _)).
  - by destruct (pow2 (r + 1)).
  - intros Hge. rewrite pow2_exact by lia. cbn [trace_of outcome_of fst snd].
    by rewrite (proj1 (Hpre _)).
  - destruct (pow2 (r + 1)); cbn [trace_of outcome_of fst snd];
      by rewrite (proj1 (Hpre _)).
Qed.

(** ** Backoff *)

Lemma pow2_delay (n : Z) :
  1 <= n <= 5 -> pow2 n = Ok (inject_Z (2 ^ n)).
Proof.
  intros Hn.
  assert (n = 1 \/ n = 2 \/ n = 3 \/ n = 4 \/ n = 5) as Hc by lia.
  destruct Hc as [-> | [-> | [-> | [-> | ->]]]]; reflexivity.
Qed.

(** The retry branch sleeps once, first, whatever the logger. *)
Lemma handle_failed_retry_sleep (self : EventSubscriber) (message : Message)
    (rid : hval) (r : Z) (seconds : Q) :
  read_retries message = HInt r -> r < max_retries self ->
  pow2 (r + 1) = Ok seconds ->
  exists rest,
    trace_of (_handle_failed_message broker self message rid)
    = EvSleep seconds :: rest
    /\ sleeps rest = [].
Proof.
  intros Hr Hlt Hpow.
  destruct (decide ("warning" ∈ logger self)) as [Hin | Hnin].
  - rewrite (handle_failed_retry_warning self message rid r seconds Hin Hr Hlt Hpow).
    by eexists.
  - rewrite (handle_failed_retry_no_warning self message rid r Hnin Hr Hlt), Hpow.
    by eexists.
Qed.

Lemma read_retries_retry_envelope (message : Message) (rid : hval) (k : Z) :
  read_retries (retry_envelope message rid k) = HInt k.
Proof.
  unfold read_retries, retry_envelope, headers_or_empty, headers_truthy.
  cbn [headers]. rewrite bool_decide_eq_false_2 by apply insert_non_empty.
  cbn [negb]. unfold default at 2. cbn [from_option id].
  by rewrite lookup_insert_eq.
Qed.

Lemma request_id_retry_envelope (message : Message) (rid : hval) (k : Z) :
  default HNone (default ∅ (headers (retry_envelope message rid k)) !! "request_id")
  = rid.
Proof.
  unfold retry_envelope. cbn [headers]. unfold default at 2.
  cbn [from_option id].
  rewrite lookup_insert_ne by done. by rewrite lookup_singleton_eq.
Qed.

Lemma retry_sleeps (self : EventSubscriber) (message : Message) (rid : hval) (n : Z) :
  max_retries self = 5 -> 1 <= n <= 5 -> read_retries message = HInt (n - 1) ->
  sleeps (trace_of (_handle_failed_message broker self message rid))
  = [inject_Z (2 ^ n)].
Proof.
  intros Hmax Hn Hr.
  destruct (handle_failed_retry_sleep self message rid (n - 1) (inject_Z (2 ^ n)) Hr)
    as (rest & -> & Hs); [lia | |].
  - replace (n - 1 + 1) with n by lia. by apply pow2_delay.
  - cbn [sleeps]. by rewrite Hs.
Qed.

(** The retry branch in full, with a logger that has a [warning] method: it
    returns or raises as the publish does. *)
Lemma handle_failed_retry_full (self : EventSubscriber) (message : Message)
    (rid : hval) (r : Z) (seconds : Q) :
  "warning" ∈ logger self ->
  read_retries message = HInt r -> r < max_retries self ->
  pow2 (r + 1) = Ok seconds ->
  let publish := Publish (retry_exchange self) (Some "retry_queue")
                   (retry_envelope message rid (r + 1)) in
  _handle_failed_message broker self message rid
  = ([EvSleep seconds; EvLog "warning"; EvBroker publish],
     match broker publish with None => Ok tt | Some e => Raise e end).
Proof.
  intros Hlg Hr Hlt Hpow publish. unfold _handle_failed_message.
  unfold read_retries in Hr.
  rewrite Hr. apply Z.ltb_lt in Hlt. rewrite Hlt, Hpow.
  unfold logger_call. rewrite bool_decide_eq_true_2 by done.
  unfold emit. rewrite !bind_ok. reflexivity.
Qed.

(** One retry cycle that succeeds: the delay, then the republished envelope
    as the next delivery, under the same request id. *)
Lemma retry_delays_step (fuel : nat) (self : EventSubscriber) (message : Message)
    (rid : hval) (r : Z) (seconds : Q) :
  "warning" ∈ logger self ->
  (forall ex rk m, broker (Publish ex rk m) = None) ->
  read_retries message = HInt r -> r < max_retries self ->
  pow2 (r + 1) = Ok seconds ->
  retry_delays (S fuel) broker self message rid
  = seconds :: retry_delays fuel broker self (retry_envelope message rid (r + 1)) rid.
Proof.
  intros Hlg Hb Hr Hlt Hpow. cbn [retry_delays].
  rewrite (handle_failed_retry_full self message rid r seconds Hlg Hr Hlt Hpow).
  cbn zeta. rewrite Hb. cbn [trace_of outcome_of fst snd sleeps app].
  unfold published_to. cbn [published]. rewrite filter_cons. cbn [fst snd].
  rewrite decide_True by done. rewrite filter_nil. cbn [map snd].
  by rewrite request_id_retry_envelope.
Qed.

(** A delivery at the retry limit is not retried. *)
Lemma retry_delays_exhausted (fuel : nat) (self : EventSubscriber)
    (message : Message) (rid : hval) (r : Z) :
  read_retries message = HInt r -> max_retries self <= r ->
  dead_letter_exchange self <> retry_exchange self ->
  retry_delays fuel broker self message rid = [].
Proof.
  intros Hr Hge Hne. destruct fuel as [| fuel]; [reflexivity |].
  cbn [retry_delays]. unfold _handle_failed_message. unfold read_retries in Hr.
  rewrite Hr. apply Z.ltb_ge in Hge. rewrite Hge.
  destruct (logger_call_cases (logger self) "warn") as [-> | ->].
  - unfold emit. rewrite bind_ok. unfold chan.
    cbn [trace_of outcome_of fst snd app sleeps].
    unfold published_to. cbn [published]. rewrite filter_cons. cbn [fst snd].
    rewrite decide_False by done. rewrite filter_nil. cbn [map].
    by destruct (broker _).
  - reflexivity.
Qed.

(** The delays of one message with a logger that has a [warning] method, on
    a broker that accepts the publications: 2, 4, 8, 16, 32, and no more
    however many deliveries are allowed. *)
Lemma retry_delays_with_warning (fuel : nat) (lg : logger_object)
    (exchange dlx : string) (message : Message) (rid : hval) :
  "warning" ∈ lg ->
  (forall ex rk m, broker (Publish ex rk m) = None) ->
  dlx <> "retry_exchange" ->
  read_retries message = HInt 0 ->
  retry_delays (5 + fuel) broker (init exchange dlx lg) message rid
  = map inject_Z [2; 4; 8; 16; 32].
Proof.
  intros Hlg Hb Hne Hr. set (self := init exchange dlx lg).
  change (5 + fuel)%nat with (S (S (S (S (S fuel))))).
  rewrite (retry_delays_step _ self message rid 0 (inject_Z (2 ^ 1)) Hlg Hb Hr);
    [| cbn; lia | by apply pow2_delay].
  rewrite (retry_delays_step _ self _ rid 1 (inject_Z (2 ^ 2)) Hlg Hb);
    [| apply read_retries_retry_envelope | cbn; lia | by apply pow2_delay].
  rewrite (retry_delays_step _ self _ rid 2 (inject_Z (2 ^ 3)) Hlg Hb);
    [| apply read_retries_retry_envelope | cbn; lia | by apply pow2_delay].
  rewrite (retry_delays_step _ self _ rid 3 (inject_Z (2 ^ 4)) Hlg Hb);
    [| apply read_retries_retry_envelope | cbn; lia | by apply pow2_delay].
  rewrite (retry_delays_step _ self _ rid 4 (inject_Z (2 ^ 5)) Hlg Hb);
    [| apply read_retries_retry_envelope | cbn; lia | by apply pow2_delay].
  rewrite (retry_delays_exhausted fuel self _ rid 5);
    [reflexivity | apply read_retries_retry_envelope | cbn; lia | done].
Qed.

(** C3.  On a failed delivery whose incremented retry count is [n], from 1
    to 5, the failure handler first sleeps [2 ^ n] time units, before it
    logs or publishes anything, and sleeps no more, whatever the logger.
    With the repository's logger that first delay is the only one of the
    message, however many deliveries are allowed: the handler raises after
    the sleep and republishes nothing, so the delays 4, 8, 16, 32 of a first
    delivery never happen.  With a logger that has a [warning] method, on a
    broker that accepts the publications, the delays of a first delivery are
    2, 4, 8, 16, 32. *)
Theorem C3_delays_stop_after_first (exchange dlx : string) (message : Message)
    (rid : hval) (n : Z) (fuel : nat) :
  1 <= n <= 5 ->
  read_retries message = HInt (n - 1) ->
  (forall lg, exists rest,
     trace_of (_handle_failed_message broker (init exchange dlx lg) message rid)
     = EvSleep (inject_Z (2 ^ n)) :: rest
     /\ sleeps rest = [])
  /\ retry_delays (S fuel) broker (init exchange dlx AuditLogger) message rid
     = [inject_Z (2 ^ n)]
  /\ (n = 1 ->
      retry_delays (S fuel) broker (init exchange dlx AuditLogger) message rid
      <> map inject_Z [2; 4; 8; 16; 32])
  /\ (forall lg,
        n = 1 -> "warning" ∈ lg ->
        (forall ex rk m, broker (Publish ex rk m) = None) ->
        dlx <> "retry_exchange" ->
        retry_delays (5 + fuel) broker (init exchange dlx lg) message rid
        = map inject_Z [2; 4; 8; 16; 32]).
Proof.
  intros Hn Hr.
  assert (pow2 (n - 1 + 1) = Ok (inject_Z (2 ^ n))) as Hpow.
  { replace (n - 1 + 1) with n by lia. by apply pow2_delay. }
  assert (retry_delays (S fuel) broker (init exchange dlx AuditLogger) message rid
          = [inject_Z (2 ^ n)]) as Hone.
  { cbn [retry_delays].
    rewrite (handle_failed_retry_no_warning (init exchange dlx AuditLogger)
               message rid (n - 1) audit_no_warning Hr) by (cbn; lia).
    by rewrite Hpow. }
  split; [| split; [| split]].
  - intros lg.
    apply (handle_failed_retry_sleep (init exchange dlx lg) message rid (n - 1));
      [done | cbn; lia | done].
  - exact Hone.
  - intros ->. rewrite Hone. discriminate.
  - intros lg -> Hlg Hb Hne.
    by apply retry_delays_with_warning.
Qed.

(** ** Dead-lettering *)

(** C5, as amended.  When a failed delivery is dead-lettered (its retry
    count is 5 or more), the handler logs and publishes one envelope to the
    dead-letter exchange: it has the body of the delivery and exactly one
    header, [request_id], set to the request id of the delivery. *)
Theorem C5_dead_letter_envelope (exchange dlx : string) (message : Message)
    (rid : hval) (r : Z) :
  read_retries message = HInt r -> 5 <= r ->
  let t := trace_of (_handle_failed_message broker
                       (init exchange dlx AuditLogger) message rid) in
  t = [EvLog "warn";
       EvBroker (Publish dlx None
                   {| body := body message;
                      headers := Some {[ "request_id" := rid ]} |})]
  /\ published t
     = [(dlx, None,
         {| body := body message; headers := Some {[ "request_id" := rid ]} |})]
  /\ forall sent, sent ∈ published_to dlx t ->
       body sent = body message
       /\ forall k, default ∅ (headers sent) !! k
                    = if decide (k = "request_id") then Some rid else None.
Proof.
  intros Hr Hge t. unfold t.
  rewrite (handle_failed_dead_letter (init exchange dlx AuditLogger) message rid r
             audit_has_warn Hr) by (cbn; lia).
  split; [reflexivity |]. split; [reflexivity |].
  intros sent. unfold published_to. cbn [published init dead_letter_exchange].
  rewrite filter_cons. cbn [fst snd].
  destruct (decide (dlx = dlx)) as [_ | Hne]; [| done].
  rewrite filter_nil. cbn [map snd]. intros ->%list_elem_of_singleton.
  split; [reflexivity |]. intros k. cbn [dead_letter_envelope headers default].
  unfold default. cbn [from_option id].
  destruct (decide (k = "request_id")) as [-> | Hk].
  - by rewrite lookup_singleton_eq.
  - by rewrite lookup_singleton_ne.
Qed.

(** ** The request id *)

Lemma Forall_bind {A B} (P : event -> Prop) (m : M A) (k : A -> M B) :
  Forall P (trace_of m) -> (forall a, Forall P (trace_of (k a))) ->
  Forall P (trace_of (m ≫= k)).
Proof.
  intros Hm Hk. destruct m as [t [a | e]].
  - rewrite bind_ok. cbn [trace_of fst] in *. apply Forall_app; auto.
  - by rewrite bind_raise.
Qed.

Lemma Forall_try {A} (P : event -> Prop) (m : M A) (h : exn -> M A) :
  Forall P (trace_of m) -> (forall e, Forall P (trace_of (h e))) ->
  Forall P (trace_of (try_except m h)).
Proof.
  intros Hm Hh. destruct m as [t [a | e]].
  - by rewrite try_ok.
  - rewrite try_raise. cbn [trace_of fst] in *. apply Forall_app; auto.
Qed.

Lemma logger_call_carries (rid : hval) (lg : logger_object) (method : string) :
  Forall (carries_request_id rid) (trace_of (logger_call lg method)).
Proof.
  destruct (logger_call_cases lg method) as [-> | ->]; cbn; repeat constructor.
Qed.

Lemma chan_publish_carries (rid : hval) (ex : string) (rk : option string)
    (m : Message) (h : gmap string hval) :
  headers m = Some h -> h !! "request_id" = Some rid ->
  Forall (carries_request_id rid) (trace_of (chan broker (Publish ex rk m))).
Proof.
  intros Hh Hl. rewrite chan_trace. constructor; [| constructor].
  cbn. eauto.
Qed.

(** Whatever the failure handler publishes carries the request id it was
    given. *)
Lemma handle_failed_carries (self : EventSubscriber) (message : Message) (rid : hval) :
  Forall (carries_request_id rid)
    (trace_of (_handle_failed_message broker self message rid)).
Proof.
  unfold _handle_failed_message.
  destruct (default _ _) as [| r |]; try (cbn; constructor).
  destruct (r <? max_retries self)%Z.
  - apply Forall_bind; [constructor | intros seconds].
    apply Forall_bind; [repeat constructor | intros _].
    apply Forall_bind; [apply logger_call_carries | intros _].
    eapply chan_publish_carries; [reflexivity |].
    rewrite lookup_insert_ne by done. apply lookup_singleton_eq.
  - apply Forall_bind; [apply logger_call_carries | intros _].
    eapply chan_publish_carries; [reflexivity |]. apply lookup_singleton_eq.
Qed.

Lemma deserialize_trace (message : Message) :
  trace_of (_deserialize_and_validate_message json_loads validate_message_schema
              message) = [].
Proof.
  unfold _deserialize_and_validate_message.
  destruct (json_loads (body message)) as [d | e].
  - destruct (validate_message_schema d) as [e |]; [| reflexivity].
    unfold raise. rewrite try_raise. by destruct (is_ValueError e).
  - unfold raise. rewrite try_raise. by destruct (is_ValueError e).
Qed.

(** The statements of [on_message] after the request id is bound. *)
Local Abbreviation on_message_body self message request_id :=
  (try_except
    (logger_call (logger self) "log" ;;
     message_data ← _deserialize_and_validate_message json_loads
                      validate_message_schema message;
     call_callback callback message_data request_id)
    (fun e =>
       if is_ValueError e
       then logger_call (logger self) "error" ;;
            _handle_failed_message broker self message request_id
       else logger_call (logger self) "error" ;;
            _handle_failed_message broker self message request_id)).

Lemma on_message_body_carries (self : EventSubscriber) (message : Message)
    (rid : hval) :
  Forall (carries_request_id rid) (trace_of (on_message_body self message rid)).
Proof.
  apply Forall_try.
  - apply Forall_bind; [apply logger_call_carries | intros _].
    apply Forall_bind; [by rewrite deserialize_trace | intros d].
    unfold call_callback. apply Forall_bind; [by repeat constructor | intros _].
    destruct (callback d rid); constructor.
  - intros e.
    destruct (is_ValueError e);
      (apply Forall_bind; [apply logger_call_carries | intros _]);
      apply handle_failed_carries.
Qed.

Lemma on_message_split (self : EventSubscriber) (message : Message) :
  let r := on_message broker json_loads validate_message_schema callback uuid4
             self message in
  (headers_truthy (headers message) = true ->
   trace_of r
   = trace_of (on_message_body self message
                 (default HNone (default ∅ (headers message) !! "request_id"))))
  /\ (headers_truthy (headers message) = false ->
      trace_of r
      = EvUuid :: trace_of (on_message_body self message (HStr uuid4))).
Proof.
  unfold on_message, get_request_id.
  split; intros E; rewrite E.
  - unfold ret. rewrite bind_ok. reflexivity.
  - unfold emit, ret. rewrite bind_ok. cbn [trace_of outcome_of fst snd app].
    rewrite bind_ok. reflexivity.
Qed.

Lemma headers_falsy (h : option (gmap string hval)) :
  headers_truthy h = false <-> h = None \/ h = Some ∅.
Proof.
  unfold headers_truthy. destruct h as [m |].
  - rewrite negb_false_iff, bool_decide_eq_true. split.
    + intros ->. by right.
    + intros [Hn | Hs]; congruence.
  - split; [by left | done].
Qed.

Lemma carries_no_uuid (rid : hval) (t : list event) :
  Forall (carries_request_id rid) t -> EvUuid ∉ t.
Proof.
  intros Hall Hin. rewrite Forall_forall in Hall. exact (Hall _ Hin).
Qed.

(** C10.  A delivery draws a fresh UUID exactly when its headers mapping is
    absent or empty.  When the mapping is non-empty and has no [request_id]
    key, no UUID is drawn, the callback (if it is invoked) receives [None]
    as the request id, and every envelope the delivery publishes, retried or
    dead-lettered, has a [request_id] header whose value is [None]. *)
Theorem C10_request_id_none (self : EventSubscriber) (message : Message) :
  let t := trace_of (on_message broker json_loads validate_message_schema
                       callback uuid4 self message) in
  ((EvUuid ∈ t) <-> (headers message = None \/ headers message = Some ∅))
  /\ (forall h,
        headers message = Some h -> h <> ∅ -> h !! "request_id" = None ->
        (EvUuid ∉ t)
        /\ (forall d rid, EvCallback d rid ∈ t -> rid = HNone)
        /\ (forall ex rk m, EvBroker (Publish ex rk m) ∈ t ->
             exists h', headers m = Some h' /\ h' !! "request_id" = Some HNone)).
Proof.
  intros t. destruct (on_message_split self message) as [Ht Hf].
  fold t in Ht, Hf. split.
  - rewrite <- headers_falsy.
    destruct (headers_truthy (headers message)) eqn:E.
    + rewrite (Ht eq_refl). split; [| done].
      intros Hin. exfalso. revert Hin.
      apply (carries_no_uuid _ _ (on_message_body_carries self message _)).
    + rewrite (Hf eq_refl). split; [done | intros _; left].
  - intros h Hh Hne Hrid.
    assert (headers_truthy (headers message) = true) as Htr.
    { rewrite Hh. unfold headers_truthy. by rewrite bool_decide_eq_false_2. }
    pose proof (on_message_body_carries self message
                  (default HNone (default ∅ (headers message) !! "request_id")))
      as Hall.
    rewrite <- (Ht Htr) in Hall. rewrite Hh in Hall. cbn in Hall.
    rewrite Hrid in Hall. cbn in Hall. rewrite Forall_forall in Hall.
    split; [| split].
    + intros Hin. exact (Hall _ Hin).
    + intros d rid Hin. exact (Hall _ Hin).
    + intros ex rk m Hin. exact (Hall _ Hin).
Qed.

(** ** Topology *)

Lemma chan_first {A} (op : broker_op) (k : unit -> M A) (h : exn -> M A) :
  exists rest,
    trace_of (try_except (chan broker op ≫= k) h) = EvBroker op :: rest.
Proof.
  unfold chan. destruct (broker op) as [e |].
  - rewrite bind_raise, try_raise. by eexists.
  - rewrite bind_ok. destruct (outcome_of (k ())).
    + rewrite try_ok. by eexists.
    + rewrite try_raise. by eexists.
Qed.

Lemma try_trace_prefix {A} (m : M A) (h : exn -> M A) :
  exists rest, trace_of (try_except m h) = trace_of m ++ rest.
Proof.
  destruct m as [t [a | e]].
  - rewrite try_ok. exists []. cbn. by rewrite app_nil_r.
  - rewrite try_raise. by eexists.
Qed.

Lemma bind_trace_prefix {A B} (m : M A) (k : A -> M B) :
  exists rest, trace_of (m ≫= k) = trace_of m ++ rest.
Proof.
  destruct m as [t [a | e]].
  - rewrite bind_ok. by eexists.
  - rewrite bind_raise. exists []. cbn. by rewrite app_nil_r.
Qed.

Lemma chan_accepted (op : broker_op) :
  broker op = None -> chan broker op = ([EvBroker op], Ok tt).
Proof. intros H. unfold chan. by rewrite H. Qed.

(** C7.  [subscribe_events] first declares the queue, durable and not
    auto-deleted, with exactly the three arguments [x-message-ttl = 300000],
    [x-dead-letter-exchange] = the subscriber's dead-letter exchange and
    [x-max-length = 1000]; when the broker accepts the calls it then binds
    the queue to the main exchange, which [connect] declares as a fanout
    exchange, and starts consuming with [no_ack = False], and returns.  (The
    consumer it hands over is the coroutine object.) *)
Theorem C7_subscribe_events (exchange dlx : string) (lg : logger_object)
    (queue_name : string) :
  let self := init exchange dlx lg in
  let arguments : gmap string hval :=
    <[ "x-message-ttl" := HInt 300000 ]>
    (<[ "x-dead-letter-exchange" := HStr dlx ]>
    {[ "x-max-length" := HInt 1000 ]}) in
  let declare :=
    DeclareQueue {| q_name := queue_name; q_durable := true;
                    q_auto_delete := false; q_arguments := arguments |} in
  let ops := [declare; Bind queue_name exchange;
              Consume queue_name CoroutineObject false] in
  (exists rest,
     trace_of (subscribe_events broker aio_pika self queue_name)
     = EvBroker declare :: rest)
  /\ (Forall (fun op => broker op = None) ops ->
      subscribe_events broker aio_pika self queue_name = (map EvBroker ops, Ok tt))
  /\ (forall k,
        arguments !! k
        = if decide (k = "x-message-ttl") then Some (HInt 300000)
          else if decide (k = "x-dead-letter-exchange") then Some (HStr dlx)
          else if decide (k = "x-max-length") then Some (HInt 1000)
          else None)
  /\ (broker OpenChannel = None ->
      exists rest,
        trace_of (connect broker aio_pika self)
        = EvBroker OpenChannel :: EvBroker (DeclareExchange exchange "fanout") :: rest).
Proof.
  intros self arguments declare ops. split; [| split; [| split]].
  - apply chan_first.
  - intros Hall. unfold ops in Hall.
    apply Forall_cons in Hall as [H1 Hall].
    apply Forall_cons in Hall as [H2 Hall].
    apply Forall_cons in Hall as [H3 _].
    unfold subscribe_events.
    change (DeclareQueue _) with declare.
    change (Bind queue_name (exchange_name self)) with (Bind queue_name exchange).
    rewrite (chan_accepted _ H1), (chan_accepted _ H2), (chan_accepted _ H3).
    rewrite !bind_ok. reflexivity.
  - intros k. unfold arguments.
    repeat (case_decide; [subst; by simplify_map_eq |]).
    by simplify_map_eq.
  - intros Hopen. unfold connect.
    match goal with
    | |- context [try_except ?m ?h] =>
        destruct (try_trace_prefix m h) as [rest1 ->]
    end.
    rewrite (chan_accepted _ Hopen), bind_ok. cbn [trace_of fst].
    match goal with
    | |- context [trace_of (?m ≫= ?k)] =>
        destruct (bind_trace_prefix m k) as [rest2 ->]
    end.
    by eexists.
Qed.

(** ** What is registered as the consumer *)

Lemma registered_app (t1 t2 : list event) :
  registered (t1 ++ t2) = registered t1 ++ registered t2.
Proof.
  induction t1 as [| ev t1 IH]; [reflexivity |].
  destruct ev as [| | | | []]; cbn [app registered]; by rewrite ?IH.
Qed.

Lemma logger_call_registers (lg : logger_object) (method : string) :
  registered (trace_of (logger_call lg method)) = [].
Proof. by destruct (logger_call_cases lg method) as [-> | ->]. Qed.

(** The handler of [subscribe_events] registers nothing. *)
Lemma subscribe_handler_registers (self : EventSubscriber) (e : exn) :
  registered
    (trace_of (except_aio_pika aio_pika "AMQPError" is_AMQPError
                 (fun e => logger_call (logger self) "error" ;; raise e) e
               : M unit))
  = [].
Proof.
  unfold except_aio_pika. destruct (aio_pika _); [| reflexivity].
  destruct (is_AMQPError e); [| reflexivity].
  destruct (logger_call_cases (logger self) "error") as [-> | ->]; reflexivity.
Qed.

(** Whatever the broker does, [subscribe_events] hands no consumer other
    than the coroutine object to [queue.consume]. *)
Lemma subscribe_events_registers (self : EventSubscriber) (queue_name : string) :
  Forall (fun c => c = CoroutineObject)
    (registered (trace_of (subscribe_events broker aio_pika self queue_name))).
Proof.
  unfold subscribe_events, chan.
  destruct (broker (DeclareQueue _)) as [e1 |].
  { rewrite bind_raise, try_raise. cbn [trace_of fst].
    rewrite registered_app, subscribe_handler_registers. constructor. }
  rewrite bind_ok. cbn [trace_of outcome_of fst snd].
  destruct (broker (Bind _ _)) as [e2 |].
  { rewrite bind_raise. cbn [trace_of outcome_of fst snd]. rewrite try_raise.
    cbn [trace_of fst].
    rewrite registered_app, subscribe_handler_registers. constructor. }
  rewrite bind_ok. cbn [trace_of outcome_of fst snd app].
  destruct (broker (Consume _ _ _)) as [e3 |].
  - rewrite try_raise. cbn [trace_of fst].
    rewrite registered_app, subscribe_handler_registers.
    repeat constructor.
  - rewrite try_ok. repeat constructor.
Qed.

(** C4.  A delivery whose body parses and passes the schema validation never
    reaches the application callback through [subscribe_events]: the
    consumer handed to [queue.consume] is the coroutine object of the call
    [self._consume_message(callback)], which is not awaited, so no
    [on_message] exists; on a broker that accepts the calls it is the one
    consumer registered.  A delivery to it runs nothing of the subscriber:
    the callback is invoked zero times and the delivery is neither
    acknowledged nor rejected.  Had [on_message] been registered, the same
    delivery would have invoked the callback exactly once. *)
Theorem C4_callback_never_invoked (exchange dlx queue_name : string)
    (message : Message) :
  valid_body json_loads validate_message_schema message ->
  let self := init exchange dlx AuditLogger in
  let subscribed := subscribe_events broker aio_pika self queue_name in
  let delivery c := consume broker json_loads validate_message_schema callback
                      uuid4 c self message in
  Forall (fun c => c = CoroutineObject) (registered (trace_of subscribed))
  /\ ((forall op, broker op = None) ->
      outcome_of subscribed = Ok tt
      /\ registered (trace_of subscribed) = [CoroutineObject])
  /\ (forall c, c ∈ registered (trace_of subscribed) ->
        delivery c = ([], None) /\ callback_count (delivery c).1 = 0%nat)
  /\ callback_count (delivery OnMessage).1 = 1%nat.
Proof.
  intros Hvalid self subscribed delivery.
  pose proof (subscribe_events_registers self queue_name) as Hall.
  fold subscribed in Hall.
  split; [exact Hall |]. split; [| split].
  - intros Hb. unfold subscribed, subscribe_events.
    rewrite !(chan_accepted _ (Hb _)), !bind_ok. cbn [trace_of outcome_of fst snd app].
    rewrite try_ok. by split.
  - intros c Hc. rewrite Forall_forall in Hall. rewrite (Hall c Hc).
    by split.
  - unfold delivery, consume, deliver, process. cbn [fst].
    by apply (proj1 (on_message_callback_iff_valid exchange dlx message)).
Qed.

End Proofs.

(** ** Concrete deliveries *)

Lemma no_json_invalid (message : Message) : ~ valid_body no_json any_schema message.
Proof. intros (d & Hd & _). discriminate. Qed.

(** A first delivery without headers whose body is not JSON: it is slept on
    for two seconds and rejected; nothing reaches the retry exchange. *)
Lemma C1_failing_delivery :
  let d := deliver accepting_broker no_json any_schema quiet_callback "u-1"
             (init "events" "dead_letter" AuditLogger) first_delivery in
  published d.1 = [] /\ d.2 = Rejected
  /\ sleeps d.1 = [Qpower (2 # 1) (0 + 1)]
  /\ outcome_of (on_message accepting_broker no_json any_schema quiet_callback
                   "u-1" (init "events" "dead_letter" AuditLogger) first_delivery)
     = Raise AttributeError.
Proof.
  destruct (C1_failed_delivery_not_republished accepting_broker no_json
              any_schema quiet_callback "u-1" "events" "dead_letter"
              first_delivery 0) as (Hp & Hd & Hs & _).
  - apply no_json_invalid.
  - reflexivity.
  - lia.
  - destruct Hs as [Hs Ho]; [lia |]. exact (conj Hp (conj Hd (conj Hs Ho))).
Defined.

(** The same delivery: two time units are slept, and no delay follows,
    whatever the number of deliveries allowed. *)
Lemma C3_first_delay_only :
  retry_delays 6 accepting_broker (init "events" "dead_letter" AuditLogger)
    first_delivery HNone
  = [inject_Z (2 ^ 1)].
Proof.
  apply (C3_delays_stop_after_first accepting_broker "events" "dead_letter"
           first_delivery HNone 1 5).
  - lia.
  - reflexivity.
Defined.

(** A delivery whose body parses, after [subscribe_events] on a broker that
    accepts every call: the registered consumer does not hand it to the
    callback; [on_message] would have, once. *)
Lemma C4_valid_delivery_dropped :
  let self := init "events" "dead_letter" AuditLogger in
  let delivery c := consume accepting_broker null_json any_schema quiet_callback
                      "u-1" c self first_delivery in
  registered (trace_of (subscribe_events accepting_broker aio_pika_exports self
                          "bids"))
  = [CoroutineObject]
  /\ delivery CoroutineObject = ([], None)
  /\ callback_count (delivery OnMessage).1 = 1%nat.
Proof.
  destruct (C4_callback_never_invoked accepting_broker null_json any_schema
              quiet_callback "u-1" aio_pika_exports "events" "dead_letter"
              "bids" first_delivery) as (_ & Hreg & Hdel & Hon).
  - exists JNull. split; reflexivity.
  - destruct Hreg as [_ Hreg]; [reflexivity |].
    split; [exact Hreg |]. split; [| exact Hon].
    apply (Hdel CoroutineObject). rewrite Hreg. apply list_elem_of_singleton.
    reflexivity.
Defined.

(** The envelope dead-lettered for the exhausted delivery. *)
Lemma C5_exhausted_delivery :
  published
    (trace_of (_handle_failed_message accepting_broker
                 (init "events" "dead_letter" AuditLogger)
                 exhausted_delivery (HStr "r-1")))
  = [("dead_letter", None,
      {| body := []; headers := Some {[ "request_id" := HStr "r-1" ]} |})].
Proof.
  apply (C5_dead_letter_envelope accepting_broker "events" "dead_letter"
           exhausted_delivery (HStr "r-1") 5).
  - vm_compute. reflexivity.
  - lia.
Defined.

(** The claim of C5 fails on the exhausted delivery: its [x-retries] header,
    5, is absent from the envelope that is dead-lettered. *)
Lemma C5_headers_not_kept :
  ~ dead_letter_keeps_headers accepting_broker
      (init "events" "dead_letter" AuditLogger).
Proof.
  intros Hclaim.
  destruct (Hclaim exhausted_delivery (HStr "r-1")
              (dead_letter_envelope exhausted_delivery (HStr "r-1")))
    as [_ Hk].
  - rewrite (handle_failed_dead_letter accepting_broker
               (init "events" "dead_letter" AuditLogger)
               exhausted_delivery (HStr "r-1") 5 audit_has_warn);
      [| by vm_compute | cbn; lia].
    unfold published_to. cbn [published init dead_letter_exchange].
    rewrite filter_cons. cbn [fst snd]. rewrite decide_True by done.
    rewrite filter_nil. cbn [map snd]. apply list_elem_of_singleton. reflexivity.
  - specialize (Hk "x-retries"). vm_compute in Hk.
    assert ("x-retries" <> "request_id") as Hne by done.
    specialize (Hk Hne). discriminate Hk.
Defined.

(** The anonymous delivery: no UUID is drawn, and the envelope that is
    dead-lettered carries [None] as its request id. *)
Lemma C10_anonymous_delivery :
  let t := trace_of (on_message accepting_broker no_json any_schema
                       quiet_callback "u-1"
                       (init "events" "dead_letter" AuditLogger)
                       anonymous_delivery) in
  (EvUuid ∉ t)
  /\ (forall d rid, EvCallback d rid ∈ t -> rid = HNone)
  /\ (forall ex rk m, EvBroker (Publish ex rk m) ∈ t ->
       exists h', headers m = Some h' /\ h' !! "request_id" = Some HNone).
Proof.
  apply (proj2 (C10_request_id_none accepting_broker no_json any_schema
                  quiet_callback "u-1" (init "events" "dead_letter" AuditLogger)
                  anonymous_delivery) {[ "x-retries" := HInt 5 ]}).
  - reflexivity.
  - apply map_non_empty_singleton.
  - by apply lookup_singleton_ne.
Defined.

(** The envelope in question: it is published, with request id [None]. *)
Lemma anonymous_delivery_published :
  published (trace_of (on_message accepting_broker no_json any_schema
                         quiet_callback "u-1"
                         (init "events" "dead_letter" AuditLogger)
                         anonymous_delivery))
  = [("dead_letter", None,
      {| body := []; headers := Some {[ "request_id" := HNone ]} |})].
Proof. vm_compute. reflexivity. Qed.

(** Subscribing on a broker that accepts every call. *)
Lemma C7_subscribe_accepted :
  subscribe_events accepting_broker aio_pika_exports
    (init "events" "dead_letter" AuditLogger) "bids"
  = ([EvBroker (DeclareQueue
                  {| q_name := "bids"; q_durable := true; q_auto_delete := false;
                     q_arguments :=
                       <[ "x-message-ttl" := HInt 300000 ]>
                       (<[ "x-dead-letter-exchange" := HStr "dead_letter" ]>
                        {[ "x-max-length" := HInt 1000 ]}) |});
      EvBroker (Bind "bids" "events");
      EvBroker (Consume "bids" CoroutineObject false)], Ok tt).
Proof.
  apply (C7_subscribe_events accepting_broker aio_pika_exports "events"
           "dead_letter" AuditLogger "bids").
  repeat constructor.
Defined.

End ConsumerProperties.

(** * Properties of the room broadcaster *)

Module AuctionsProperties.
Import Auctions.

Lemma truthy_spec (o : option (list nat)) :
  truthy o = true <-> exists l, o = Some l /\ l <> [].
Proof.
  destruct o as [[| x l] |]; cbn; split; try done.
  - intros (l & [= <-] & Hl). done.
  - intros _. by eexists.
  - intros (l & [=] & _).
Qed.

Lemma has_active_connection_record (st : manager) (auction_id : string) :
  has_active_connection auction_id st = true ->
  exists l, active_connections st !! auction_id = Some l /\ l <> [].
Proof.
  unfold has_active_connection. rewrite andb_true_iff, truthy_spec. by intros [_ H].
Qed.

(** C8.  [has_active_connection] answers true exactly when the registry has
    a record for the room and its connection list is not empty. *)
Theorem C8_has_active_connection (st : manager) (auction_id : string) :
  has_active_connection auction_id st = true
  <-> exists l, active_connections st !! auction_id = Some l /\ l <> [].
Proof.
  unfold has_active_connection. rewrite andb_true_iff, truthy_spec.
  rewrite bool_decide_eq_true, elem_of_dom. split.
  - by intros [_ H].
  - intros (l & Hl & Hne). split; [by rewrite Hl | by exists l].
Qed.

Lemma list_remove_None (x : nat) (l : list nat) :
  list_remove x l = None <-> x ∉ l.
Proof.
  induction l as [| y l IH]; cbn.
  - split; [intros _; apply not_elem_of_nil | done].
  - rewrite not_elem_of_cons. case_bool_decide as Hxy.
    + split; [done | intros [Hne _]; done].
    + destruct (list_remove x l) as [l' |]; cbn.
      * split; [done |]. intros [_ Hnin]. by apply IH in Hnin.
      * split; [| done]. intros _. split; [done | by apply IH].
Qed.

Lemma list_remove_Some_singleton (x : nat) (l : list nat) :
  list_remove x l = Some [] <-> l = [x].
Proof.
  destruct l as [| y l]; cbn; [done |].
  case_bool_decide as Hxy.
  - subst. split; congruence.
  - destruct (list_remove x l); cbn; split; try done; congruence.
Qed.

(** C9.  [disconnect] on a room without a record raises [KeyError], and on
    a connection that is not in the room's list raises [ValueError]; either
    way the state (registry, subscriptions, tasks) is the one before the
    call: nothing is unsubscribed and no record is deleted, whatever Redis
    would have answered. *)
Theorem C9_disconnect_errors (env : outcomes) (st : manager) (websocket : nat)
    (auction_id : string) :
  (active_connections st !! auction_id = None ->
   disconnect env websocket auction_id st = (Raise KeyError, st))
  /\ (forall l,
        active_connections st !! auction_id = Some l -> websocket ∉ l ->
        disconnect env websocket auction_id st = (Raise ValueError, st)).
Proof.
  unfold disconnect. split.
  - by intros ->.
  - intros l -> Hnin. apply list_remove_None in Hnin. by rewrite Hnin.
Qed.

(** ** Fan-out *)

Section FanOut.

Variable send_text : nat -> string -> option exn.

Lemma fan_out_all_sent (all_sockets : list nat) (data : string) :
  Forall (fun socket => send_text socket data = None) all_sockets ->
  fan_out send_text all_sockets data
  = (map (fun socket => (socket, data)) all_sockets, Ok tt).
Proof.
  induction 1 as [| socket rest Hs _ IH]; cbn; [done |].
  by rewrite Hs, IH.
Qed.

Lemma fan_out_stops (before after : list nat) (failing : nat) (data : string)
    (e : exn) :
  Forall (fun socket => send_text socket data = None) before ->
  send_text failing data = Some e ->
  fan_out send_text (before ++ failing :: after) data
  = (map (fun socket => (socket, data)) before, Raise e).
Proof.
  intros Hb Hf. induction Hb as [| socket rest Hs _ IH]; cbn.
  - by rewrite Hf.
  - by rewrite Hs, IH.
Qed.

(** C6, as amended.  The listener sends a message to the connections of the
    room in registration order.  When the send to one of them raises, the
    connections registered before it have received the message, those
    registered after it receive nothing, and the exception ends the listener
    task: no later message is delivered.  When no send raises, every
    connection of the room receives the message and the listener goes on
    with the next one. *)
Theorem C6_send_failure_ends_listener (connections : gmap string (list nat))
    (auction_id data : string) (polls : list (option (string * string))) :
  (forall before failing after e,
     connections !! auction_id = Some (before ++ failing :: after) ->
     Forall (fun socket => send_text socket data = None) before ->
     send_text failing data = Some e ->
     _pubsub_data_reader send_text connections (Some (auction_id, data) :: polls)
     = (map (fun socket => (socket, data)) before, Some e))
  /\ (forall all_sockets,
        connections !! auction_id = Some all_sockets ->
        Forall (fun socket => send_text socket data = None) all_sockets ->
        _pubsub_data_reader send_text connections (Some (auction_id, data) :: polls)
        = (map (fun socket => (socket, data)) all_sockets
             ++ (_pubsub_data_reader send_text connections polls).1,
           (_pubsub_data_reader send_text connections polls).2)).
Proof.
  split.
  - intros before failing after e Hc Hb Hf. cbn [_pubsub_data_reader].
    by rewrite Hc, (fan_out_stops before after failing data e Hb Hf).
  - intros all_sockets Hc Hall. cbn [_pubsub_data_reader].
    rewrite Hc, (fan_out_all_sent all_sockets data Hall).
    by destruct (_pubsub_data_reader send_text connections polls).
Qed.

End FanOut.

(** Three connections in a room, the second of which fails: the first
    receives the message, the third does not, and the listener is gone. *)
Lemma C6_second_of_three_fails :
  _pubsub_data_reader second_fails {[ "auction-42" := [1; 2; 3]%nat ]}
    [Some ("auction-42", "SOLD"); Some ("auction-42", "NEXT")]
  = ([(1%nat, "SOLD")], Some RuntimeError).
Proof.
  apply (proj1 (C6_send_failure_ends_listener second_fails
                  {[ "auction-42" := [1; 2; 3]%nat ]} "auction-42" "SOLD"
                  [Some ("auction-42", "NEXT")])
           [1%nat] 2%nat [3%nat] RuntimeError).
  - reflexivity.
  - repeat constructor.
  - reflexivity.
Defined.

(** The claim of C6 fails on that room. *)
Lemma C6_failure_not_isolated :
  ~ isolates_send_failures second_fails {[ "auction-42" := [1; 2; 3]%nat ]}.
Proof.
  intros Hclaim.
  destruct (Hclaim "auction-42" "SOLD" [1; 2; 3]%nat) as [Halive _];
    [reflexivity |].
  vm_compute in Halive. discriminate Halive.
Defined.

(** ** What [connect], [disconnect] and a turn of a listener change *)

Lemma connect_refused (env : outcomes) (websocket : nat) (auction_id : string)
    (st : manager) :
  websocket ∈ accepted st ->
  connect env websocket auction_id st = (Raise RuntimeError, st).
Proof.
  intros Hin. unfold connect, websocket_accept.
  by rewrite bool_decide_eq_true_2.
Qed.

Lemma connect_rejected (env : outcomes) (websocket : nat) (auction_id : string)
    (st : manager) (e : exn) :
  websocket ∉ accepted st -> accept env = Some e ->
  connect env websocket auction_id st = (Raise e, st).
Proof.
  intros Hnin He. unfold connect, websocket_accept.
  rewrite bool_decide_eq_false_2 by done. by rewrite He.
Qed.

Lemma connect_existing (env : outcomes) (websocket : nat) (auction_id : string)
    (st : manager) :
  websocket ∉ accepted st -> accept env = None ->
  truthy (active_connections st !! auction_id) = true ->
  connect env websocket auction_id st
  = (Ok tt,
     {| active_connections :=
          alter (fun l => l ++ [websocket]) auction_id (active_connections st);
        accepted := {[websocket]} ∪ accepted st;
        pubsub_objects := pubsub_objects st;
        pubsub := pubsub st;
        tasks := tasks st |}).
Proof.
  intros Hnin He Ht. unfold connect, websocket_accept.
  rewrite bool_decide_eq_false_2 by done. rewrite He.
  cbn [active_connections]. by rewrite Ht.
Qed.

Lemma connect_no_client (env : outcomes) (websocket : nat) (auction_id : string)
    (st : manager) (e : exn) :
  websocket ∉ accepted st -> accept env = None ->
  truthy (active_connections st !! auction_id) = false ->
  from_url env = Some e ->
  connect env websocket auction_id st
  = (Raise e,
     {| active_connections := <[auction_id := [websocket]]> (active_connections st);
        accepted := {[websocket]} ∪ accepted st;
        pubsub_objects := pubsub_objects st;
        pubsub := pubsub st;
        tasks := tasks st |}).
Proof.
  intros Hnin He Ht Hu. unfold connect, websocket_accept.
  rewrite bool_decide_eq_false_2 by done. rewrite He.
  cbn [active_connections]. rewrite Ht.
  unfold pubsub_connect. by rewrite Hu.
Qed.

Lemma connect_no_subscription (env : outcomes) (websocket : nat)
    (auction_id : string) (st : manager) (e : exn) :
  websocket ∉ accepted st -> accept env = None ->
  truthy (active_connections st !! auction_id) = false ->
  from_url env = None -> subscribe env = Some e ->
  connect env websocket auction_id st
  = (Raise e,
     {| active_connections := <[auction_id := [websocket]]> (active_connections st);
        accepted := {[websocket]} ∪ accepted st;
        pubsub_objects := pubsub_objects st ++ [∅];
        pubsub := Some (length (pubsub_objects st));
        tasks := tasks st |}).
Proof.
  intros Hnin He Ht Hu Hs. unfold connect, websocket_accept.
  rewrite bool_decide_eq_false_2 by done. rewrite He.
  cbn [active_connections]. rewrite Ht.
  unfold pubsub_connect. rewrite Hu.
  unfold pubsub_subscribe. cbn [pubsub]. by rewrite Hs.
Qed.

Lemma connect_new (env : outcomes) (websocket : nat) (auction_id : string)
    (st : manager) :
  websocket ∉ accepted st -> accept env = None ->
  truthy (active_connections st !! auction_id) = false ->
  from_url env = None -> subscribe env = None ->
  connect env websocket auction_id st
  = (Ok tt,
     {| active_connections := <[auction_id := [websocket]]> (active_connections st);
        accepted := {[websocket]} ∪ accepted st;
        pubsub_objects := pubsub_objects st ++ [{[auction_id]}];
        pubsub := Some (length (pubsub_objects st));
        tasks := tasks st ++ [{| polled := length (pubsub_objects st);
                                 ended := None |}] |}).
Proof.
  intros Hnin He Ht Hu Hs. unfold connect, websocket_accept.
  rewrite bool_decide_eq_false_2 by done. rewrite He.
  cbn [active_connections]. rewrite Ht.
  unfold pubsub_connect. rewrite Hu.
  unfold pubsub_subscribe. cbn [pubsub]. rewrite Hs.
  unfold create_task, set_tasks, set_connections. cbn.
  rewrite alter_app_r_alt by lia. rewrite Nat.sub_diag. cbn.
  by rewrite union_empty_l_L.
Qed.

(** The six ways a [connect] goes. *)
Ltac connect_cases env w a st :=
  let Hacc := fresh "Hacc" in
  let Hhs := fresh "Hhs" in
  let Htr := fresh "Htr" in
  let Hurl := fresh "Hurl" in
  let Hsub := fresh "Hsub" in
  let e := fresh "e" in
  destruct (decide (w ∈ accepted st)) as [Hacc | Hacc];
  [ rewrite (connect_refused env w a st Hacc)
  | destruct (accept env) as [e |] eqn:Hhs;
    [ rewrite (connect_rejected env w a st e Hacc Hhs)
    | destruct (truthy (active_connections st !! a)) eqn:Htr;
      [ rewrite (connect_existing env w a st Hacc Hhs Htr)
      | destruct (from_url env) as [e |] eqn:Hurl;
        [ rewrite (connect_no_client env w a st e Hacc Hhs Htr Hurl)
        | destruct (subscribe env) as [e |] eqn:Hsub;
          [ rewrite (connect_no_subscription env w a st e Hacc Hhs Htr Hurl Hsub)
          | rewrite (connect_new env w a st Hacc Hhs Htr Hurl Hsub) ] ] ] ] ].

Lemma disconnect_last (env : outcomes) (websocket : nat) (auction_id : string)
    (st : manager) :
  active_connections st !! auction_id = Some [websocket] ->
  disconnect env websocket auction_id st
  = pubsub_unsubscribe env auction_id
      (set_connections (delete auction_id (active_connections st)) st).
Proof.
  intros Hl. unfold disconnect. rewrite Hl. cbn [list_remove].
  rewrite bool_decide_eq_true_2 by done. cbn [length].
  by rewrite bool_decide_eq_true_2.
Qed.

(** A turn of a listener changes nothing but the state of its task, and that
    only when an exception ends it. *)
Lemma poll_cases (send_text : nat -> string -> option exn) (i : nat)
    (pending : option (string * string)) (st : manager) :
  ((poll send_text i pending st).1.2 = None
   /\ (poll send_text i pending st).2 = st)
  \/ exists p e,
       tasks st !! i = Some {| polled := p; ended := None |}
       /\ (poll send_text i pending st).1.2 = Some e
       /\ (poll send_text i pending st).2
          = set_tasks (<[i := {| polled := p; ended := Some e |}]> (tasks st)) st.
Proof.
  unfold poll. destruct (tasks st !! i) as [[p [e |]] |] eqn:Hi; [by left | | by left].
  destruct (_pubsub_data_reader _ _ _) as [sent [e |]].
  - right. by exists p, e.
  - by left.
Qed.

Lemma polled_ended (l : list task) (i p : nat) (e : exn) :
  l !! i = Some {| polled := p; ended := None |} ->
  polled <$> <[i := {| polled := p; ended := Some e |}]> l = polled <$> l.
Proof.
  intros Hi. rewrite list_fmap_insert. cbn [polled].
  apply list_insert_id. by rewrite list_lookup_fmap, Hi.
Qed.

(** ** The registry in every state *)

Lemma registry_ok_init : registry_ok init.
Proof. intros a l H. cbn in H. by rewrite lookup_empty in H. Qed.

Lemma registry_ok_insert (st : manager) (auction_id : string) (l : list nat)
    (c : gmap string (list nat)) :
  registry_ok st -> l <> [] ->
  (forall a, a <> auction_id -> c !! a = active_connections st !! a) ->
  c !! auction_id = Some l ->
  forall a l', c !! a = Some l' -> l' <> [].
Proof.
  intros Hok Hl Hother Hthis a l'.
  destruct (decide (a = auction_id)) as [-> | Ha].
  - rewrite Hthis. by intros [= <-].
  - rewrite (Hother a Ha). apply Hok.
Qed.

Lemma registry_ok_connect (env : outcomes) (websocket : nat) (auction_id : string)
    (st : manager) :
  registry_ok st -> registry_ok (connect env websocket auction_id st).2.
Proof.
  intros Hok.
  assert (forall c : gmap string (list nat),
            (forall a, a <> auction_id -> c !! a = active_connections st !! a) ->
            c !! auction_id = Some [websocket] ->
            forall a l', c !! a = Some l' -> l' <> []) as Hnew.
  { intros c. by apply registry_ok_insert. }
  connect_cases env websocket auction_id st; cbn [snd]; try done.
  - apply truthy_spec in Htr as (l & Hl & Hne).
    unfold registry_ok. cbn [active_connections].
    apply (registry_ok_insert st auction_id (l ++ [websocket])); trivial.
    + by destruct l.
    + intros a Ha. by rewrite lookup_alter_ne.
    + by rewrite lookup_alter_eq, Hl.
  - unfold registry_ok. cbn [active_connections]. apply Hnew.
    + intros a Ha. by rewrite lookup_insert_ne.
    + by rewrite lookup_insert_eq.
  - unfold registry_ok. cbn [active_connections]. apply Hnew.
    + intros a Ha. by rewrite lookup_insert_ne.
    + by rewrite lookup_insert_eq.
  - unfold registry_ok. cbn [active_connections]. apply Hnew.
    + intros a Ha. by rewrite lookup_insert_ne.
    + by rewrite lookup_insert_eq.
Qed.

Lemma unsubscribe_connections (env : outcomes) (room_id : string) (st : manager) :
  active_connections (pubsub_unsubscribe env room_id st).2 = active_connections st
  /\ tasks (pubsub_unsubscribe env room_id st).2 = tasks st
  /\ pubsub (pubsub_unsubscribe env room_id st).2 = pubsub st
  /\ accepted (pubsub_unsubscribe env room_id st).2 = accepted st.
Proof.
  unfold pubsub_unsubscribe.
  destruct (pubsub st) as [p |] eqn:Hp; [destruct (unsubscribe env) |]; cbn;
    by rewrite ?Hp.
Qed.

Lemma registry_ok_disconnect (env : outcomes) (websocket : nat)
    (auction_id : string) (st : manager) :
  registry_ok st -> registry_ok (disconnect env websocket auction_id st).2.
Proof.
  intros Hok. unfold disconnect.
  destruct (active_connections st !! auction_id) as [l |] eqn:Hl; [| done].
  destruct (list_remove websocket l) as [l' |] eqn:Hrm; [| done].
  case_bool_decide as Hlen.
  - unfold registry_ok.
    rewrite (proj1 (unsubscribe_connections env auction_id _)).
    cbn [active_connections set_connections]. intros a l0.
    destruct (decide (a = auction_id)) as [-> | Ha].
    + by rewrite lookup_delete_eq.
    + rewrite lookup_delete_ne by done. apply Hok.
  - unfold registry_ok. cbn [snd active_connections set_connections].
    apply (registry_ok_insert st auction_id l'); trivial.
    + intros ->. by destruct Hlen.
    + intros a Ha. by rewrite lookup_insert_ne.
    + by rewrite lookup_insert_eq.
Qed.

Lemma poll_frame (send_text : nat -> string -> option exn) (i : nat)
    (pending : option (string * string)) (st : manager) :
  let st' := (poll send_text i pending st).2 in
  active_connections st' = active_connections st
  /\ accepted st' = accepted st
  /\ pubsub_objects st' = pubsub_objects st
  /\ pubsub st' = pubsub st
  /\ polled <$> tasks st' = polled <$> tasks st.
Proof.
  cbn zeta.
  destruct (poll_cases send_text i pending st) as [[_ ->] | (p & e & Hi & _ & ->)];
    [done |].
  cbn. repeat split. by apply polled_ended.
Qed.

Lemma registry_ok_step (c : call) (st : manager) :
  registry_ok st -> registry_ok (step c st).
Proof.
  destruct c as [env w a | env w a | send_text i pending]; cbn [step].
  - apply registry_ok_connect.
  - apply registry_ok_disconnect.
  - intros Hok. unfold registry_ok.
    by rewrite (proj1 (poll_frame send_text i pending st)).
Qed.

Lemma registry_ok_run (calls : list call) (st : manager) :
  registry_ok st -> registry_ok (run calls st).
Proof.
  revert st. induction calls as [| c calls IH]; intros st H; cbn; [done |].
  apply IH. by apply registry_ok_step.
Qed.

(** ** The store of pub/sub objects and the tasks in every state *)

Lemma channels_of_elem (st : manager) (p : nat) (auction_id : string) :
  auction_id ∈ channels_of st p ->
  exists chs, pubsub_objects st !! p = Some chs /\ auction_id ∈ chs.
Proof.
  unfold channels_of. destruct (pubsub_objects st !! p) as [chs |]; cbn.
  - intros H. by exists chs.
  - intros H. by apply not_elem_of_empty in H.
Qed.



Lemma channels_of_grown (st st' : manager) (chs : gset string) (p : nat) :
  pubsub_objects st' = pubsub_objects st ++ [chs] ->
  channels_of st' p
  = if decide (p = length (pubsub_objects st)) then chs else channels_of st p.
Proof.
  intros Ho. unfold channels_of. rewrite Ho.
  destruct (decide (p = length (pubsub_objects st))) as [-> | Hne].
  - rewrite lookup_app_r by lia. by rewrite Nat.sub_diag.
  - destruct (decide (p < length (pubsub_objects st))%nat) as [Hlt | Hge].
    + by rewrite lookup_app_l.
    + rewrite !lookup_ge_None_2; [done | lia |].
      rewrite length_app. cbn. lia.
Qed.




Lemma channels_of_unsubscribed (st st' : manager) (p q : nat) (auction_id : string) :
  pubsub_objects st'
  = alter (fun chs => chs ∖ {[auction_id]}) p (pubsub_objects st) ->
  channels_of st' q
  = if decide (p = q) then channels_of st q ∖ {[auction_id]} else channels_of st q.
Proof.
  intros Ho. unfold channels_of. rewrite Ho. destruct (decide (p = q)) as [-> | Hne].
  - rewrite list_lookup_alter_eq.
    destruct (pubsub_objects st !! q); cbn; [done |].
    symmetry. apply difference_disjoint_L. apply disjoint_empty_l.
  - by rewrite list_lookup_alter_ne.
Qed.





(** ** Rooms, subscriptions and listener tasks in smooth runs *)

Lemma listeners_spec (auction_id : string) (st : manager) (t : task) :
  t ∈ listeners auction_id st
  <-> running t = true /\ auction_id ∈ channels_of st (polled t) /\ t ∈ tasks st.
Proof. unfold listeners. rewrite list_elem_of_filter. tauto. Qed.

Lemma listeners_frame (auction_id : string) (st st' : manager) :
  pubsub_objects st' = pubsub_objects st -> tasks st' = tasks st ->
  listeners auction_id st' = listeners auction_id st.
Proof. intros Ho Ht. unfold listeners, channels_of. by rewrite Ho, Ht. Qed.

Lemma redis_returns_spec (env : outcomes) :
  redis_returns env = true
  <-> from_url env = None /\ subscribe env = None /\ unsubscribe env = None.
Proof.
  unfold redis_returns.
  destruct (from_url env), (subscribe env), (unsubscribe env); cbn;
    split; try done; intros (? & ? & ?); done.
Qed.

Lemma rooms_ok_init : rooms_ok init.
Proof.
  split; [| split; [| split]]; cbn; try done.
  intros a [l H]. by rewrite lookup_empty in H.
Qed.

Lemma rooms_ok_frame (st st' : manager) :
  (forall a, is_Some (active_connections st' !! a) ->
             is_Some (active_connections st !! a)) ->
  pubsub_objects st' = pubsub_objects st -> pubsub st' = pubsub st ->
  tasks st' = tasks st ->
  rooms_ok st -> rooms_ok st'.
Proof.
  intros Hreg Ho Hp Ht (H1 & H2 & H3 & H4).
  split; [| split; [| split]].
  - intros a Ha. rewrite (listeners_frame a st st' Ho Ht). by apply H1, Hreg.
  - rewrite Hp. intros Hn. apply map_empty. intros a.
    apply eq_None_not_Some. intros Ha%Hreg.
    rewrite (H2 Hn), lookup_empty in Ha. by destruct Ha.
  - by rewrite Ho, Ht.
  - by rewrite Ht.
Qed.

Lemma rooms_ok_connect (env : outcomes) (websocket : nat) (auction_id : string)
    (st : manager) :
  redis_returns env = true ->
  rooms_ok st -> rooms_ok (connect env websocket auction_id st).2.
Proof.
  intros (Hu & Hs & _)%redis_returns_spec Hok.
  connect_cases env websocket auction_id st; cbn [snd]; try done;
    try congruence.
  - apply (rooms_ok_frame st); try done. cbn [active_connections].
    intros a. by rewrite lookup_alter_is_Some.
  - destruct Hok as (H1 & H2 & H3 & H4).
    split; [| split; [| split]];
      cbn [fst snd active_connections pubsub pubsub_objects tasks set_connections].
    + intros a Ha. destruct (decide (a = auction_id)) as [-> | Hne].
      * exists {| polled := length (pubsub_objects st); ended := None |}.
        apply listeners_spec. split; [done |]. split.
        -- cbn [polled].
           match goal with
           | |- context [channels_of ?s _] =>
               rewrite (channels_of_grown st s {[auction_id]} _ eq_refl)
           end.
           rewrite decide_True by done. by apply elem_of_singleton.
        -- cbn. apply elem_of_app. right. apply list_elem_of_singleton.
           reflexivity.
      * rewrite lookup_insert_ne in Ha by done.
        destruct (H1 a Ha) as [t (Hr & Hch & Ht)%listeners_spec].
        exists t. apply listeners_spec. split; [done |]. split.
        -- match goal with
           | |- context [channels_of ?s _] =>
               rewrite (channels_of_grown st s {[auction_id]} _ eq_refl)
           end.
           rewrite decide_False; [done |].
           apply channels_of_elem in Hch as (chs & Hl%lookup_lt_Some & _). lia.
        -- cbn. apply elem_of_app. by left.
    + done.
    + rewrite fmap_app, length_app, Nat.add_1_r, seq_S, H3. reflexivity.
    + apply Forall_app. split; [done |]. by repeat constructor.
Qed.

Lemma rooms_ok_disconnect (env : outcomes) (websocket : nat) (auction_id : string)
    (st : manager) :
  redis_returns env = true ->
  rooms_ok st -> rooms_ok (disconnect env websocket auction_id st).2.
Proof.
  intros (_ & _ & Hun)%redis_returns_spec Hok. unfold disconnect.
  destruct (active_connections st !! auction_id) as [l |] eqn:Hl; [| done].
  destruct (list_remove websocket l) as [l' |] eqn:Hrm; [| done].
  case_bool_decide as Hlen.
  - destruct Hok as (H1 & H2 & H3 & H4).
    unfold pubsub_unsubscribe. cbn [pubsub set_connections]. rewrite Hun.
    destruct (pubsub st) as [p |] eqn:Hp.
    + split; [| split; [| split]];
        cbn [fst snd active_connections pubsub pubsub_objects tasks set_connections].
      * intros a Ha. destruct (decide (a = auction_id)) as [-> | Hne].
        { rewrite lookup_delete_eq in Ha. by destruct Ha. }
        rewrite lookup_delete_ne in Ha by done.
        destruct (H1 a Ha) as [t (Hr & Hch & Ht)%listeners_spec].
        exists t. apply listeners_spec. split; [done |]. split; [| done].
        match goal with
        | |- context [channels_of ?s _] =>
            rewrite (channels_of_unsubscribed st s p _ auction_id eq_refl)
        end.
        destruct (decide _); [| done].
        apply elem_of_difference. split; [done |].
        intros Heq%elem_of_singleton. done.
      * intros Hn. congruence.
      * by rewrite length_alter.
      * done.
    + rewrite (H2 eq_refl) in Hl. by rewrite lookup_empty in Hl.
  - cbn [snd]. apply (rooms_ok_frame st); try done.
    cbn [active_connections set_connections]. intros a.
    destruct (decide (a = auction_id)) as [-> | Hne].
    + by rewrite Hl.
    + by rewrite lookup_insert_ne.
Qed.

Lemma rooms_ok_step (c : call) (st : manager) :
  smooth c st = true -> rooms_ok st -> rooms_ok (step c st).
Proof.
  destruct c as [env w a | env w a | send_text i pending]; cbn [step smooth].
  - apply rooms_ok_connect.
  - apply rooms_ok_disconnect.
  - intros Hs Hok.
    destruct (poll_cases send_text i pending st)
      as [[_ ->] | (p & e & _ & He & _)]; [done |].
    by rewrite He in Hs.
Qed.

Lemma rooms_ok_run (calls : list call) (st : manager) :
  smooth_run calls st = true -> rooms_ok st -> rooms_ok (run calls st).
Proof.
  revert st. induction calls as [| c calls IH]; intros st Hs H; cbn; [done |].
  cbn in Hs. apply andb_true_iff in Hs as [Hc Hs].
  apply IH; [done |]. by apply rooms_ok_step.
Qed.

(** No call cancels or removes a listener task: the tasks keep their place,
    and a running task stays running through every [connect] and
    [disconnect]. *)
Lemma tasks_kept (env : outcomes) (websocket : nat) (auction_id : string)
    (st : manager) (t : task) :
  t ∈ tasks st ->
  t ∈ tasks (connect env websocket auction_id st).2
  /\ t ∈ tasks (disconnect env websocket auction_id st).2.
Proof.
  intros Ht. split.
  - connect_cases env websocket auction_id st; cbn; try done.
    apply elem_of_app. by left.
  - unfold disconnect.
    destruct (active_connections st !! auction_id) as [l |]; [| done].
    destruct (list_remove websocket l) as [l' |]; [| done].
    case_bool_decide; [| done].
    by rewrite (proj1 (proj2 (unsubscribe_connections env auction_id _))).
Qed.

(** C2, as amended.  In every state reached from the initial manager by
    [connect] and [disconnect] calls and turns of the listeners, whatever
    the services answer: no room record is empty; and disconnecting the last
    connection of a room removes the record of the room, then calls
    [unsubscribe] on the current pub/sub object, and cancels no task (the
    tasks are as they were).  When [unsubscribe] returns, the [disconnect]
    returns and the room is unsubscribed on the current object; when it
    raises, or when there is no current object, the exception escapes with
    the record already removed and the subscriptions as they were.  In a
    state reached by a smooth run (no call on Redis raised and no listener
    was ended by an exception), a room with a connection has an object
    subscribed to its channel and a running listener task polling such an
    object, and a current object exists as soon as a room does. *)
Theorem C2_room_lifecycle (calls : list call) :
  let st := run calls init in
  (forall auction_id l, active_connections st !! auction_id = Some l -> l <> [])
  /\ (smooth_run calls init = true ->
      (forall auction_id,
         has_active_connection auction_id st = true ->
         subscribed auction_id st = true
         /\ exists t, t ∈ listeners auction_id st)
      /\ (active_connections st <> ∅ -> is_Some (pubsub st)))
  /\ (forall env websocket auction_id,
        active_connections st !! auction_id = Some [websocket] ->
        let r := disconnect env websocket auction_id st in
        active_connections r.2 = delete auction_id (active_connections st)
        /\ has_active_connection auction_id r.2 = false
        /\ tasks r.2 = tasks st
        /\ match pubsub st, unsubscribe env with
           | Some p, None => r.1 = Ok tt /\ auction_id ∉ channels_of r.2 p
           | Some p, Some e =>
               r.1 = Raise e /\ pubsub_objects r.2 = pubsub_objects st
           | None, _ =>
               r.1 = Raise AttributeError
               /\ pubsub_objects r.2 = pubsub_objects st
           end).
Proof.
  intros st. split; [| split].
  - exact (registry_ok_run calls init registry_ok_init).
  - intros Hs.
    destruct (rooms_ok_run calls init Hs rooms_ok_init) as (Hlis & Hnone & _ & _).
    fold st in Hlis, Hnone. split.
    + intros a Ha. apply has_active_connection_record in Ha as (l & Hl & _).
      destruct (Hlis a (mk_is_Some _ _ Hl)) as [t Ht]. split; [| by exists t].
      apply listeners_spec in Ht as (_ & Hch & _).
      unfold subscribed. apply bool_decide_eq_true, Exists_exists.
      apply channels_of_elem in Hch as (chs & Hchs & Hin).
      exists chs. split; [by eapply list_elem_of_lookup_2 | done].
    + intros Hne. destruct (pubsub st) eqn:Hp; [by eexists |].
      by destruct Hne, Hnone.
  - intros env w a Hl. rewrite (disconnect_last env w a st Hl).
    assert (forall c : gmap string (list nat),
              has_active_connection a (set_connections (delete a c) st) = false)
      as Hgone.
    { intros c. unfold has_active_connection. cbn.
      rewrite bool_decide_eq_false_2; [done |].
      rewrite elem_of_dom, lookup_delete_eq. by intros [? ?]. }
    unfold pubsub_unsubscribe. cbn [pubsub set_connections].
    destruct (pubsub st) as [p |] eqn:Hp; [destruct (unsubscribe env) as [e |] |];
      cbn [fst snd]; (split; [done |]); (split; [apply Hgone |]);
      (split; [done |]); try done.
    split; [done |]. unfold channels_of. cbn. rewrite list_lookup_alter_eq.
    destruct (pubsub_objects st !! p) as [chs |]; cbn;
      [| apply not_elem_of_empty].
    intros [_ Hn]%elem_of_difference. apply Hn. by apply elem_of_singleton.
Qed.

(** One connection joins a room and leaves it. *)
Lemma C2_join_and_leave :
  let st := run [Connect all_return 1 "auction-42"] init in
  let r := disconnect all_return 1 "auction-42" st in
  active_connections r.2 = delete "auction-42" (active_connections st)
  /\ has_active_connection "auction-42" r.2 = false
  /\ tasks r.2 = tasks st
  /\ r.1 = Ok tt /\ "auction-42" ∉ channels_of r.2 0.
Proof.
  apply (proj2 (proj2 (C2_room_lifecycle [Connect all_return 1 "auction-42"]))
           all_return 1%nat "auction-42").
  reflexivity.
Defined.

(** The claim of C2 fails on that run: the listener task started for the
    room is still among the tasks, and running, after the last connection
    left. *)
Lemma C2_listener_not_cancelled : ~ room_lifecycle.
Proof.
  intros Hclaim.
  destruct (Hclaim [Connect all_return 1 "auction-42"]) as [_ Hlast].
  destruct (Hlast all_return 1%nat "auction-42") as (_ & _ & Hgone);
    [reflexivity |].
  apply (Hgone {| polled := 0; ended := None |}).
  - apply listeners_spec. split; [reflexivity |]. split.
    + vm_compute. reflexivity.
    + vm_compute. apply list_elem_of_singleton. reflexivity.
  - vm_compute. apply list_elem_of_singleton. reflexivity.
Defined.

(** With two rooms the subscription of the first outlives it: the second
    [connect] replaced the pub/sub object, so the first room is unsubscribed
    on an object that never subscribed to it. *)
Lemma stale_subscription :
  let st := run [Connect all_return 1 "auction-1"; Connect all_return 2 "auction-2";
                 Disconnect all_return 1 "auction-1"] init in
  has_active_connection "auction-1" st = false
  /\ subscribed "auction-1" st = true
  /\ listeners "auction-1" st = [{| polled := 0; ended := None |}].
Proof. vm_compute. done. Qed.

(** When Redis refuses the subscription, the room has its connection, and
    neither a subscription nor a listener task. *)
Lemma subscription_refused :
  let r := connect subscribe_fails 1 "auction-42" init in
  r.1 = Raise RuntimeError
  /\ has_active_connection "auction-42" r.2 = true
  /\ subscribed "auction-42" r.2 = false
  /\ tasks r.2 = [].
Proof. vm_compute. done. Qed.

(** When a send fails, the listener of the room ends; the room keeps its
    connection and its subscription, without a running listener. *)
Lemma listener_ended :
  let st := run [Connect all_return 1 "auction-42";
                 Poll first_fails 0 (Some ("auction-42", "SOLD"))] init in
  has_active_connection "auction-42" st = true
  /\ subscribed "auction-42" st = true
  /\ listeners "auction-42" st = []
  /\ tasks st = [{| polled := 0; ended := Some RuntimeError |}].
Proof. vm_compute. done. Qed.

(** Disconnecting from a room that does not exist, and a connection that is
    not in its room. *)
Lemma C9_unknown_room :
  disconnect all_return 1 "auction-42" init = (Raise KeyError, init).
Proof.
  apply (proj1 (C9_disconnect_errors all_return init 1 "auction-42")).
  reflexivity.
Defined.

End AuctionsProperties.

(** * Further properties of the event subscriber *)

Module ConsumerExtra.
Import Consumer ConsumerCalls ConsumerProperties.

Section Calls.

Variable broker : broker_op -> option exn.
Variable aio_pika : string -> bool.

Lemma chan_all_accepted (ops : list broker_op) :
  Forall (fun op => broker op = None) ops ->
  chan_all broker ops = (EvBroker <$> ops, Ok tt).
Proof.
  induction 1 as [| op ops Hop _ IH]; [reflexivity |].
  cbn [chan_all]. rewrite (chan_accepted broker op Hop), bind_ok, IH. reflexivity.
Qed.

Lemma chan_all_refused (done rest : list broker_op) (op : broker_op) (e : exn) :
  Forall (fun op => broker op = None) done ->
  broker op = Some e ->
  chan_all broker (done ++ op :: rest) = (EvBroker <$> (done ++ [op]), Raise e).
Proof.
  intros Hd Hop. induction Hd as [| op' done Hop' _ IH]; cbn [chan_all app].
  - unfold chan. rewrite Hop. reflexivity.
  - rewrite (chan_accepted broker op' Hop'), bind_ok, IH. reflexivity.
Qed.

Ltac case_broker :=
  repeat match goal with
         | |- context [broker ?op] => destruct (broker op)
         end.

Lemma connect_as_calls (self : EventSubscriber) :
  connect broker aio_pika self
  = try_except (chan_all broker (connect_calls self))
      (except_aio_pika aio_pika "AMQPConnectionError" is_AMQPConnectionError
         (fun e => logger_call (logger self) "error" ;; raise e)).
Proof.
  unfold connect, connect_calls, declare_dead_letter_queue. cbn [chan_all].
  unfold chan. case_broker; reflexivity.
Qed.

Lemma subscribe_as_calls (self : EventSubscriber) (queue_name : string) :
  subscribe_events broker aio_pika self queue_name
  = try_except (chan_all broker (subscribe_calls self queue_name))
      (except_aio_pika aio_pika "AMQPError" is_AMQPError
         (fun e => logger_call (logger self) "error" ;; raise e)).
Proof.
  unfold subscribe_events, subscribe_calls. cbn [chan_all].
  unfold chan. case_broker; reflexivity.
Qed.

Lemma logged_error (lg : logger_object) (e : exn) :
  "error" ∈ lg ->
  (logger_call lg "error" ;; raise e : M unit) = ([EvLog "error"], Raise e).
Proof.
  intros Hin. unfold logger_call. rewrite bool_decide_eq_true_2 by done.
  reflexivity.
Qed.

(** The two [except aio_pika....] clauses, for a logger that has an [error]
    method: the handler runs when the package has the class and the
    exception is of it; the exception passes when the package has the class
    and the exception is of another; [AttributeError] replaces it when the
    package has no such name. *)
Lemma except_aio_pika_cases (lg : logger_object) (name : string)
    (matches : exn -> bool) (e : exn) :
  "error" ∈ lg ->
  (except_aio_pika aio_pika name matches
     (fun e => logger_call lg "error" ;; raise e) e : M unit)
  = (if aio_pika name && matches e then [EvLog "error"] else [],
     Raise (if aio_pika name then e else AttributeError)).
Proof.
  intros Hlg. unfold except_aio_pika.
  destruct (aio_pika name); [| reflexivity].
  destruct (matches e); [| reflexivity].
  by rewrite (logged_error _ e Hlg).
Qed.

(** X1.  [connect] makes its six channel calls in order: the channel, the
    main and the dead-letter exchange as fanout, the retry exchange as
    direct, the durable dead-letter queue with its message TTL only, and its
    binding to the dead-letter exchange.  Accepted by the broker, they are
    all made and [connect] returns.  At the first call that raises, nothing
    further is called, and the [except] clause looks up
    [aio_pika.AMQPConnectionError]: when the package has no such name,
    [AttributeError] is raised in place of the exception and nothing is
    logged; when it has, the same exception is raised again, after one error
    log when it is an [AMQPConnectionError] and without a log otherwise. *)
Theorem X1_connect_calls (self : EventSubscriber) :
  "error" ∈ logger self ->
  (Forall (fun op => broker op = None) (connect_calls self) ->
   connect broker aio_pika self = (EvBroker <$> connect_calls self, Ok tt))
  /\ (forall done op rest e,
        connect_calls self = done ++ op :: rest ->
        Forall (fun op => broker op = None) done ->
        broker op = Some e ->
        connect broker aio_pika self
        = ((EvBroker <$> (done ++ [op]))
             ++ (if aio_pika "AMQPConnectionError" && is_AMQPConnectionError e
                 then [EvLog "error"] else []),
           Raise (if aio_pika "AMQPConnectionError" then e else AttributeError))).
Proof.
  intros Hlg. rewrite connect_as_calls. split.
  - intros Hall. by rewrite (chan_all_accepted _ Hall), try_ok.
  - intros done op rest e -> Hd Hop.
    rewrite (chan_all_refused done rest op e Hd Hop), try_raise.
    by rewrite (except_aio_pika_cases _ _ _ e Hlg).
Qed.

(** X2.  [subscribe_events] declares, binds and consumes in that order.
    At the first of the three calls that raises nothing further is called,
    so a queue whose declaration or binding failed is never consumed from.
    The [except] clause then looks up [aio_pika.AMQPError]: when the package
    has no such name, [AttributeError] is raised in place of the exception
    and nothing is logged; when it has, the same exception is raised again,
    after one error log when it is an [AMQPError] (or its subclass
    [AMQPConnectionError]) and without a log otherwise. *)
Theorem X2_subscribe_failure (self : EventSubscriber) (queue_name : string) :
  "error" ∈ logger self ->
  forall done op rest e,
    subscribe_calls self queue_name = done ++ op :: rest ->
    Forall (fun op => broker op = None) done ->
    broker op = Some e ->
    subscribe_events broker aio_pika self queue_name
    = ((EvBroker <$> (done ++ [op]))
         ++ (if aio_pika "AMQPError" && is_AMQPError e
             then [EvLog "error"] else []),
       Raise (if aio_pika "AMQPError" then e else AttributeError))
    /\ (op <> Consume queue_name CoroutineObject false ->
        forall c no_ack,
          EvBroker (Consume queue_name c no_ack)
          ∉ trace_of (subscribe_events broker aio_pika self queue_name)).
Proof.
  intros Hlg done op rest e Hsplit Hd Hop.
  assert (subscribe_events broker aio_pika self queue_name
          = ((EvBroker <$> (done ++ [op]))
               ++ (if aio_pika "AMQPError" && is_AMQPError e
                   then [EvLog "error"] else []),
             Raise (if aio_pika "AMQPError" then e else AttributeError))) as E.
  { rewrite subscribe_as_calls, Hsplit.
    rewrite (chan_all_refused done rest op e Hd Hop), try_raise.
    by rewrite (except_aio_pika_cases _ _ _ e Hlg). }
  split; [exact E |].
  intros Hne c no_ack. rewrite E. cbn [trace_of fst].
  unfold subscribe_calls in Hsplit.
  destruct done as [| d1 [| d2 [| d3 done]]]; cbn in Hsplit.
  - injection Hsplit as <- <-.
    destruct (aio_pika "AMQPError" && is_AMQPError e); cbn;
      rewrite ?not_elem_of_cons; repeat split; try done; apply not_elem_of_nil.
  - injection Hsplit as <- <- <-.
    destruct (aio_pika "AMQPError" && is_AMQPError e); cbn;
      rewrite ?not_elem_of_cons; repeat split; try done; apply not_elem_of_nil.
  - injection Hsplit as <- <- <- <-. by destruct Hne.
  - injection Hsplit as _ _ _ Hnil. by destruct done.
Qed.

End Calls.

(** ** Closing *)

(** X3.  [close] returns normally exactly when the subscriber is connected
    and both the channel and the connection close without raising; it then
    closed the channel, then the connection, and logged once.  In every
    other case it logs one error and raises the exception it met: on a
    subscriber that never connected, [AttributeError] with nothing closed;
    when the channel fails to close, that exception, and the connection is
    not closed. *)
Theorem X3_close (connected : bool) (channel_close connection_close : option exn)
    (self : EventSubscriber) :
  "log" ∈ logger self -> "error" ∈ logger self ->
  let r := ConsumerClose.close connected channel_close connection_close self in
  (r.2 = Ok tt
   <-> connected = true /\ channel_close = None /\ connection_close = None)
  /\ (r.2 = Ok tt ->
      r.1 = [ConsumerClose.CloseChannel; ConsumerClose.CloseConnection;
             ConsumerClose.CloseLog "log"])
  /\ (connected = false ->
      r = ([ConsumerClose.CloseLog "error"], Raise AttributeError))
  /\ (forall e, connected = true -> channel_close = Some e ->
      r = ([ConsumerClose.CloseChannel; ConsumerClose.CloseLog "error"], Raise e))
  /\ (forall e, connected = true -> channel_close = None ->
      connection_close = Some e ->
      r = ([ConsumerClose.CloseChannel; ConsumerClose.CloseConnection;
            ConsumerClose.CloseLog "error"], Raise e)).
Proof.
  intros Hlog Herr r. unfold r, ConsumerClose.close, ConsumerClose.close_logger_call,
    ConsumerClose.call_close.
  rewrite !bool_decide_eq_true_2 by done.
  destruct connected, channel_close as [e1 |], connection_close as [e2 |]; cbn;
    repeat split; try done; try (intros; congruence); try (by intros (? & ? & ?));
    try (intros e ? [= <-]; reflexivity); try (intros e ? ? [= <-]; reflexivity).
Qed.

Section Deliveries.

Variable broker : broker_op -> option exn.
Variable json_loads : list Byte.byte -> result payload.
Variable validate_message_schema : payload -> option exn.
Variable callback : payload -> hval -> option exn.
Variable uuid4 : string.

(** X4.  [_deserialize_and_validate_message] has no effect of its own.  It
    returns the parsed document exactly when the body parses and the
    document passes the validation.  Otherwise it raises: [ValueError] when
    the parser or the validator raised an exception of the [ValueError]
    family ([JSONDecodeError] included), and the exception itself when it is
    of another class. *)
Theorem X4_deserialize_outcome (message : Message) :
  let r := _deserialize_and_validate_message json_loads validate_message_schema
             message in
  trace_of r = []
  /\ (forall d,
        outcome_of r = Ok d
        <-> json_loads (body message) = Ok d /\ validate_message_schema d = None)
  /\ (forall e,
        outcome_of r = Raise e
        <-> exists e0,
              (json_loads (body message) = Raise e0
               \/ exists d, json_loads (body message) = Ok d
                            /\ validate_message_schema d = Some e0)
              /\ e = if is_ValueError e0 then ValueError else e0).
Proof.
  intros r. split; [apply deserialize_trace |]. unfold r.
  unfold _deserialize_and_validate_message.
  destruct (json_loads (body message)) as [d0 | e0] eqn:Hj.
  - destruct (validate_message_schema d0) as [e0 |] eqn:Hv.
    + unfold raise. rewrite try_raise. split.
      * intros d. destruct (is_ValueError e0); cbn; split; try done;
          intros [[= ->] ?]; congruence.
      * intros e. split.
        -- intros He. exists e0. split; [right; by exists d0 |].
           destruct (is_ValueError e0); cbn in He; congruence.
        -- intros (e1 & [[=] | (d & [= <-] & Hd)] & ->).
           assert (e1 = e0) as -> by congruence.
           by destruct (is_ValueError e0).
    + unfold ret. rewrite try_ok. cbn. split.
      * intros d. split; [intros [= <-]; done | intros [[= ->] _]; done].
      * intros e. split; [done |].
        intros (e1 & [[=] | (d & [= <-] & Hd)] & _). congruence.
  - unfold raise. rewrite try_raise. split.
    + intros d. destruct (is_ValueError e0); cbn; split; try done;
        intros [[=] _].
    + intros e. split.
      * intros He. exists e0. split; [by left |].
        destruct (is_ValueError e0); cbn in He; congruence.
      * intros (e1 & [[= <-] | (d & [=] & _)] & ->).
        by destruct (is_ValueError e0).
Qed.

(** ** The failure handler *)

Lemma get_request_id_present (message : Message) (h : gmap string hval) (rid : hval) :
  headers message = Some h -> h !! "request_id" = Some rid ->
  get_request_id uuid4 message = ([], Ok rid).
Proof.
  intros Hh Hrid. unfold get_request_id, headers_truthy. rewrite Hh.
  rewrite bool_decide_eq_false_2.
  - cbn. by rewrite Hrid.
  - intros ->. by rewrite lookup_empty in Hrid.
Qed.

(** X5.  Whatever the logger, the broker and the delivery, the failure
    handler sleeps at most once and publishes at most one envelope, to the
    retry or to the dead-letter exchange; the envelope has the body of the
    delivery, and when it is delivered in turn its request id is read back
    from its headers, the same as the one of the delivery, without a new
    UUID. *)
Theorem X5_handler_publishes_once (self : EventSubscriber) (message : Message)
    (rid : hval) :
  let t := trace_of (_handle_failed_message broker self message rid) in
  (length (sleeps t) <= 1)%nat
  /\ (length (published t) <= 1)%nat
  /\ forall ex rk m,
       (ex, rk, m) ∈ published t ->
       (ex = retry_exchange self \/ ex = dead_letter_exchange self)
       /\ body m = body message
       /\ get_request_id uuid4 m = ([], Ok rid).
Proof.
  intros t. unfold t, _handle_failed_message.
  destruct (default _ _) as [| r |];
    try (cbn; split; [lia | split; [lia | intros ex rk m H; inversion H]]).
  destruct (r <? max_retries self)%Z.
  - destruct (pow2 (r + 1)) as [seconds | e];
      [rewrite bind_ok; cbn [trace_of outcome_of fst snd app]
      | cbn; split; [lia | split; [lia | intros ex rk m H; inversion H]]].
    destruct (logger_call_cases (logger self) "warning") as [-> | ->];
      unfold emit, raise; rewrite ?bind_ok, ?bind_raise; cbn;
      (split; [lia | split; [lia | intros ex rk m H]]); [| inversion H].
    apply list_elem_of_singleton in H as [= -> -> ->].
    split; [by left | split; [reflexivity |]].
    eapply get_request_id_present; [reflexivity |].
    rewrite lookup_insert_ne by done. apply lookup_singleton_eq.
  - destruct (logger_call_cases (logger self) "warn") as [-> | ->];
      unfold emit, raise; rewrite ?bind_ok, ?bind_raise; cbn;
      (split; [lia | split; [lia | intros ex rk m H]]); [| inversion H].
    apply list_elem_of_singleton in H as [= -> -> ->].
    split; [by right | split; [reflexivity |]].
    eapply get_request_id_present; [reflexivity |].
    apply lookup_singleton_eq.
Qed.

(** X6.  With a logger that has a [warning] method, a failed delivery whose
    retry count [r] is below the limit is slept on for [2 ** (r + 1)] and
    republished once, to the retry exchange under the routing key
    ["retry_queue"]; the envelope reads back the retry count [r + 1], which
    does not exceed the limit, and the handler returns or raises as the
    broker's publish does.  The delay is the exact power for every count from
    [-1075] on, so for every count that is not negative; below, the float
    power underflows and the delay is [0.0]; and for a count so low that the
    power raises [OverflowError], the exception escapes before anything is
    slept on, logged or published. *)
Theorem X6_retry_republishes (self : EventSubscriber) (message : Message)
    (rid : hval) (r : Z) :
  "warning" ∈ logger self ->
  read_retries message = HInt r -> r < max_retries self ->
  (forall seconds,
     pow2 (r + 1) = Ok seconds ->
     exists m,
       _handle_failed_message broker self message rid
       = ([EvSleep seconds; EvLog "warning";
           EvBroker (Publish (retry_exchange self) (Some "retry_queue") m)],
          match broker (Publish (retry_exchange self) (Some "retry_queue") m) with
          | None => Ok tt
          | Some e => Raise e
          end)
       /\ body m = body message
       /\ read_retries m = HInt (r + 1)
       /\ r + 1 <= max_retries self)
  /\ (forall e,
        pow2 (r + 1) = Raise e ->
        _handle_failed_message broker self message rid = ([], Raise e))
  /\ (-1075 <= r -> pow2 (r + 1) = Ok (Qpower (2 # 1) (r + 1)))
  /\ (- float_limit < r + 1 < -1074 -> pow2 (r + 1) = Ok (0 # 1))
  /\ (r + 1 <= - float_limit -> pow2 (r + 1) = Raise OverflowError).
Proof.
  intros Hlg Hr Hlt. split; [| split; [| split; [| split]]].
  - intros seconds Hpow. exists (retry_envelope message rid (r + 1)).
    split; [| split; [reflexivity | split; [apply read_retries_retry_envelope | lia]]].
    exact (handle_failed_retry_full broker self message rid r seconds
             Hlg Hr Hlt Hpow).
  - intros e Hpow.
    exact (handle_failed_retry_overflow broker self message rid r e Hr Hlt Hpow).
  - intros Hge. apply pow2_exact. lia.
  - apply pow2_underflow.
  - apply pow2_overflow.
Qed.

(** X7.  A delivery that fails and whose [x-retries] header is not a number
    is neither retried nor dead-lettered by the subscriber: with the
    repository's logger nothing is slept on or published, [TypeError]
    escapes and the delivery is rejected. *)
Theorem X7_malformed_retry_count (exchange dlx : string) (message : Message) :
  ~ valid_body json_loads validate_message_schema message ->
  (forall r, read_retries message <> HInt r) ->
  let self := init exchange dlx AuditLogger in
  let d := deliver broker json_loads validate_message_schema callback uuid4
             self message in
  sleeps d.1 = [] /\ published d.1 = [] /\ callback_count d.1 = 0%nat
  /\ d.2 = Rejected
  /\ outcome_of (on_message broker json_loads validate_message_schema callback
                   uuid4 self message) = Raise TypeError.
Proof.
  intros Hn Hr self d.
  destruct (get_request_id_ok uuid4 message) as (pre & rid & Hrid & _).
  pose proof (on_message_invalid broker json_loads validate_message_schema
                callback uuid4 exchange dlx message pre rid Hrid Hn) as E.
  cbn zeta in E. fold self in E.
  rewrite (handle_failed_not_int broker self message rid Hr) in E.
  unfold d, deliver, process. rewrite E. cbn [trace_of outcome_of fst snd is_ok].
  unfold get_request_id in Hrid.
  destruct (headers_truthy (headers message)); inversion Hrid; subst; done.
Qed.

(** With the repository's logger the failure handler returns normally only
    on the dead-letter branch, when the broker accepts the envelope. *)
Lemma handle_failed_returns (exchange dlx : string) (message : Message) (rid : hval) :
  outcome_of (_handle_failed_message broker (init exchange dlx AuditLogger)
                message rid) = Ok tt
  <-> exists r, read_retries message = HInt r /\ 5 <= r
                /\ broker (Publish dlx None (dead_letter_envelope message rid)) = None.
Proof.
  unfold _handle_failed_message, read_retries.
  destruct (default _ _) as [| r |].
  - split; [done | by intros (r & [=] & _)].
  - cbn [init max_retries logger dead_letter_exchange retry_exchange].
    destruct (r <? 5)%Z eqn:Hlt.
    + apply Z.ltb_lt in Hlt.
      assert (outcome_of
                (seconds ← ([], pow2 (r + 1));
                 emit (EvSleep seconds) ;;
                 logger_call AuditLogger "warning" ;;
                 chan broker (Publish "retry_exchange" (Some "retry_queue")
                                {| body := body message;
                                   headers := Some (<[ "x-retries" := HInt (r + 1) ]>
                                                    {[ "request_id" := rid ]}) |}))
              <> Ok tt) as Hout.
      { destruct (pow2 (r + 1)) as [seconds | e]; [| done].
        rewrite bind_ok. cbn [trace_of outcome_of fst snd app].
        rewrite audit_warning. by unfold emit, raise. }
      split; [done |]. intros (r' & [= <-] & Hge & _). lia.
    + rewrite audit_warn. unfold emit, chan. rewrite bind_ok.
      apply Z.ltb_ge in Hlt. cbn [outcome_of trace_of fst snd].
      fold (dead_letter_envelope message rid).
      destruct (broker _) eqn:Hb; split; try done.
      * intros (r' & _ & _ & [=]).
      * intros _. by exists r.
  - split; [done | by intros (r & [=] & _)].
Qed.

(** X8.  With the repository's logger a delivery is acknowledged in two
    cases only: the body is valid and the callback returned, or the
    delivery failed with a retry count of 5 or more and the broker accepted
    the dead-letter envelope.  Every other delivery is rejected; in
    particular every failed delivery below the retry limit is. *)
Theorem X8_acknowledged_iff (exchange dlx : string) (message : Message)
    (pre : list event) (rid : hval) :
  get_request_id uuid4 message = (pre, Ok rid) ->
  let self := init exchange dlx AuditLogger in
  let handled :=
    exists d, json_loads (body message) = Ok d
              /\ validate_message_schema d = None /\ callback d rid = None in
  let dead_lettered :=
    exists r, read_retries message = HInt r /\ 5 <= r
              /\ broker (Publish dlx None (dead_letter_envelope message rid)) = None in
  (deliver broker json_loads validate_message_schema callback uuid4 self message).2
  = Acked
  <-> handled \/ (~ handled /\ dead_lettered).
Proof.
  intros Hrid self handled dead_lettered. unfold deliver, process. cbn [snd].
  assert (forall o : result unit,
            (if is_ok o then Acked else Rejected) = Acked <-> o = Ok tt) as Hack.
  { intros [[] | e]; cbn; split; congruence. }
  rewrite Hack.
  destruct (classic_valid json_loads validate_message_schema message)
    as [(d & Hj & Hv) | Hn].
  - destruct (callback d rid) as [e |] eqn:Hc.
    + pose proof (on_message_valid_raise broker json_loads validate_message_schema
                    callback uuid4 exchange dlx message d pre rid e
                    Hrid Hj Hv Hc) as E.
      cbn zeta in E. fold self in E. rewrite E. cbn [outcome_of snd].
      assert (~ handled) as Hnh.
      { intros (d' & Hj' & _ & Hc'). congruence. }
      fold (outcome_of (_handle_failed_message broker self message rid)).
      unfold self. rewrite handle_failed_returns. fold dead_lettered. tauto.
    + unfold self.
      rewrite (on_message_valid_ok broker json_loads validate_message_schema
                 callback uuid4 exchange dlx message d pre rid Hrid Hj Hv Hc).
      cbn. split; [| done]. intros _. left. by exists d.
  - pose proof (on_message_invalid broker json_loads validate_message_schema
                  callback uuid4 exchange dlx message pre rid Hrid Hn) as E.
    cbn zeta in E. fold self in E. rewrite E. cbn [outcome_of snd].
    assert (~ handled) as Hnh.
    { intros (d' & Hj' & Hv' & _). apply Hn. by exists d'. }
    fold (outcome_of (_handle_failed_message broker self message rid)).
    unfold self. rewrite handle_failed_returns. fold dead_lettered. tauto.
Qed.

End Deliveries.

(** ** Concrete runs *)

Lemma audit_has_error : "error" ∈ AuditLogger.
Proof. by apply (bool_decide_unpack (_ ∈ _)). Qed.

Lemma audit_has_log : "log" ∈ AuditLogger.
Proof. by apply (bool_decide_unpack (_ ∈ _)). Qed.

(** Connecting to a broker that accepts every call. *)
Lemma X1_connect_accepted :
  connect accepting_broker aio_pika_exports
    (init "events" "dead_letter" AuditLogger)
  = (EvBroker <$> connect_calls (init "events" "dead_letter" AuditLogger), Ok tt).
Proof.
  apply (X1_connect_calls accepting_broker aio_pika_exports
           (init "events" "dead_letter" AuditLogger) audit_has_error).
  repeat constructor.
Defined.

(** Connecting to a broker that cannot be reached, with the released
    package: [AttributeError] comes out, and no error is logged. *)
Lemma connect_unreachable :
  connect unreachable_broker aio_pika_exports
    (init "events" "dead_letter" AuditLogger)
  = ([EvBroker OpenChannel], Raise AttributeError).
Proof. vm_compute. reflexivity. Qed.

(** Subscribing on a broker that refuses the binding, with the released
    package: the queue is declared, the binding is tried, nothing is
    consumed, and [AttributeError] comes out without an error log. *)
Lemma X2_bind_refused :
  let self := init "events" "dead_letter" AuditLogger in
  subscribe_events refusing_bind aio_pika_exports self "bids"
  = ((EvBroker <$> ([DeclareQueue
                       {| q_name := "bids"; q_durable := true;
                          q_auto_delete := false;
                          q_arguments :=
                            <[ "x-message-ttl" := HInt 300000 ]>
                            (<[ "x-dead-letter-exchange" := HStr "dead_letter" ]>
                             {[ "x-max-length" := HInt 1000 ]}) |}]
                    ++ [Bind "bids" "events"]))
       ++ [], Raise AttributeError)
  /\ (Bind "bids" "events" <> Consume "bids" CoroutineObject false ->
      forall c no_ack,
        EvBroker (Consume "bids" c no_ack)
        ∉ trace_of (subscribe_events refusing_bind aio_pika_exports self "bids")).
Proof.
  apply (X2_subscribe_failure refusing_bind aio_pika_exports
           (init "events" "dead_letter" AuditLogger) "bids" audit_has_error
           [DeclareQueue
              {| q_name := "bids"; q_durable := true; q_auto_delete := false;
                 q_arguments :=
                   <[ "x-message-ttl" := HInt 300000 ]>
                   (<[ "x-dead-letter-exchange" := HStr "dead_letter" ]>
                    {[ "x-max-length" := HInt 1000 ]}) |}]
           (Bind "bids" "events") [Consume "bids" CoroutineObject false]
           AMQPError).
  - reflexivity.
  - repeat constructor.
  - reflexivity.
Defined.

(** Closing when the channel fails to close: the connection is left open. *)
Lemma X3_channel_close_fails :
  ConsumerClose.close true (Some RuntimeError) None
    (init "events" "dead_letter" AuditLogger)
  = ([ConsumerClose.CloseChannel; ConsumerClose.CloseLog "error"],
     Raise RuntimeError).
Proof.
  apply (X3_close true (Some RuntimeError) None
           (init "events" "dead_letter" AuditLogger) audit_has_log audit_has_error).
  - reflexivity.
  - reflexivity.
Defined.

(** The envelope dead-lettered for the exhausted delivery is read back with
    the request id of the delivery. *)
Lemma X5_exhausted_envelope :
  get_request_id "u-2" (dead_letter_envelope exhausted_delivery (HStr "r-1"))
  = ([], Ok (HStr "r-1")).
Proof.
  apply (proj2 (proj2 (X5_handler_publishes_once accepting_broker "u-2"
                         (init "events" "dead_letter" AuditLogger)
                         exhausted_delivery (HStr "r-1")))
           "dead_letter" None).
  vm_compute. apply list_elem_of_singleton. reflexivity.
Defined.

(** A first failure under a logger that has [warning]: the envelope goes
    to the retry exchange with retry count 1. *)
Lemma X6_first_retry :
  exists m,
    _handle_failed_message accepting_broker
      (init "events" "dead_letter" warning_logger) first_delivery (HStr "u-1")
    = ([EvSleep (Qpower (2 # 1) (0 + 1)); EvLog "warning";
        EvBroker (Publish "retry_exchange" (Some "retry_queue") m)], Ok tt)
    /\ body m = body first_delivery
    /\ read_retries m = HInt (0 + 1)
    /\ 0 + 1 <= 5.
Proof.
  apply (proj1 (X6_retry_republishes accepting_broker
                  (init "events" "dead_letter" warning_logger) first_delivery
                  (HStr "u-1") 0 (list_elem_of_here _ _) eq_refl eq_refl)
           (Qpower (2 # 1) (0 + 1))).
  reflexivity.
Defined.

(** A failed delivery whose retry count is [-1100]: the power underflows and
    the delay is zero. *)
Lemma underflow_delay :
  sleeps (trace_of (_handle_failed_message accepting_broker
                      (init "events" "dead_letter" warning_logger)
                      {| body := [];
                         headers := Some {[ "x-retries" := HInt (-1100) ]} |}
                      HNone))
  = [0 # 1].
Proof. vm_compute. reflexivity. Qed.

Lemma malformed_not_int (r : Z) : read_retries malformed_delivery <> HInt r.
Proof. vm_compute. discriminate. Qed.

(** The delivery with the retry count ["3"], a string. *)
Lemma X7_malformed_delivery :
  let d := deliver accepting_broker no_json any_schema quiet_callback "u-1"
             (init "events" "dead_letter" AuditLogger) malformed_delivery in
  sleeps d.1 = [] /\ published d.1 = [] /\ callback_count d.1 = 0%nat
  /\ d.2 = Rejected
  /\ outcome_of (on_message accepting_broker no_json any_schema quiet_callback
                   "u-1" (init "events" "dead_letter" AuditLogger)
                   malformed_delivery) = Raise TypeError.
Proof.
  apply (X7_malformed_retry_count accepting_broker no_json any_schema
           quiet_callback "u-1" "events" "dead_letter" malformed_delivery).
  - apply no_json_invalid.
  - apply malformed_not_int.
Defined.

(** A delivery that is handled is acknowledged. *)
Lemma X8_handled_is_acked :
  (deliver accepting_broker null_json any_schema quiet_callback "u-1"
     (init "events" "dead_letter" AuditLogger) first_delivery).2 = Acked.
Proof.
  apply (X8_acknowledged_iff accepting_broker null_json any_schema quiet_callback
           "u-1" "events" "dead_letter" first_delivery [EvUuid] (HStr "u-1")).
  - reflexivity.
  - left. exists JNull. repeat split.
Defined.

End ConsumerExtra.

(** * Further properties of the room broadcaster *)

Module AuctionsExtra.
Import Auctions Broadcast AuctionsProperties.

(** ** What [connect] and [disconnect] change *)


Lemma truthy_false_list (o : option (list nat)) :
  truthy o = false -> default [] o = [].
Proof. by destruct o as [[| x l] |]. Qed.



Lemma list_remove_first (x : nat) (l1 l2 : list nat) :
  x ∉ l1 -> list_remove x (l1 ++ x :: l2) = Some (l1 ++ l2).
Proof.
  induction l1 as [| y l1 IH]; cbn; intros Hnin.
  - by rewrite bool_decide_eq_true_2.
  - apply not_elem_of_cons in Hnin as [Hne Hnin].
    rewrite bool_decide_eq_false_2 by done. by rewrite IH.
Qed.

Lemma disconnect_frame (env : outcomes) (websocket : nat)
    (auction_id other : string) (st : manager) :
  other <> auction_id ->
  active_connections (disconnect env websocket auction_id st).2 !! other
  = active_connections st !! other.
Proof.
  intros Hne. unfold disconnect.
  destruct (active_connections st !! auction_id) as [l |]; [| done].
  destruct (list_remove websocket l) as [l' |]; [| done].
  case_bool_decide.
  - rewrite (proj1 (unsubscribe_connections env auction_id _)). cbn.
    by rewrite lookup_delete_ne.
  - cbn. by rewrite lookup_insert_ne.
Qed.

(** X10.  [disconnect] removes one registration only, the first one of the
    connection in the list of its room: the connections before and after it
    keep their order, a later registration of the same connection stays, and
    when others remain nothing else changes (no unsubscription, no record
    deleted).  The lists of the other rooms are never changed by a
    [disconnect], whether it returns or raises. *)
Theorem X10_disconnect_first_occurrence (env : outcomes) (websocket : nat)
    (auction_id : string) (st : manager) (l1 l2 : list nat) :
  active_connections st !! auction_id = Some (l1 ++ websocket :: l2) ->
  websocket ∉ l1 ->
  (l1 ++ l2 <> [] ->
   disconnect env websocket auction_id st
   = (Ok tt,
      set_connections (<[auction_id := l1 ++ l2]> (active_connections st)) st))
  /\ (forall other, other <> auction_id ->
       active_connections (disconnect env websocket auction_id st).2 !! other
       = active_connections st !! other).
Proof.
  intros Hl Hnin. split.
  - intros Hne. unfold disconnect. rewrite Hl, (list_remove_first _ _ _ Hnin).
    rewrite bool_decide_eq_false_2; [done |].
    intros Hlen. by apply length_zero_iff_nil in Hlen.
  - intros other Hne. by apply disconnect_frame.
Qed.

Lemma unsubscribe_returns (env : outcomes) (room_id : string) (st : manager) :
  (pubsub_unsubscribe env room_id st).1 = Ok tt
  <-> is_Some (pubsub st) /\ unsubscribe env = None.
Proof.
  unfold pubsub_unsubscribe.
  destruct (pubsub st) as [p |]; [destruct (unsubscribe env) as [e |] |]; cbn.
  - split; [done | by intros [_ [=]]].
  - split; [by eauto | done].
  - split; [done | by intros [[? [=]] _]].
Qed.

(** X11.  A websocket whose handshake is accepted joins a room it was not in
    and leaves it again: the registry is given back as it was, every room
    with the list of connections it had, whatever Redis does during the two
    calls; a room record created by the join is deleted by the leave.  The
    join returns exactly when the room had a record or both calls on Redis
    returned; the leave returns exactly when the room had a record or a
    current pub/sub object exists and [unsubscribe] returned. *)
Theorem X11_connect_disconnect_registry (env env' : outcomes) (websocket : nat)
    (auction_id : string) (st : manager) :
  websocket ∉ accepted st -> accept env = None ->
  (active_connections st !! auction_id = None
   \/ exists l, active_connections st !! auction_id = Some l
                /\ l <> [] /\ websocket ∉ l) ->
  let joined := connect env websocket auction_id st in
  let left := disconnect env' websocket auction_id joined.2 in
  active_connections left.2 = active_connections st
  /\ (joined.1 = Ok tt
      <-> is_Some (active_connections st !! auction_id)
          \/ (from_url env = None /\ subscribe env = None))
  /\ (left.1 = Ok tt
      <-> is_Some (active_connections st !! auction_id)
          \/ (is_Some (pubsub joined.2) /\ unsubscribe env' = None))
  /\ (is_Some (pubsub joined.2)
      <-> is_Some (pubsub st)
          \/ (active_connections st !! auction_id = None /\ from_url env = None)).
Proof.
  intros Hnin He Hst joined left. unfold left, joined.
  destruct Hst as [Hnone | (l & Hl & Hne & Hninl)].
  - assert (truthy (active_connections st !! auction_id) = false) as Ht
      by (by rewrite Hnone).
    assert (forall st',
              active_connections st'
              = <[auction_id := [websocket]]> (active_connections st) ->
              let left := disconnect env' websocket auction_id st' in
              active_connections left.2 = active_connections st
              /\ (left.1 = Ok tt
                  <-> is_Some (active_connections st !! auction_id)
                      \/ (is_Some (pubsub st') /\ unsubscribe env' = None)))
      as Hleave.
    { intros st' E. cbn zeta.
      rewrite (disconnect_last env' websocket auction_id st')
        by (by rewrite E, lookup_insert_eq).
      rewrite (proj1 (unsubscribe_connections env' auction_id _)).
      rewrite unsubscribe_returns. cbn [active_connections pubsub set_connections].
      rewrite E, Hnone. split; [by apply delete_insert_id |].
      split; [by right | intros [[? [=]] | H]; done]. }
    destruct (from_url env) as [e |] eqn:Hu;
      [| destruct (subscribe env) as [e |] eqn:Hs].
    + rewrite (connect_no_client _ _ _ _ e Hnin He Ht Hu). cbn [fst snd].
      match goal with
      | |- context [disconnect _ _ _ ?s] =>
          destruct (Hleave s eq_refl) as [H1 H2]
      end.
      split; [exact H1 |].
      split; [| split; [exact H2 |]]; cbn [pubsub]; rewrite ?Hnone.
      * split; [done | intros [[? [=]] | [[=] _]]].
      * split; [by left | intros [H | [_ [=]]]; done].
    + rewrite (connect_no_subscription _ _ _ _ e Hnin He Ht Hu Hs). cbn [fst snd].
      match goal with
      | |- context [disconnect _ _ _ ?s] =>
          destruct (Hleave s eq_refl) as [H1 H2]
      end.
      split; [exact H1 |].
      split; [| split; [exact H2 |]]; cbn [pubsub]; rewrite ?Hnone.
      * split; [done | intros [[? [=]] | [_ [=]]]].
      * split; [by right | by eauto].
    + rewrite (connect_new _ _ _ _ Hnin He Ht Hu Hs). cbn [fst snd].
      match goal with
      | |- context [disconnect _ _ _ ?s] =>
          destruct (Hleave s eq_refl) as [H1 H2]
      end.
      split; [exact H1 |].
      split; [| split; [exact H2 |]]; cbn [pubsub]; rewrite ?Hnone.
      * split; [by right | done].
      * split; [by right | by eauto].
  - assert (truthy (active_connections st !! auction_id) = true) as Ht
      by (rewrite Hl; by destruct l).
    rewrite (connect_existing _ _ _ _ Hnin He Ht). cbn [fst snd pubsub].
    unfold disconnect. cbn [active_connections set_connections].
    rewrite lookup_alter_eq, Hl. cbn [fmap option_fmap option_map].
    rewrite (list_remove_first websocket l [] Hninl), app_nil_r.
    rewrite bool_decide_eq_false_2
      by (intros Hlen; by apply length_zero_iff_nil in Hlen).
    cbn [fst snd active_connections set_connections].
    split; [| split; [| split]].
    + apply map_eq. intros k. destruct (decide (k = auction_id)) as [-> | Hk].
      * by rewrite lookup_insert_eq.
      * by rewrite lookup_insert_ne, lookup_alter_ne.
    + split; [by left | done].
    + split; [by left | done].
    + split; [by left | intros [H | [[=] _]]; done].
Qed.

(** ** The store of pub/sub objects and the tasks *)


(** What a call does to the store: nothing, or it adds an object that
    becomes the current one, or it unsubscribes a room on the current
    object. *)
Lemma step_store (c : call) (st : manager) :
  (pubsub_objects (step c st) = pubsub_objects st
   /\ pubsub (step c st) = pubsub st)
  \/ (exists chs,
        pubsub_objects (step c st) = pubsub_objects st ++ [chs]
        /\ pubsub (step c st) = Some (length (pubsub_objects st)))
  \/ (exists q a,
        pubsub st = Some q /\ pubsub (step c st) = Some q
        /\ pubsub_objects (step c st)
           = alter (fun chs => chs ∖ {[a]}) q (pubsub_objects st)).
Proof.
  destruct c as [env w a | env w a | send_text i pending]; cbn [step].
  - connect_cases env w a st; cbn [snd pubsub_objects pubsub];
      try (by left); right; left; by eexists.
  - unfold disconnect.
    destruct (active_connections st !! a) as [l |]; [| by left].
    destruct (list_remove w l) as [l' |]; [| by left].
    case_bool_decide; [| by left].
    unfold pubsub_unsubscribe. cbn [pubsub set_connections].
    destruct (pubsub st) as [q |] eqn:Hq; [| by left].
    destruct (unsubscribe env); [left; by cbn |].
    right; right. exists q, a. by cbn.
  - left. by destruct (poll_frame send_text i pending st) as (_ & _ & -> & -> & _).
Qed.

Lemma current_is_last_step (c : call) (st : manager) :
  current_is_last st -> current_is_last (step c st).
Proof.
  intros Hcur.
  destruct (step_store c st)
    as [[Ho Hp] | [(chs & Ho & Hp) | (q & a & Hq & Hp & Ho)]];
    intros q'; rewrite Hp, Ho.
  - apply Hcur.
  - intros [= <-]. rewrite length_app. cbn. lia.
  - intros [= <-]. rewrite length_alter. by apply Hcur.
Qed.

Lemma stale_step (c : call) (st : manager) (p : nat) :
  current_is_last st -> stale p st ->
  stale p (step c st) /\ channels_of (step c st) p = channels_of st p.
Proof.
  intros Hcur (q & Hq & Hpq). pose proof (Hcur q Hq) as Hlen.
  destruct (step_store c st)
    as [[Ho Hp] | [(chs & Ho & Hp) | (q' & a & Hq' & Hp & Ho)]].
  - split; [exists q; by rewrite Hp |]. unfold channels_of. by rewrite Ho.
  - split; [exists (length (pubsub_objects st)); split; [done | lia] |].
    rewrite (channels_of_grown st _ chs p Ho). rewrite decide_False; [done | lia].
  - assert (q' = q) as -> by congruence.
    split; [by exists q |].
    rewrite (channels_of_unsubscribed st _ q p a Ho).
    rewrite decide_False; [done | lia].
Qed.

(** X13.  A pub/sub object that is no longer the current one is never
    changed again: whatever calls follow, and whatever the services answer,
    it stays subscribed to exactly the channels it had.  (Only the current
    object is reached by [subscribe] and [unsubscribe], and every [connect]
    of a new room replaces it.) *)
Theorem X13_stale_object_frozen (calls : list call) (st : manager) (p : nat) :
  current_is_last st -> stale p st ->
  stale p (run calls st) /\ channels_of (run calls st) p = channels_of st p.
Proof.
  revert st. induction calls as [| c calls IH]; intros st Hok Hst; cbn [run].
  - done.
  - destruct (stale_step c st p Hok Hst) as [Hst' Hch].
    destruct (IH (step c st) (current_is_last_step c st Hok) Hst') as [H1 H2].
    split; [done | congruence].
Qed.

Lemma join_leave_once (websocket : nat) (auction_id : string) (st : manager) :
  active_connections st !! auction_id = None ->
  websocket ∉ accepted st ->
  run [Connect all_return websocket auction_id;
       Disconnect all_return websocket auction_id] st
  = {| active_connections := active_connections st;
       accepted := {[websocket]} ∪ accepted st;
       pubsub_objects := pubsub_objects st ++ [∅];
       pubsub := Some (length (pubsub_objects st));
       tasks := tasks st ++ [{| polled := length (pubsub_objects st);
                                ended := None |}] |}.
Proof.
  intros Hnone Hnin. cbn [run step].
  rewrite connect_new; [| done | done | by rewrite Hnone | done | done].
  cbn [snd].
  rewrite disconnect_last by (cbn; by rewrite lookup_insert_eq).
  unfold pubsub_unsubscribe. cbn. f_equal.
  - by apply delete_insert_id.
  - rewrite alter_app_r_alt by lia. rewrite Nat.sub_diag. cbn.
    by rewrite difference_diag_L.
Qed.

(** A websocket that was accepted before cannot join again: both calls
    raise, and nothing changes. *)
Lemma join_leave_again (env env' : outcomes) (websocket : nat)
    (auction_id : string) (st : manager) :
  active_connections st !! auction_id = None ->
  websocket ∈ accepted st ->
  connect env websocket auction_id st = (Raise RuntimeError, st)
  /\ disconnect env' websocket auction_id st = (Raise KeyError, st).
Proof.
  intros Hnone Hin. split; [by apply connect_refused |].
  unfold disconnect. by rewrite Hnone.
Qed.

(** X14.  Each time a new websocket joins a room that has no record and
    leaves it, every service returning, one more pub/sub object and one more
    listener task are left behind: after such rounds by [n] distinct
    websockets the registry is as before and there are [n] more objects and
    [n] more tasks.  A websocket that was accepted before cannot join
    again: its two calls raise and change nothing. *)
Theorem X14_join_leave_leaks (websockets : list nat) (auction_id : string)
    (st : manager) :
  active_connections st !! auction_id = None ->
  NoDup websockets ->
  (forall websocket, websocket ∈ websockets -> websocket ∉ accepted st) ->
  let st' := run (join_leave websockets auction_id) st in
  active_connections st' = active_connections st
  /\ length (tasks st') = (length (tasks st) + length websockets)%nat
  /\ length (pubsub_objects st')
     = (length (pubsub_objects st) + length websockets)%nat
  /\ (forall websocket,
        websocket ∈ accepted st' <->
        websocket ∈ websockets \/ websocket ∈ accepted st)
  /\ (forall env env' websocket,
        websocket ∈ websockets ->
        run [Connect env websocket auction_id;
             Disconnect env' websocket auction_id] st' = st').
Proof.
  revert st. induction websockets as [| w ws IH]; intros st Hnone Hnd Hfresh.
  - cbn. rewrite !Nat.add_0_r. repeat split; try done.
    + by right.
    + intros [H | H]; [by apply not_elem_of_nil in H | done].
    + intros env env' w H. by apply not_elem_of_nil in H.
  - apply NoDup_cons in Hnd as [Hw Hnd].
    assert (w ∉ accepted st) as Hwf by (apply Hfresh, list_elem_of_here).
    pose proof (join_leave_once w auction_id st Hnone Hwf) as E.
    change (join_leave (w :: ws) auction_id)
      with ([Connect all_return w auction_id; Disconnect all_return w auction_id]
              ++ join_leave ws auction_id).
    cbn [app run]. cbn [run] in E. rewrite E.
    match goal with
    | |- context [run _ ?s] =>
        destruct (IH s) as (H1 & H2 & H3 & H4 & H5); [done | done | |]
    end.
    { intros w' Hw'. cbn. rewrite elem_of_union, elem_of_singleton.
      intros [-> | Hacc]; [done |].
      by apply (Hfresh w' (list_elem_of_further _ _ _ Hw')). }
    cbn zeta in H1, H2, H3, H4, H5.
    cbn [active_connections accepted pubsub_objects tasks] in H1, H2, H3, H4.
    cbn zeta.
    match goal with
    | |- context [run (join_leave ws auction_id) ?s] =>
        set (st1 := run (join_leave ws auction_id) s) in *
    end.
    rewrite H1, H2, H3, !length_app. cbn [length].
    split; [done |]. split; [lia |]. split; [lia |]. split.
    + intros w'. rewrite H4, elem_of_union, elem_of_singleton, elem_of_cons.
      tauto.
    + intros env env' w' Hw'.
      destruct (join_leave_again env env' w' auction_id st1) as [Ec Ed].
      * by rewrite H1.
      * apply H4. apply elem_of_cons in Hw' as [-> | Hw'].
        -- right. apply elem_of_union. left. by apply elem_of_singleton.
        -- by left.
      * cbn [run step]. rewrite Ec. cbn [snd]. by rewrite Ed.
Qed.

(** ** Broadcasting *)

Lemma pubsub_step (c : call) (st : manager) :
  is_Some (pubsub (step c st))
  <-> is_Some (pubsub st) \/ opens_redis c st = true.
Proof.
  destruct c as [env w a | env w a | send_text i pending]; cbn [step opens_redis].
  - connect_cases env w a st; cbn [snd pubsub is_none negb andb].
    + rewrite bool_decide_eq_false_2 by (by intros H). cbn. split; [by left |].
      by intros [H | [=]].
    + rewrite andb_false_r. cbn. split; [by left | by intros [H | [=]]].
    + rewrite andb_false_r. cbn. split; [by left | by intros [H | [=]]].
    + rewrite andb_false_r. split; [by left | by intros [H | [=]]].
    + rewrite bool_decide_eq_true_2 by done. split; [by right | by eauto].
    + rewrite bool_decide_eq_true_2 by done. split; [by right | by eauto].
  - assert (pubsub (disconnect env w a st).2 = pubsub st) as ->.
    { unfold disconnect.
      destruct (active_connections st !! a) as [l |]; [| done].
      destruct (list_remove w l) as [l' |]; [| done].
      case_bool_decide; [| done].
      by rewrite (proj1 (proj2 (proj2 (unsubscribe_connections env a _)))). }
    split; [by left | by intros [H | [=]]].
  - destruct (poll_frame send_text i pending st) as (_ & _ & _ & -> & _).
    split; [by left | by intros [H | [=]]].
Qed.

Lemma pubsub_run (calls : list call) (st : manager) :
  is_Some (pubsub (run calls st))
  <-> is_Some (pubsub st) \/ redis_opened calls st = true.
Proof.
  revert st. induction calls as [| c calls IH]; intros st; cbn [run redis_opened].
  - split; [by left | by intros [H | [=]]].
  - rewrite IH, pubsub_step, orb_true_iff. tauto.
Qed.

Lemma redis_not_opened (calls : list call) (st : manager) :
  Forall (fun c => is_connect c = false) calls -> redis_opened calls st = false.
Proof.
  intros Hall. revert st.
  induction Hall as [| c calls Hc _ IH]; intros st; cbn [redis_opened]; [done |].
  rewrite IH, orb_false_r. by destruct c.
Qed.

(** X15.  [broadcast] raises [AttributeError] as long as no [connect] was
    ever made, since the Redis client is only built by a [connect]; more
    exactly, as long as no [connect] built it: the handshake of the
    websocket has to be accepted, the room has to be without connections and
    [from_url] has to return.  From then on [broadcast] publishes the
    message on the channel of the room, whether or not that room has a
    connection or a record; so it does after a first [connect] whose
    handshake is accepted and whose client is built, even if the
    subscription raised. *)
Theorem X15_broadcast_needs_connect (calls : list call) (room_id message : string) :
  let st := run calls init in
  (Forall (fun c => is_connect c = false) calls ->
   broadcast room_id message st = Raise AttributeError)
  /\ broadcast room_id message st
     = (if redis_opened calls init then Ok (room_id, message)
        else Raise AttributeError)
  /\ (forall env websocket auction_id rest,
        calls = Connect env websocket auction_id :: rest ->
        accept env = None -> from_url env = None ->
        broadcast room_id message st = Ok (room_id, message)).
Proof.
  intros st.
  assert (broadcast room_id message st
          = (if redis_opened calls init then Ok (room_id, message)
             else Raise AttributeError)) as E.
  { pose proof (pubsub_run calls init) as Hiff. fold st in Hiff.
    unfold broadcast, _publish.
    destruct (redis_opened calls init).
    - destruct (proj2 Hiff) as [q ->]; [by right | done].
    - destruct (pubsub st) as [q |] eqn:Hq; [| done].
      destruct (proj1 Hiff) as [[? [=]] | [=]]. by eexists. }
  split; [| split; [exact E |]].
  - intros Hall. by rewrite E, redis_not_opened.
  - intros env w a rest -> He Hu. rewrite E. cbn [redis_opened opens_redis].
    rewrite He, Hu. by rewrite bool_decide_eq_true_2 by apply not_elem_of_empty.
Qed.

(** ** The listener over several messages *)

Section Reader.

Variable send_text : nat -> string -> option exn.
Variable connections : gmap string (list nat).

(** X16.  The listener handles its messages one after the other: over two
    runs of results of [get_message], it sends the frames of the first run
    and then those of the second, unless an exception ended it during the
    first, in which case nothing of the second run is sent. *)
Theorem X16_reader_sequence (polls1 polls2 : list (option (string * string))) :
  let r1 := _pubsub_data_reader send_text connections polls1 in
  let r2 := _pubsub_data_reader send_text connections polls2 in
  _pubsub_data_reader send_text connections (polls1 ++ polls2)
  = match r1.2 with
    | Some e => r1
    | None => (r1.1 ++ r2.1, r2.2)
    end.
Proof.
  cbn zeta. induction polls1 as [| [[a d] |] polls1 IH]; cbn [_pubsub_data_reader app].
  - by destruct (_pubsub_data_reader send_text connections polls2).
  - destruct (connections !! a) as [all_sockets |]; [| done].
    destruct (fan_out send_text all_sockets d) as [sent [[] | e]]; [| done].
    rewrite IH.
    destruct (_pubsub_data_reader send_text connections polls1) as [s1 [e1 |]];
      cbn; [done |].
    by rewrite app_assoc.
  - exact IH.
Qed.

(** X17.  While every send succeeds and every message is for a room that
    has a record, the listener stays in its loop and sends, message after
    message, the data of the message to each connection of its room, in the
    order of the list; a poll without a message sends nothing. *)
Theorem X17_reader_delivers_all (polls : list (option (string * string))) :
  (forall socket data, send_text socket data = None) ->
  (forall auction_id data,
     Some (auction_id, data) ∈ polls -> is_Some (connections !! auction_id)) ->
  _pubsub_data_reader send_text connections polls
  = (flat_map (frames_of connections) polls, None).
Proof.
  intros Hsend. induction polls as [| [[a d] |] polls IH]; intros Hrec;
    cbn [_pubsub_data_reader flat_map frames_of].
  - done.
  - destruct (Hrec a d) as [all_sockets Hs]; [apply list_elem_of_here |].
    rewrite Hs. cbn [default from_option id].
    rewrite (fan_out_all_sent send_text all_sockets d)
      by (apply Forall_forall; intros; apply Hsend).
    rewrite IH; [done |].
    intros a' d' Hin. apply (Hrec a' d'). by apply list_elem_of_further.
  - rewrite IH; [done |].
    intros a' d' Hin. apply (Hrec a' d'). by apply list_elem_of_further.
Qed.

End Reader.

(** ** Concrete runs *)


(** The first connection of a manager when Redis refuses the subscription:
    the connection is registered, and the room has neither a subscription
    nor a task. *)
Lemma first_connection_refused :
  let r := connect subscribe_fails 1 "auction-42" init in
  active_connections r.2 !! "auction-42" = Some [1%nat]
  /\ r.1 = Raise RuntimeError
  /\ pubsub_objects r.2 = [∅]
  /\ tasks r.2 = [].
Proof. vm_compute. done. Qed.

(** The second of three connections leaves: the others keep their order. *)
Lemma X10_second_leaves :
  let st := run [Connect all_return 1 "auction-42"; Connect all_return 2 "auction-42";
                 Connect all_return 3 "auction-42"] init in
  disconnect all_return 2 "auction-42" st
  = (Ok tt, set_connections (<["auction-42" := [1%nat] ++ [3%nat]]>
                               (active_connections st)) st).
Proof.
  apply (X10_disconnect_first_occurrence all_return 2 "auction-42"
           (run [Connect all_return 1 "auction-42"; Connect all_return 2 "auction-42";
                 Connect all_return 3 "auction-42"] init) [1%nat] [3%nat]).
  - reflexivity.
  - apply not_elem_of_cons. split; [done | apply not_elem_of_nil].
  - discriminate.
Defined.

(** Joining and leaving a room of a fresh manager. *)
Lemma X11_join_leave_fresh :
  let joined := connect all_return 1 "auction-42" init in
  let left := disconnect all_return 1 "auction-42" joined.2 in
  active_connections left.2 = active_connections init.
Proof.
  apply (X11_connect_disconnect_registry all_return all_return 1 "auction-42" init).
  - apply not_elem_of_empty.
  - reflexivity.
  - left. reflexivity.
Defined.


(** After a refused subscription and a second room: two objects, and one
    task, on the second. *)
Lemma after_refusal :
  let st := run [Connect subscribe_fails 1 "auction-1";
                 Connect all_return 2 "auction-2"] init in
  length (pubsub_objects st) = 2%nat
  /\ tasks st = [{| polled := 1; ended := None |}]
  /\ has_active_connection "auction-1" st = true
  /\ listeners "auction-1" st = [].
Proof. vm_compute. done. Qed.

Lemma two_rooms_current :
  current_is_last (run [Connect all_return 1 "auction-1";
                        Connect all_return 2 "auction-2"] init).
Proof. intros q [= <-]. reflexivity. Qed.

(** With two rooms the object of the first is stale; the first room leaving
    and another connection joining it does not change it. *)
Lemma X13_first_object_frozen :
  let st := run [Connect all_return 1 "auction-1";
                 Connect all_return 2 "auction-2"] init in
  let st' := run [Disconnect all_return 1 "auction-1";
                  Connect all_return 3 "auction-1"] st in
  stale 0 st' /\ channels_of st' 0 = channels_of st 0.
Proof.
  apply (X13_stale_object_frozen
           [Disconnect all_return 1 "auction-1"; Connect all_return 3 "auction-1"]
           (run [Connect all_return 1 "auction-1";
                 Connect all_return 2 "auction-2"] init) 0).
  - apply two_rooms_current.
  - exists 1%nat. split; [reflexivity | lia].
Defined.

(** Three rounds on a fresh manager leave three tasks. *)
Lemma X14_three_rounds :
  let st' := run (join_leave [1; 2; 3]%nat "auction-42") init in
  active_connections st' = active_connections init
  /\ length (tasks st') = (length (tasks init) + 3)%nat
  /\ length (pubsub_objects st') = (length (pubsub_objects init) + 3)%nat.
Proof.
  destruct (X14_join_leave_leaks [1; 2; 3]%nat "auction-42" init)
    as (H1 & H2 & H3 & _).
  - reflexivity.
  - repeat constructor; rewrite ?not_elem_of_cons;
      repeat split; try done; apply not_elem_of_nil.
  - intros w _. apply not_elem_of_empty.
  - by repeat split.
Defined.

(** The same websocket for the three rounds: one object and one task, the
    second and the third round raising. *)
Lemma same_websocket_rounds :
  let st' := run (join_leave [1; 1; 1]%nat "auction-42") init in
  length (tasks st') = 1%nat /\ length (pubsub_objects st') = 1%nat.
Proof. vm_compute. done. Qed.

(** Broadcasting on a manager nobody connected to. *)
Lemma X15_broadcast_too_early :
  broadcast "auction-42" "SOLD" (run [Disconnect all_return 1 "auction-42"] init)
  = Raise AttributeError.
Proof.
  apply (proj1 (X15_broadcast_needs_connect
                  [Disconnect all_return 1 "auction-42"] "auction-42" "SOLD")).
  repeat constructor.
Defined.

(** Two messages to a room of two connections on a reliable transport. *)
Lemma X17_two_messages :
  _pubsub_data_reader reliable {[ "auction-42" := [1; 2]%nat ]}
    [Some ("auction-42", "BID"); None; Some ("auction-42", "SOLD")]
  = (flat_map (frames_of {[ "auction-42" := [1; 2]%nat ]})
       [Some ("auction-42", "BID"); None; Some ("auction-42", "SOLD")], None).
Proof.
  apply (X17_reader_delivers_all reliable {[ "auction-42" := [1; 2]%nat ]}).
  - reflexivity.
  - intros a d Hin.
    assert (a = "auction-42") as ->.
    { repeat (apply elem_of_cons in Hin as [Hin | Hin]; [congruence |]).
      inversion Hin. }
    by eexists.
Defined.

End AuctionsExtra.

(** * Properties of the loggers *)

Module LoggersProperties.
Import Loggers.

Lemma sapp_nil_l (t : string) : ("" ++ t)%string = t.
Proof. reflexivity. Qed.

Lemma sapp_cons (c : Ascii.ascii) (s t : string) :
  (String c s ++ t)%string = String c (s ++ t)%string.
Proof. reflexivity. Qed.

Lemma sapp_nil_r (s : string) : (s ++ "")%string = s.
Proof. induction s as [| c s IH]; [done |]. by rewrite sapp_cons, IH. Qed.

Lemma sapp_assoc (s t u : string) :
  ((s ++ t) ++ u)%string = (s ++ (t ++ u))%string.
Proof. induction s as [| c s IH]; [done |]. by rewrite !sapp_cons, IH. Qed.

Section Base.

Variable logger_name : string.
Variable _send_log : string -> string -> L unit.
Variable repr : list (string * log_value) -> string.

(** The text [_log_text] hands to the sink. *)
Lemma log_text_sink (message severity : string) (trace_id : option string) :
  let text := (severity ++ ": [" ++ logger_name ++ "] " ++ message
               ++ (if str_truthy trace_id
                   then " | trace_id=" ++ default "" trace_id else ""))%string in
  _log_text logger_name _send_log message severity trace_id
  = match _send_log text severity with
    | (t, Ok _) => (t, Ok tt)
    | (t, Raise e) => (t ++ [LoggingFailure "Failed to send log: " e], Ok tt)
    end.
Proof.
  cbn zeta. unfold _log_text. destruct (str_truthy trace_id).
  - by rewrite !sapp_assoc.
  - by rewrite sapp_nil_r.
Qed.

(** X18.  No method of [AuditLogger] raises, whatever its sink does: each
    calls the sink once, and when the sink raises, the failure is reported
    once through the standard [logging.error] and the method returns. *)
Theorem X18_logging_never_raises (message severity : string)
    (trace_id user_id : option string) (metadata : option (list (string * string))) :
  (AuditLogger_log logger_name _send_log repr message user_id metadata severity trace_id).2
  = Ok tt
  /\ (AuditLogger_warn logger_name _send_log message trace_id).2 = Ok tt
  /\ (AuditLogger_error logger_name _send_log message trace_id).2 = Ok tt
  /\ (AuditLogger_debug logger_name _send_log message trace_id).2 = Ok tt
  /\ (AuditLogger_critical logger_name _send_log message trace_id).2 = Ok tt
  /\ forall text,
       (_log_text logger_name _send_log text severity trace_id).2 = Ok tt
       /\ exists sent,
            (_log_text logger_name _send_log text severity trace_id).1
            = (_send_log sent severity).1
              ++ match (_send_log sent severity).2 with
                 | Ok _ => []
                 | Raise e => [LoggingFailure "Failed to send log: " e]
                 end.
Proof.
  assert (forall text sev tid, (_log_text logger_name _send_log text sev tid).2 = Ok tt)
    as Hok.
  { intros text sev tid. unfold _log_text.
    by destruct (_send_log _ sev) as [t [[] | e]]. }
  repeat split; try apply Hok.
  rewrite log_text_sink.
  match goal with
  | |- context [_send_log ?x severity] => exists x
  end.
  destruct (_send_log _ severity) as [t [[] | e]]; cbn; [by rewrite app_nil_r | done].
Qed.

End Base.

(** X19.  Through [AuditLogger] and [ConsoleLogger], [warn], [error],
    [debug] and [critical] each make one call of the [logging] function of
    their own level and one [print], both with the same text: the severity,
    the logger name ["auction-logs"] in brackets, the severity once more,
    the message, and [" | trace_id="] with the trace id when one is given
    and is not empty. *)
Theorem X19_console_level_methods (message : string) (trace_id : option string) :
  AuditLogger_warn console_name console_send_log message trace_id
  = ([Logging "warning" (level_text console_name "WARNING" message trace_id);
      Print (level_text console_name "WARNING" message trace_id)], Ok tt)
  /\ AuditLogger_error console_name console_send_log message trace_id
     = ([Logging "error" (level_text console_name "ERROR" message trace_id);
         Print (level_text console_name "ERROR" message trace_id)], Ok tt)
  /\ AuditLogger_debug console_name console_send_log message trace_id
     = ([Logging "debug" (level_text console_name "DEBUG" message trace_id);
         Print (level_text console_name "DEBUG" message trace_id)], Ok tt)
  /\ AuditLogger_critical console_name console_send_log message trace_id
     = ([Logging "critical" (level_text console_name "CRITICAL" message trace_id);
         Print (level_text console_name "CRITICAL" message trace_id)], Ok tt)
  /\ (str_truthy trace_id = false ->
      level_text console_name "WARNING" message trace_id
      = ("WARNING: [auction-logs] WARNING: " ++ message)%string).
Proof.
  unfold AuditLogger_warn, AuditLogger_error, AuditLogger_debug, AuditLogger_critical,
    warn, error, debug, critical.
  rewrite !log_text_sink. unfold level_text, console_send_log, console_level.
  repeat split.
  intros ->. by rewrite sapp_nil_r.
Qed.

(** X20.  [log] through [AuditLogger] and [ConsoleLogger] prints the [repr]
    of a dictionary that always has the action, has the user id only when
    one is given and is not empty, and has the metadata only when it is
    given and is not empty, in that order; the text goes to the [logging]
    function named by the severity, and to [logging.info] for any severity
    that is not exactly ERROR, WARNING, DEBUG or CRITICAL. *)
Theorem X20_console_log (repr : list (string * log_value) -> string)
    (action severity : string) (user_id trace_id : option string)
    (metadata : option (list (string * string))) :
  let text := (severity ++ ": [auction-logs] "
               ++ repr (log_fields action user_id metadata)
               ++ (if str_truthy trace_id
                   then " | trace_id=" ++ default "" trace_id else ""))%string in
  AuditLogger_log console_name console_send_log repr action user_id metadata severity
    trace_id
  = ([Logging (console_level severity) text; Print text], Ok tt)
  /\ (severity ∉ ["ERROR"; "WARNING"; "DEBUG"; "CRITICAL"] ->
      console_level severity = "info").
Proof.
  cbn zeta. split.
  - unfold AuditLogger_log, log. rewrite log_text_sink. unfold console_send_log, log_fields.
    destruct (str_truthy user_id), (dict_truthy metadata); reflexivity.
  - intros Hnin. unfold console_level.
    rewrite !not_elem_of_cons in Hnin. destruct Hnin as (H1 & H2 & H3 & H4 & _).
    by rewrite !bool_decide_eq_false_2.
Qed.

(** X21.  [CloudLogger._send_log] never raises: it calls the cloud client
    once, and reports a failure of the client once through [logging.error].
    So with the cloud logger the methods of [AuditLogger] return normally
    and the failure report of [_log_text] itself is never made. *)
Theorem X21_cloud_logger (log_text : string -> string -> option exn)
    (logger_name message severity : string) (trace_id : option string) :
  let r := _log_text logger_name (cloud_send_log log_text) message severity
             trace_id in
  r.2 = Ok tt
  /\ (forall e, LoggingFailure "Failed to send log: " e ∉ r.1)
  /\ exists text,
       r.1 = CloudLogText text severity
             :: match log_text text severity with
                | None => []
                | Some e => [LoggingFailure "Failed to send log to Cloud Logging: " e]
                end.
Proof.
  cbn zeta. unfold _log_text, cloud_send_log.
  destruct (log_text _ severity) as [e |] eqn:E; cbn.
  - split; [done |]. split.
    + intros e'. rewrite !not_elem_of_cons. repeat split; try done.
      apply not_elem_of_nil.
    + eexists. by rewrite E.
  - split; [done |]. split.
    + intros e'. rewrite !not_elem_of_cons. repeat split; try done.
      apply not_elem_of_nil.
    + eexists. by rewrite E.
Qed.

(** ** Concrete calls *)

(** A warning without a trace id, as the console prints it. *)
Lemma X19_warning_text :
  level_text console_name "WARNING" "queue is full" None
  = ("WARNING: [auction-logs] WARNING: " ++ "queue is full")%string.
Proof.
  apply (X19_console_level_methods "queue is full" None). reflexivity.
Defined.

(** A severity in lower case goes to [logging.info]. *)
Lemma X20_lower_case_severity : console_level "error" = "info".
Proof.
  apply (proj2 (X20_console_log (fun _ => "") "bid" "error" None None None)).
  rewrite !not_elem_of_cons. repeat split; try done. apply not_elem_of_nil.
Defined.

End LoggersProperties.

(** * Properties of the authentication *)

Module AuthProperties.
Import Consumer Auth LoggersProperties.

(** ** Roles *)

Lemma user_type_is_unique (role1 role2 : string) (d : claims) :
  user_type_is role1 d = true -> user_type_is role2 d = true -> role1 = role2.
Proof.
  unfold user_type_is. destruct (d !! "user_type") as [[| | | | s | |] |]; try done.
  rewrite !bool_decide_eq_true. congruence.
Qed.

(** X22.  Each role dependency returns the claims it was given, unchanged,
    when their [user_type] is the string of its role, and raises
    [HTTPException] 403 otherwise, in particular when [user_type] is missing
    or is not a string.  No claims are accepted by two of the three. *)
Theorem X22_roles (d : claims) :
  (AdminJWTBearer d = Return d <-> d !! "user_type" = Some (JStr "Admin"))
  /\ (BuyerRoleDependency d = Return d <-> d !! "user_type" = Some (JStr "Buyer"))
  /\ (SellerRoleDependency d = Return d <-> d !! "user_type" = Some (JStr "Seller"))
  /\ Forall (fun o => o = Return d
                      \/ exists detail, o = Throw (HTTPException 403 detail))
       [AdminJWTBearer d; BuyerRoleDependency d; SellerRoleDependency d]
  /\ (length (filter (fun o => is_return o = true)
                [AdminJWTBearer d; BuyerRoleDependency d; SellerRoleDependency d])
      <= 1)%nat.
Proof.
  assert (forall role, user_type_is role d = true
                       <-> d !! "user_type" = Some (JStr role)) as Hrole.
  { intros role. unfold user_type_is.
    destruct (d !! "user_type") as [[| | | | s | |] |]; try (split; congruence).
    rewrite bool_decide_eq_true. split; congruence. }
  unfold AdminJWTBearer, BuyerRoleDependency, SellerRoleDependency.
  rewrite <- !Hrole.
  destruct (user_type_is "Admin" d) eqn:Ha, (user_type_is "Buyer" d) eqn:Hb,
    (user_type_is "Seller" d) eqn:Hs; cbn;
    try (pose proof (user_type_is_unique _ _ _ Ha Hb); discriminate);
    try (pose proof (user_type_is_unique _ _ _ Ha Hs); discriminate);
    try (pose proof (user_type_is_unique _ _ _ Hb Hs); discriminate);
    (repeat split; try done; try (vm_compute; lia);
     repeat (constructor; [by eauto |]); try constructor).
Qed.

(** ** Tokens over HTTP and over a websocket *)

Lemma partition_no_space (s t : string) :
  has_space s = false ->
  partition_space (s ++ String Ascii.Space t)%string = (s, " ", t).
Proof.
  induction s as [| c s IH]; cbn [has_space]; intros Hs.
  - rewrite sapp_nil_l. cbn. by rewrite bool_decide_eq_true_2.
  - apply orb_false_iff in Hs as [Hc Hs]. rewrite sapp_cons. cbn [partition_space].
    rewrite Hc. by rewrite (IH Hs).
Qed.

(** X23.  [str.partition(" ")] as the websocket authentication uses it: the
    three parts put together again give the text; the first part has no
    space; the separator is a space, or it and the last part are empty when
    the text has no space.  So for a scheme without a space, the header
    made of the scheme, a space and a token gives back the scheme and the
    whole token, spaces included. *)
Theorem X23_partition (s : string) :
  let '(before, sep, after) := partition_space s in
  (before ++ sep ++ after)%string = s
  /\ has_space before = false
  /\ (sep = " " /\ has_space s = true
      \/ sep = "" /\ after = "" /\ has_space s = false)
  /\ forall token, has_space s = false ->
       partition_space (s ++ " " ++ token)%string = (s, " ", token).
Proof.
  assert (forall token, has_space s = false ->
            partition_space (s ++ " " ++ token)%string = (s, " ", token)) as Hrt.
  { intros token Hs. by apply partition_no_space. }
  induction s as [| c s IH]; cbn [partition_space].
  - repeat split; try done. right. done.
  - case_bool_decide as Hc.
    + subst c. repeat split; try done. left. done.
    + destruct (partition_space s) as [[before sep] after].
      destruct IH as (H1 & H2 & H3 & _).
      { intros token Hs. by apply partition_no_space. }
      split; [by rewrite sapp_cons, H1 |]. split.
      { cbn [has_space]. by rewrite bool_decide_eq_false_2, H2. }
      split; [| exact Hrt].
      cbn [has_space]. rewrite (bool_decide_eq_false_2 _ Hc). cbn [orb].
      exact H3.
Qed.

Section Services.

Variable get_user : string -> option auth_exn.
Variable jwt_decode : string -> outcome claims.

Lemma jwt_bearer_accepts (scheme token : string) (payload : claims) :
  JWTBearer get_user jwt_decode (Return (Some (scheme, token))) = Return payload ->
  scheme = "Bearer" /\ get_user token = None /\ jwt_decode token = Return payload.
Proof.
  unfold JWTBearer. case_bool_decide as Hs; cbn [negb]; [| done].
  destruct (get_user token) as [e |]; [done |].
  destruct (jwt_decode token) as [p | e]; [by intros [= <-] | by destruct e].
Qed.

(** X24.  [JWTBearer] returns claims exactly when the credentials are
    present, their scheme is exactly ["Bearer"], [get_user] accepts the
    token and [jwt.decode] decodes it, and the claims are those decoded.  It
    answers missing credentials and any other scheme, ["bearer"] included,
    with 403, before the token is looked at, and an expired or undecodable
    token with 401. *)
Theorem X24_JWTBearer (credentials : option (string * string)) :
  (forall payload,
     JWTBearer get_user jwt_decode (Return credentials) = Return payload
     <-> exists token, credentials = Some ("Bearer", token)
                       /\ get_user token = None
                       /\ jwt_decode token = Return payload)
  /\ (credentials = None ->
      JWTBearer get_user jwt_decode (Return credentials)
      = Throw (HTTPException 403 "Invalid authorization code."))
  /\ (forall scheme token,
        credentials = Some (scheme, token) -> scheme <> "Bearer" ->
        JWTBearer get_user jwt_decode (Return credentials)
        = Throw (HTTPException 403 "Invalid authentication scheme."))
  /\ (forall token,
        credentials = Some ("Bearer", token) -> get_user token = None ->
        (jwt_decode token = Throw ExpiredSignatureError ->
         JWTBearer get_user jwt_decode (Return credentials)
         = Throw (HTTPException 401 "Token has expired."))
        /\ (jwt_decode token = Throw DecodeError ->
            JWTBearer get_user jwt_decode (Return credentials)
            = Throw (HTTPException 401 "Invalid token."))).
Proof.
  unfold JWTBearer. split; [| split; [| split]].
  - intros payload. destruct credentials as [[scheme token] |].
    + case_bool_decide as Hs; cbn [negb].
      * subst scheme. destruct (get_user token) as [e |] eqn:Hu.
        -- split; [done |]. intros (t & [= <-] & Hu' & _). congruence.
        -- destruct (jwt_decode token) as [p | e] eqn:Hd.
           ++ split.
              ** intros [= <-]. by exists token.
              ** intros (t & [= <-] & _ & Hd'). congruence.
           ++ split.
              ** by destruct e.
              ** intros (t & [= <-] & _ & Hd'). congruence.
      * split; [done |]. intros (t & [= -> _] & _). done.
    + split; [done |]. by intros (t & [=] & _).
  - by intros ->.
  - intros scheme token -> Hne. by rewrite bool_decide_eq_false_2.
  - intros token -> Hu. rewrite bool_decide_eq_true_2 by done. cbn [negb].
    rewrite Hu. split; by intros ->.
Qed.

(** X25.  [WebSocketJWTBearer] returns claims exactly when the header is
    present, the text before its first space is ["bearer"] in any mix of
    upper and lower case, the text after it is not empty, [get_user] accepts
    that text as the token and [jwt.decode] decodes it.  Every other call
    raises [WebSocketException] with code 1008, and nothing else: an
    exception of [get_user] or of [jwt.decode], whatever its class, is
    turned into it. *)
Theorem X25_WebSocketJWTBearer (auth_header : option string) :
  (forall payload,
     WebSocketJWTBearer get_user jwt_decode auth_header = Return payload
     <-> exists header scheme sep token,
           auth_header = Some header
           /\ partition_space header = (scheme, sep, token)
           /\ lower scheme = "bearer" /\ token <> ""
           /\ get_user token = None /\ jwt_decode token = Return payload)
  /\ (forall e,
        WebSocketJWTBearer get_user jwt_decode auth_header = Throw e ->
        exists reason, e = WebSocketException 1008 reason).
Proof.
  unfold WebSocketJWTBearer. destruct auth_header as [header |].
  - destruct (partition_space header) as [[scheme sep] token] eqn:Hp.
    case_bool_decide as Hs; cbn [negb orb].
    + case_bool_decide as Ht.
      * split.
        -- intros payload. split; [done |].
           intros (h & s' & sep' & t' & [= <-] & Hp' & _ & Hne & _).
           rewrite Hp in Hp'. congruence.
        -- intros e [= <-]. by eexists.
      * destruct (get_user token) as [eu |] eqn:Hu.
        -- split.
           ++ intros payload. split; [done |].
              intros (h & s' & sep' & t' & [= <-] & Hp' & _ & _ & Hu' & _).
              rewrite Hp in Hp'. congruence.
           ++ intros e [= <-]. by eexists.
        -- destruct (jwt_decode token) as [p | ed] eqn:Hd.
           ++ split.
              ** intros payload. split.
                 --- intros [= <-]. by exists header, scheme, sep, token.
                 --- intros (h & s' & sep' & t' & [= <-] & Hp' & _ & _ & _ & Hd').
                     rewrite Hp in Hp'. congruence.
              ** intros e [=].
           ++ split.
              ** intros payload. split; [done |].
                 intros (h & s' & sep' & t' & [= <-] & Hp' & _ & _ & _ & Hd').
                 rewrite Hp in Hp'. congruence.
              ** intros e [= <-]. by eexists.
    + split.
      * intros payload. split; [done |].
        intros (h & s' & sep' & t' & [= <-] & Hp' & Hl & _).
        rewrite Hp in Hp'. congruence.
      * intros e [= <-]. by eexists.
  - split.
    + intros payload. split; [done |]. by intros (h & ? & ? & ? & [=] & _).
    + intros e [= <-]. by eexists.
Qed.

(** X26.  Credentials that [JWTBearer] accepts over HTTP are accepted over
    a websocket too, with the same claims, when they are given as the header
    "scheme token" and the token is not empty. *)
Theorem X26_http_implies_websocket (scheme token : string) (payload : claims) :
  token <> "" ->
  JWTBearer get_user jwt_decode (Return (Some (scheme, token))) = Return payload ->
  WebSocketJWTBearer get_user jwt_decode (Some (scheme ++ " " ++ token)%string)
  = Return payload.
Proof.
  intros Hne Hhttp.
  destruct (jwt_bearer_accepts scheme token payload Hhttp) as (-> & Hu & Hd).
  unfold WebSocketJWTBearer.
  change ("Bearer" ++ " " ++ token)%string
    with ("Bearer" ++ String Ascii.Space token)%string.
  rewrite (partition_no_space "Bearer" token) by reflexivity.
  rewrite bool_decide_eq_true_2 by reflexivity. cbn [negb orb].
  rewrite bool_decide_eq_false_2 by done. by rewrite Hu, Hd.
Qed.

End Services.

(** ** Concrete requests *)

(** A token that contains a space is kept whole. *)
Lemma X23_token_with_space :
  partition_space ("Bearer" ++ " " ++ "a b")%string = ("Bearer", " ", "a b").
Proof.
  pose proof (X23_partition "Bearer") as H. cbn in H.
  destruct H as (_ & _ & _ & H). apply H. reflexivity.
Defined.

(** The scheme in lower case is refused over HTTP. *)
Lemma X24_lower_case_scheme :
  JWTBearer any_user decode_buyer (Return (Some ("bearer", "tok")))
  = Throw (HTTPException 403 "Invalid authentication scheme.").
Proof.
  apply (proj1 (proj2 (proj2 (X24_JWTBearer any_user decode_buyer
                                (Some ("bearer", "tok")))))
           "bearer" "tok").
  - reflexivity.
  - discriminate.
Defined.

(** The scheme in upper case is accepted over a websocket. *)
Lemma X25_upper_case_scheme :
  WebSocketJWTBearer any_user decode_buyer (Some "BEARER tok") = Return buyer_claims.
Proof.
  apply (X25_WebSocketJWTBearer any_user decode_buyer (Some "BEARER tok")).
  exists "BEARER tok", "BEARER", " ", "tok". repeat split. discriminate.
Defined.

(** The same credentials over HTTP and over a websocket. *)
Lemma X26_same_token :
  WebSocketJWTBearer any_user decode_buyer (Some ("Bearer" ++ " " ++ "tok")%string)
  = Return buyer_claims.
Proof.
  apply (X26_http_implies_websocket any_user decode_buyer "Bearer" "tok"
           buyer_claims).
  - discriminate.
  - reflexivity.
Defined.

End AuthProperties.
